(** * Ceiling estimation by subject extrapolation

    A shallow embedding of [neural_nlp/benchmarks/ceiling.py]: the
    leave-one-subject-out estimator [HoldoutSubjectCeiling], the combinatorial
    subsampler and [collect], the bootstrap extrapolation
    ([extrapolate] / [extrapolate_neuroid]), [ci_error] and [merge].

    Conventions of the embedding.
    - IEEE doubles are idealised as real numbers ([R]); a NaN cell of a labelled
      array is [None] in a [list (option R)].  [np.exp] and [np.sqrt] are the
      real [exp] and [sqrt].  Rounding, overflow, division by zero and the NaN
      that numpy returns for a reduction of an empty array are outside this
      idealisation.
    - Python exceptions are values of [exn]; a call that may raise returns a
      [result].
    - The collaborators that live outside the repository (the metric, scipy's
      [curve_fit], numpy's [RandomState]) are Section variables.  What the
      labelled-array libraries do ([squeeze], [dropna], [expand_dims],
      [merge_data_arrays], [Score.merge]) is modelled where the module calls
      them, each with the behaviour it is modelled with in its comment.
    - The result cache of the [store] decorator and the logging are left
      out. *)

From Stdlib Require Import String Ascii.
From Stdlib Require Import Reals Lra Lia List Arith PeanoNat Bool.
From Stdlib Require Finite Permutation.
Import ListNotations.

Set Implicit Arguments.
Set Warnings "-register-all".

(* ------------------------------------------------------------------ *)
(** * Exceptions and fallible computations *)

Module Py.

(** The exception classes the module raises, catches or lets through. *)
Inductive exn : Type :=
| NoOverlapException (msg : string)
| ValueError (msg : string)
| KeyError (key : string)
| RuntimeError (msg : string)
| TypeError (msg : string)
| IndexError (msg : string)
| AssertionError.

Inductive result (A : Type) : Type :=
| Ok (a : A)
| Raise (e : exn).

Arguments Ok {A} a.
Arguments Raise {A} e.

Definition bind {A B : Type} (m : result A) (k : A -> result B) : result B :=
  match m with
  | Ok a => k a
  | Raise e => Raise e
  end.

Definition is_ok {A : Type} (m : result A) : bool :=
  match m with Ok _ => true | Raise _ => false end.

(** [str(e)]: a [KeyError] prints the [repr] of its key, the other classes
    print their message. *)
Definition str (e : exn) : string :=
  match e with
  | NoOverlapException m | ValueError m | RuntimeError m
  | TypeError m | IndexError m => m
  | KeyError k => ("'" ++ k ++ "'")%string
  | AssertionError => EmptyString
  end.

(** [needle in haystack] on Python strings. *)
Fixpoint contains (needle haystack : string) : bool :=
  if String.prefix needle haystack then true
  else match haystack with
       | EmptyString => false
       | String _ rest => contains needle rest
       end.

End Py.

Import Py.

Notation "x <- m ;; k" := (bind m (fun x => k))
  (at level 61, m at next level, right associativity).

Open Scope R_scope.

(* ------------------------------------------------------------------ *)
(** * numpy reductions on one-dimensional arrays *)

Module Np.

Definition Rleb (x y : R) : bool := if Rle_dec x y then true else false.
Definition Rltb (x y : R) : bool := if Rlt_dec x y then true else false.

Fixpoint insert (x : R) (l : list R) : list R :=
  match l with
  | [] => [x]
  | y :: l' => if Rleb x y then x :: y :: l' else y :: insert x l'
  end.

(** [np.sort]: ascending order. *)
Fixpoint sort (l : list R) : list R :=
  match l with
  | [] => []
  | x :: l' => insert x (sort l')
  end.

Definition sum (l : list R) : R := fold_right Rplus 0 l.

(** [np.mean]. *)
Definition mean (l : list R) : R := sum l / INR (length l).

(** [np.std] with the default [ddof=0]. *)
Definition std (l : list R) : R :=
  let m := mean l in
  sqrt (mean (map (fun x => (x - m) * (x - m)) l)).

(** [np.median]: the middle element of the sorted array, or the mean of the
    two middle elements when the length is even. *)
Definition median (l : list R) : R :=
  let a := sort l in
  let n := length a in
  if Nat.even n
  then (nth (n / 2 - 1) a 0 + nth (n / 2) a 0) / 2
  else nth (n / 2) a 0.

(** [np.floor], as a natural number (the arguments below are not negative). *)
Definition floor (x : R) : nat := Z.to_nat (Int_part x).

(** [np.percentile] with the default linear interpolation: the virtual index
    [q / 100 * (n - 1)] into the sorted array, interpolated between its two
    neighbours. *)
Definition percentile (l : list R) (q : R) : R :=
  let a := sort l in
  let n := length a in
  let virtual := q / 100 * (INR n - 1) in
  let previous := floor virtual in
  let next := Nat.min (previous + 1) (n - 1) in
  let gamma := virtual - INR previous in
  nth previous a 0 + gamma * (nth next a 0 - nth previous a 0).

(** NaN cells are [None]; [dropnan] keeps the numbers. *)
Fixpoint dropnan (l : list (option R)) : list R :=
  match l with
  | [] => []
  | Some x :: l' => x :: dropnan l'
  | None :: l' => dropnan l'
  end.

(** [np.nanpercentile]: the percentile of the entries that are not NaN. *)
Definition nanpercentile (l : list (option R)) (q : R) : R :=
  percentile (dropnan l) q.

(** [np.diff]: forward differences, one entry shorter than the input. *)
Fixpoint diff (l : list R) : list R :=
  match l with
  | x :: ((y :: _) as l') => (y - x) :: diff l'
  | _ => []
  end.

(** [np.where(mask)[0]]: the indices at which the mask holds, ascending. *)
Fixpoint where_from (i : nat) (mask : list bool) : list nat :=
  match mask with
  | [] => []
  | b :: mask' => if b then i :: where_from (S i) mask' else where_from (S i) mask'
  end.

Definition where_ (mask : list bool) : list nat := where_from 0 mask.

(** [ndarray.min()] of an index array; the reduction has no identity, so an
    empty array raises [ValueError]. *)
Definition min (l : list nat) : result nat :=
  match l with
  | [] => Raise (ValueError
      "zero-size array to reduction operation minimum which has no identity")
  | x :: l' => Ok (fold_right Nat.min x l')
  end.

End Np.

(* ------------------------------------------------------------------ *)
(** * [v] and [ci_error] *)

(** [def v(x, v0, tau0)]: the saturating growth curve. *)
Definition v (x v0 tau0 : R) : R := v0 * (1 - exp (- x / tau0)).

(** The percentile ranks [low, high] that [ci_error] computes from the
    confidence. *)
Definition ci_ranks (confidence : R) : R * R :=
  (100 * (1 - confidence) / 2, 100 * 1 - ((1 - confidence) / 2)).

(** [def ci_error(samples, center, confidence=.95)]. *)
Definition ci_error (samples : list (option R)) (center confidence : R) : R * R :=
  let low := fst (ci_ranks confidence) in
  let high := snd (ci_ranks confidence) in
  let confidence_below := Np.nanpercentile samples low in
  let confidence_above := Np.nanpercentile samples high in
  let confidence_below' := center - confidence_below in
  let confidence_above' := confidence_above - center in
  (confidence_below', confidence_above').

Definition default_confidence : R := 95 / 100.

(* ------------------------------------------------------------------ *)
(** * Labelled arrays and [merge] *)

(** Coordinate values: labels are strings (subjects, aggregation names,
    stringified subsets) or integers (bootstrap rounds, subsample sizes). *)
Inductive label : Type :=
| LStr (s : string)
| LNat (n : nat).

Definition label_eqb (a b : label) : bool :=
  match a, b with
  | LStr s, LStr t => String.eqb s t
  | LNat n, LNat m => Nat.eqb n m
  | _, _ => false
  end.

Fixpoint list_eqb {A : Type} (eqb : A -> A -> bool) (l1 l2 : list A) : bool :=
  match l1, l2 with
  | [], [] => true
  | x :: l1', y :: l2' => eqb x y && list_eqb eqb l1' l2'
  | _, _ => false
  end.

(** The numeric buffer of an array, nested along its axes. *)
Inductive ndarray : Type :=
| Scalar (x : R)
| Array (items : list ndarray).

Definition items_of (a : ndarray) : list ndarray :=
  match a with
  | Scalar _ => []
  | Array items => items
  end.

Definition is_scalar (a : ndarray) : bool :=
  match a with Scalar _ => true | Array _ => false end.

(** One coordinate: its name, the axes it lives on, its values. *)
Record coord : Type := mkCoord
  { coord_name : string;
    coord_dims : list string;
    coord_values : list label }.

(** [DataAssembly]: values, named axes and coordinates. *)
Record DataAssembly : Type := mkDataAssembly
  { values : ndarray;
    dims : list string;
    coords : list coord }.

(** [walk_coords(assembly)]: the [(coord, dims, values)] triples. *)
Definition walk_coords (assembly : DataAssembly) : list coord := coords assembly.

(** [array_is_element(arr, element)]: [arr] is exactly [(element,)]. *)
Definition array_is_element (arr : list string) (element : string) : bool :=
  match arr with
  | [x] => String.eqb x element
  | _ => false
  end.

(** [assembly[dim]]: the coordinate array of one axis; it keeps the
    coordinates that live on that axis alone. *)
Definition getitem_dim (assembly : DataAssembly) (dim : string) : DataAssembly :=
  {| values := Array [];
     dims := [dim];
     coords := filter (fun c => forallb (String.eqb dim) (coord_dims c))
                      (coords assembly) |}.

(** What [_coords_match] compares for one element.  The comprehension unpacks
    each triple of [walk_coords] as [_, key, value], so [key] is the triple's
    second component (the axes of the coordinate). *)
Definition merge_coords (element : DataAssembly) (dim : string) (match_values : bool)
  : list (list string * list label) :=
  map (fun c => (coord_dims c, if match_values then coord_values c else []))
      (walk_coords (getitem_dim element dim)).

Definition merge_coords_eqb (a b : list (list string * list label)) : bool :=
  list_eqb (fun x y => list_eqb String.eqb (fst x) (fst y)
                       && list_eqb label_eqb (snd x) (snd y)) a b.

(** [def _coords_match(elements, dim, match_values=False)]. *)
Definition _coords_match (elements : list DataAssembly) (dim : string)
  (match_values : bool) : bool :=
  match elements with
  | [] => true
  | first :: rest =>
      forallb (fun element =>
                 merge_coords_eqb (merge_coords first dim match_values)
                                  (merge_coords element dim match_values)) rest
  end.

(** [tuple.index(x)]. *)
Fixpoint index_of (x : string) (l : list string) : option nat :=
  match l with
  | [] => None
  | y :: l' => if String.eqb y x then Some 0%nat
               else option_map S (index_of x l')
  end.

(** Pointwise concatenation of the children of several arrays: the [i]-th
    result collects the [i]-th child of every array. *)
Fixpoint zip_items (rows : list (list ndarray)) : list (list ndarray) :=
  match rows with
  | [] => []
  | [r] => map (fun x => [x]) r
  | r :: rows' => map (fun p => fst p :: snd p) (combine r (zip_items rows'))
  end.

(** [np.concatenate(arrays, axis)]; zero-dimensional arrays cannot be
    concatenated, and along an inner axis the outer lengths must agree. *)
Fixpoint concatenate (axis : nat) (arrays : list ndarray) : result ndarray :=
  if existsb is_scalar arrays
  then Raise (ValueError "zero-dimensional arrays cannot be concatenated")
  else
    match axis with
    | O => Ok (Array (flat_map items_of arrays))
    | S axis' =>
        match arrays with
        | [] => Raise (ValueError "need at least one array to concatenate")
        | first :: rest =>
            let n := length (items_of first) in
            if forallb (fun a => Nat.eqb (length (items_of a)) n) rest
            then
              children <-
                fold_right
                  (fun col acc =>
                     acc' <- acc ;;
                     c <- concatenate axis' col ;;
                     Ok (c :: acc'))
                  (Ok []) (zip_items (map items_of arrays)) ;;
              Ok (Array children)
            else Raise (ValueError
              "all the input array dimensions except for the concatenation axis must match exactly")
        end
    end.

Definition remove_string (x : string) (l : list string) : list string :=
  filter (fun y => negb (String.eqb y x)) l.

(** [def merge( *elements, on='neuroid')]: concatenation along one axis. *)
Definition merge (elements : list DataAssembly) (on : string) : result DataAssembly :=
  match elements with
  | [] => Raise (IndexError "tuple index out of range")
  | first :: rest =>
      let dims0 := dims first in
      if negb (forallb (fun element => list_eqb String.eqb (dims element) dims0) rest)
      then Raise AssertionError
      else
        match index_of on dims0 with
        | None => Raise (ValueError "tuple.index(x): x not in tuple")
        | Some merge_index =>
            if negb (_coords_match elements on false) then Raise AssertionError
            else if negb (forallb (fun dim => _coords_match elements dim true)
                                  (remove_string on (nodup string_dec dims0)))
            then Raise AssertionError
            else
              merged_values <- concatenate merge_index (map values elements) ;;
              Ok {| values := merged_values;
                    dims := dims0;
                    coords :=
                      filter (fun c => negb (array_is_element (coord_dims c) on))
                             (walk_coords first)
                      ++ map (fun c =>
                                {| coord_name := coord_name c;
                                   coord_dims := coord_dims c;
                                   coord_values :=
                                     flat_map
                                       (fun element =>
                                          flat_map coord_values
                                            (filter (fun c' => String.eqb (coord_name c')
                                                                          (coord_name c))
                                                    (coords element)))
                                       elements |})
                             (filter (fun c => array_is_element (coord_dims c) on)
                                     (walk_coords first)) |}
        end
  end.

(* ------------------------------------------------------------------ *)
(** * Assemblies, scores and the subject subsampler *)

(** One measurement unit of the recorded assembly: the subject it was
    recorded from (the [subject_column] coordinate), its identifier and its
    responses. *)
Record Neuroid : Type := mkNeuroid
  { neuroid_subject : string;
    neuroid_id : nat;
    responses : list R }.

(** The assembly, as the sequence of its units along the [neuroid] axis. *)
Definition Assembly : Type := list Neuroid.

(** [assembly[subject_column].values]. *)
Definition subject_values (assembly : Assembly) : list string :=
  map neuroid_subject assembly.

(** [set(values)], in the order the set is iterated.  Python leaves that
    order unspecified; first occurrences are taken here. *)
Definition py_set (l : list string) : list string := rev (nodup string_dec (rev l)).

(** [x in xs] for subjects. *)
Definition mem (x : string) (xs : list string) : bool := existsb (String.eqb x) xs.

(** [assembly[{'neuroid': mask}]] with the mask computed per unit. *)
Definition select_neuroids (keep : Neuroid -> bool) (assembly : Assembly) : Assembly :=
  filter keep assembly.

(** The raw (pre-aggregation) table of a score: its axes, the singleton
    coordinates assigned after [expand_dims], and one row of per-split values
    per unit (NaN is [None]). *)
Record RawScores : Type := mkRaw
  { raw_dims : list string;
    raw_coords : list (string * label);
    raw_rows : list (nat * list (option R)) }.

(** A [Score] with a [center]/[error] aggregation axis and its [raw]
    attribute.  The axes the metric adds besides [aggregation] are not
    modelled: [center] and [error] are scalars. *)
Record Score : Type := mkScore
  { center : R;
    error : R;
    score_dims : list string;
    score_coords : list (string * label);
    raw : RawScores }.

(** [raw.expand_dims(dim)] followed by [raw[dim] = [value]]. *)
Definition raw_expand (dim : string) (value : label) (r : RawScores) : RawScores :=
  {| raw_dims := dim :: raw_dims r;
     raw_coords := (dim, value) :: raw_coords r;
     raw_rows := raw_rows r |}.

(** [score.expand_dims(dim, _apply_raw=...)] followed by
    [score.__setitem__(dim, [value], _apply_raw=...)]: the new axis is added
    to the raw table too unless [_apply_raw] is false. *)
Definition expand_dims (dim : string) (value : label) (_apply_raw : bool) (s : Score)
  : Score :=
  {| center := center s;
     error := error s;
     score_dims := dim :: score_dims s;
     score_coords := (dim, value) :: score_coords s;
     raw := if _apply_raw then raw_expand dim value (raw s) else raw s |}.

(** [merge_data_arrays] of the library: the arrays are renamed to ['z'],
    merged and looked up again, so an empty list raises [KeyError('z')]
    ("nothing to merge"). *)
Definition merge_data_arrays {A : Type} (data_arrays : list A) : result (list A) :=
  match data_arrays with
  | [] => Raise (KeyError "z")
  | _ => Ok data_arrays
  end.

(** The raw tables of the scores merged by [Score.merge]: the rows of all
    of them on the axes of the first. *)
Definition merge_raws (raws : list RawScores) : RawScores :=
  match raws with
  | [] => {| raw_dims := []; raw_coords := []; raw_rows := [] |}
  | first :: _ =>
      {| raw_dims := raw_dims first;
         raw_coords := raw_coords first;
         raw_rows := flat_map raw_rows raws |}
  end.

(** [repr] of a string and [str] of a tuple of strings. *)
Definition repr (s : string) : string := ("'" ++ s ++ "'")%string.

Definition str_tuple (t : list string) : string :=
  match t with
  | [x] => ("(" ++ repr x ++ ",)")%string
  | _ => ("(" ++ String.concat ", " (map repr t) ++ ")")%string
  end.

(** [itertools.combinations(iterable, r)]: the [r]-element subsequences, in
    the lexicographic order of their positions. *)
Fixpoint combinations (l : list string) (r : nat) : list (list string) :=
  match r with
  | O => [[]]
  | S r' =>
      match l with
      | [] => []
      | x :: l' => map (cons x) (combinations l' r') ++ combinations l' r
      end
  end.

(** The binomial coefficient, by Pascal's rule. *)
Fixpoint binomial (n k : nat) : nat :=
  match k with
  | O => 1
  | S k' =>
      match n with
      | O => 0
      | S n' => binomial n' k' + binomial n' k
      end
  end.

(** The number of subsets of a list of subsets that contain [s]. *)
Definition occurrences (s : string) (subsets : list (list string)) : nat :=
  length (filter (mem s) subsets).

(** Two subsets have the same members. *)
Definition same_members (a b : list string) : Prop :=
  forall s, In s a <-> In s b.

(* ------------------------------------------------------------------ *)
(** * [HoldoutSubjectCeiling] and [ExtrapolationCeiling.collect] *)

(** The fields of an [ExtrapolationCeiling] instance; its [holdout_ceiling]
    is the [HoldoutSubjectCeiling] on the same [subject_column]. *)
Record ExtrapolationCeiling : Type := mkExtrapolationCeiling
  { subject_column : string;
    num_bootstraps : nat;
    _post_process : option (list RawScores -> result (list RawScores)) }.

Section Collect.

(** The metric collaborator: [metric(pool_assembly, subject_assembly)]. *)
Variable metric : Assembly -> Assembly -> result Score.

Variable self : ExtrapolationCeiling.

(** [HoldoutSubjectCeiling.get_subject_iterations]. *)
Definition get_subject_iterations (subjects : list string) : list string := subjects.

(** [HoldoutSubjectCeiling.score]. *)
Definition score (pool_assembly subject_assembly : Assembly) : result Score :=
  metric pool_assembly subject_assembly.

(** The body of the loop over held-out subjects: [Ok (Some s)] is a score
    to append, [Ok None] is a [continue] of one of the two handlers, and an
    exception that no handler swallows is raised again. *)
Definition holdout_subject (assembly : Assembly) (subjects : list string)
  (subject : string) : result (option Score) :=
  let subject_assembly :=
    select_neuroids (fun n => String.eqb (neuroid_subject n) subject) assembly in
  let subject_pool := remove_string subject subjects in
  let pool_assembly :=
    select_neuroids (fun n => mem (neuroid_subject n) subject_pool) assembly in
  match score pool_assembly subject_assembly with
  | Ok s => Ok (Some (expand_dims (subject_column self) (LStr subject) false s))
  | Raise (NoOverlapException m) => Ok None
  | Raise (ValueError m) =>
      if contains "Found array with" (str (ValueError m))
      then Ok None
      else Raise (ValueError m)
  | Raise e => Raise e
  end.

Fixpoint holdout_loop (assembly : Assembly) (subjects iterate_subjects : list string)
  (scores : list Score) : result (list Score) :=
  match iterate_subjects with
  | [] => Ok scores
  | subject :: rest =>
      r <- holdout_subject assembly subjects subject ;;
      holdout_loop assembly subjects rest
        (match r with Some s => scores ++ [s] | None => scores end)
  end.

(** [Score.merge( *scores)]: the per-subject scores along the subject axis,
    with their raw tables merged. *)
Definition Score_merge (scores : list Score) : result (list Score * RawScores) :=
  merged <- merge_data_arrays scores ;;
  Ok (merged, merge_raws (map raw merged)).

(** [HoldoutSubjectCeiling.__call__]. *)
Definition holdout_ceiling (assembly : Assembly) : result Score :=
  let subjects := py_set (subject_values assembly) in
  let iterate_subjects := get_subject_iterations subjects in
  scores <- holdout_loop assembly subjects iterate_subjects [] ;;
  merged <- Score_merge scores ;;
  let scores := fst merged in
  let error_ := Np.std (map center scores) in
  (* apply_aggregate: the mean over the subject axis of both aggregation rows *)
  let aggregated :=
    {| center := Np.mean (map center scores);
       error := Np.mean (map error scores);
       score_dims := remove_string (subject_column self)
                       (match scores with s :: _ => score_dims s | [] => [] end);
       score_coords := [];
       raw := snd merged |} in
  (* scores.loc[{'aggregation': 'error'}] = error *)
  Ok {| center := center aggregated;
        error := error_;
        score_dims := score_dims aggregated;
        score_coords := score_coords aggregated;
        raw := raw aggregated |}.

(** [ExtrapolationCeiling.build_subject_subsamples]:
    [tuple(range(2, len(subjects) + 1))]. *)
Definition build_subject_subsamples (subjects : list string) : list nat :=
  seq 2 (length subjects + 1 - 2).

(** [ExtrapolationCeiling.iterate_subsets]: the selection descriptor and
    the filtered assembly of every combination. *)
Definition iterate_subsets (assembly : Assembly) (num_subjects : nat)
  : list (list (string * list string) * Assembly) :=
  let subjects := py_set (subject_values assembly) in
  let subject_combinations := combinations subjects num_subjects in
  map (fun sub_subjects =>
         ([(subject_column self, sub_subjects)],
          select_neuroids (fun n => mem (neuroid_subject n) sub_subjects) assembly))
      subject_combinations.

(** The tagging of one holdout score inside [collect]: [num_subjects] and
    one [sub_<key>] axis per selection key. *)
Definition tag_score (num_subjects : nat) (selections : list (string * list string))
  (s : Score) : Score :=
  fold_left
    (fun s' (kv : string * list string) =>
       expand_dims ("sub_" ++ fst kv)%string (LStr (str_tuple (snd kv))) true s')
    selections
    (expand_dims "num_subjects" (LNat num_subjects) true s).

(** The body of [collect]'s inner loop: [Ok (Some raw)] is appended,
    [Ok None] is the [continue] of the ['z'] handler. *)
Definition collect_selection (num_subjects : nat)
  (selection : list (string * list string) * Assembly) : result (option RawScores) :=
  match holdout_ceiling (snd selection) with
  | Ok s => Ok (Some (raw (tag_score num_subjects (fst selection) s)))
  | Raise (KeyError k) =>
      if String.eqb (str (KeyError k)) "'z'" then Ok None else Raise (KeyError k)
  | Raise e => Raise e
  end.

Fixpoint collect_selections (num_subjects : nat)
  (selection_combinations : list (list (string * list string) * Assembly))
  (scores : list RawScores) : result (list RawScores) :=
  match selection_combinations with
  | [] => Ok scores
  | selection :: rest =>
      r <- collect_selection num_subjects selection ;;
      collect_selections num_subjects rest
        (match r with Some s => scores ++ [s] | None => scores end)
  end.

Fixpoint collect_loop (assembly : Assembly) (subject_subsamples : list nat)
  (scores : list RawScores) : result (list RawScores) :=
  match subject_subsamples with
  | [] => Ok scores
  | num_subjects :: rest =>
      scores' <- collect_selections num_subjects
                   (iterate_subsets assembly num_subjects) scores ;;
      collect_loop assembly rest scores'
  end.

(** [ExtrapolationCeiling.post_process]. *)
Definition post_process (scores : list RawScores) : result (list RawScores) :=
  match _post_process self with
  | Some hook => hook scores
  | None => Ok scores
  end.

(** The entries [collect] has accumulated when its loops end. *)
Definition collected (assembly : Assembly) : result (list RawScores) :=
  let subjects := py_set (subject_values assembly) in
  let subject_subsamples := build_subject_subsamples subjects in
  collect_loop assembly subject_subsamples [].

(** [ExtrapolationCeiling.collect] (the result cache of the [store]
    decorator is left out). *)
Definition collect (assembly : Assembly) : result (list RawScores) :=
  scores <- collected assembly ;;
  scores <- merge_data_arrays scores ;;
  post_process scores.

End Collect.

(* ------------------------------------------------------------------ *)
(** * [ExtrapolationCeiling.extrapolate] *)

(** The collected table of one measurement unit, [ceilings.isel(neuroid=[i])]:
    the coordinates of the unit on the [neuroid] axis, the coordinate values of
    the [num_subjects] and [sub_<subject_column>] axes, and the cells
    [cells[num_subjects][sub_subject][split]], NaN where a subset does not
    belong to a subsample size. *)
Record NeuroidCeilings : Type := mkNeuroidCeilings
  { neuroid_meta : list (string * label);
    num_subjects_values : list nat;
    sub_subject_values : list string;
    cells : list (list (list (option R))) }.

(** The length of the [split] axis. *)
Definition split_size (ceilings : NeuroidCeilings) : nat :=
  match cells ceilings with
  | (row :: _) :: _ => length row
  | _ => 0
  end.

(** A score with its attributes [raw], [bootstrapped_params] and
    [endpoint_x]. *)
Record Ceiling (Raw : Type) : Type := mkCeiling
  { ceiling_score : DataAssembly;
    ceiling_raw : Raw;
    bootstrapped_params : DataAssembly;
    endpoint_x : DataAssembly }.

Fixpoint insert_nat (x : nat) (l : list nat) : list nat :=
  match l with
  | [] => [x]
  | y :: l' => if Nat.leb x y then x :: y :: l' else y :: insert_nat x l'
  end.

(** [sorted(...)] on integers. *)
Fixpoint sorted (l : list nat) : list nat :=
  match l with
  | [] => []
  | x :: l' => insert_nat x (sorted l')
  end.

Fixpoint index_of_nat (x : nat) (l : list nat) : nat :=
  match l with
  | [] => 0
  | y :: l' => if Nat.eqb y x then 0 else S (index_of_nat x l')
  end.

(** [list(sorted(set(ceilings['num_subjects'].values)))] on the squeezed
    table.  [squeeze()] drops every axis of length one: with a single
    subsample size the coordinate is zero-dimensional and cannot be
    iterated. *)
Definition subject_subsamples_of (ceilings : NeuroidCeilings) : result (list nat) :=
  if Nat.eqb (length (num_subjects_values ceilings)) 1
  then Raise (TypeError "iteration over a 0-d array")
  else Ok (sorted (nodup Nat.eq_dec (num_subjects_values ceilings))).

Definition has_nan (row : list (option R)) : bool :=
  existsb (fun c => match c with None => true | Some _ => false end) row.

(** [num_scores.dropna(dim)]: the entries along [dim] with a NaN are
    dropped. *)
Definition dropna (rows : list (list (option R))) : list (list (option R)) :=
  filter (fun row => negb (has_nan row)) rows.

(** [num_scores.values.flatten()]. *)
Definition flatten (rows : list (list (option R))) : list R :=
  flat_map Np.dropnan rows.

(** The choices of one subsample size: [sel], [dropna], the assertion on the
    axes and [flatten].  On the squeezed table a subset axis of length one
    is gone, so [dropna] raises, and a split axis of length one is gone, so
    the assertion fails. *)
Definition level_choices (ceilings : NeuroidCeilings) (num_subjects : nat)
  : result (list R) :=
  let num_scores :=
    nth (index_of_nat num_subjects (num_subjects_values ceilings)) (cells ceilings) [] in
  if Nat.eqb (length (sub_subject_values ceilings)) 1
  then Raise (ValueError "dimension must be a single dataset dimension")
  else
    let num_scores := dropna num_scores in
    if Nat.eqb (split_size ceilings) 1
    then Raise AssertionError
    else Ok (flatten num_scores).

(** [np.mean] of a drawn sample; the mean of an empty array is NaN. *)
Definition mean_or_nan (l : list R) : option R :=
  match l with
  | [] => None
  | _ => Some (Np.mean l)
  end.

(** [np.median(ys, axis=0)]: the median of every column. *)
Definition column (ys : list (list R)) (j : nat) : list R :=
  map (fun row => nth j row 0) ys.

Definition median_axis0 (ys : list (list R)) : list R :=
  match ys with
  | [] => []
  | row :: _ => map (fun j => Np.median (column ys j)) (seq 0 (length row))
  end.

Definition asymptote_threshold : R := 5 / 10000.

(** [np.arange(1000)]. *)
Definition interpolation_xs : list nat := seq 0 1000.

(** The [Score] of one unit: [[center] + list(error)] on the [aggregation]
    axis. *)
Definition aggregation_score (center_ : R) (error_ : R * R) : DataAssembly :=
  {| values := Array (map Scalar (center_ :: [fst error_; snd error_]));
     dims := ["aggregation"%string];
     coords := [ {| coord_name := "aggregation";
                    coord_dims := ["aggregation"%string];
                    coord_values := [LStr "center"; LStr "error_low"; LStr "error_high"] |} ] |}.

(** The merged bootstrap parameters: one row [[v0, tau0]] per fitted round. *)
Definition params_assembly (bootstrap_params : list (nat * (R * R))) : DataAssembly :=
  {| values := Array (map (fun p => Array [Scalar (fst (snd p)); Scalar (snd (snd p))])
                          bootstrap_params);
     dims := ["bootstrap"%string; "param"%string];
     coords := [ {| coord_name := "bootstrap";
                    coord_dims := ["bootstrap"%string];
                    coord_values := map (fun p => LNat (fst p)) bootstrap_params |};
                 {| coord_name := "param";
                    coord_dims := ["param"%string];
                    coord_values := [LStr "v0"; LStr "tau0"] |} ] |}.

(** [DataAssembly(end_x)]: a zero-dimensional array. *)
Definition scalar_assembly (x : R) : DataAssembly :=
  {| values := Scalar x; dims := []; coords := [] |}.

(** The curves of the fitted rounds on the grid: [ys[round][x]]. *)
Definition curves (bootstrap_params : list (nat * (R * R))) : list (list R) :=
  map (fun params =>
         map (fun x => v (INR x) (fst (snd params)) (snd (snd params))) interpolation_xs)
      bootstrap_params.

(** The second half of [extrapolate_neuroid], from [merge_data_arrays] on:
    endpoint, center, error and the packaged score. *)
Definition endpoint_and_error (ceilings : NeuroidCeilings)
  (bootstrap_params : list (nat * (R * R))) : result (Ceiling NeuroidCeilings) :=
  bootstrap_params <- merge_data_arrays bootstrap_params ;;
  let ys := curves bootstrap_params in
  let median_ys := median_axis0 ys in
  let diffs := Np.diff median_ys in
  end_x <- Np.min (Np.where_ (map (fun d => Np.Rltb d asymptote_threshold) diffs)) ;;
  let center_ := Np.median (map (fun p => fst (snd p)) bootstrap_params) in
  let error_ := ci_error (map Some (column ys end_x)) center_ default_confidence in
  Ok {| ceiling_score := aggregation_score center_ error_;
        ceiling_raw := ceilings;
        bootstrapped_params := params_assembly bootstrap_params;
        endpoint_x := scalar_assembly (INR end_x) |}.

Section Extrapolate.

(** numpy's generator: its state, [RandomState(seed)], and
    [rng.choice(a, size=size, replace=True)], which returns the sample and
    the advanced state. *)
Variable rng_state : Type.
Variable RandomState : nat -> rng_state.
Variable choice : rng_state -> list R -> nat -> list R * rng_state.

(** scipy's [curve_fit(v, xdata, ydata, bounds=([0, -inf], [1, inf]))],
    reduced to the fitted [(v0, tau0)]; it raises [RuntimeError] when the
    optimal parameters are not found. *)
Variable curve_fit : list R -> list (option R) -> result (R * R).

Variable self : ExtrapolationCeiling.

(** [ExtrapolationCeiling.fit]. *)
Definition fit (subject_subsamples : list nat) (bootstrapped_scores : list (option R))
  : result (R * R) :=
  curve_fit (map INR subject_subsamples) bootstrapped_scores.

(** The inner loop of one bootstrap round: one resampled mean per subsample
    size, the generator threaded through the draws. *)
Fixpoint bootstrap_scores (ceilings : NeuroidCeilings) (subject_subsamples : list nat)
  (rng : rng_state) (bootstrapped_scores : list (option R))
  : result (list (option R) * rng_state) :=
  match subject_subsamples with
  | [] => Ok (bootstrapped_scores, rng)
  | num_subjects :: rest =>
      choices <- level_choices ceilings num_subjects ;;
      let drawn := choice rng choices (length choices) in
      bootstrap_scores ceilings rest (snd drawn)
        (bootstrapped_scores ++ [mean_or_nan (fst drawn)])
  end.

(** The loop over bootstrap rounds: a round whose fit raises [RuntimeError]
    is left out, any other exception ends the loop. *)
Fixpoint bootstrap_rounds (ceilings : NeuroidCeilings) (subject_subsamples : list nat)
  (rounds : list nat) (rng : rng_state) (bootstrap_params : list (nat * (R * R)))
  : result (list (nat * (R * R)) * rng_state) :=
  match rounds with
  | [] => Ok (bootstrap_params, rng)
  | bootstrap :: rest =>
      st <- bootstrap_scores ceilings subject_subsamples rng [] ;;
      match fit subject_subsamples (fst st) with
      | Ok params =>
          bootstrap_rounds ceilings subject_subsamples rest (snd st)
            (bootstrap_params ++ [(bootstrap, params)])
      | Raise (RuntimeError _) =>
          bootstrap_rounds ceilings subject_subsamples rest (snd st) bootstrap_params
      | Raise e => Raise e
      end
  end.

(** The first half of [extrapolate_neuroid], run from a given generator
    state: the parameters of the rounds whose fit succeeded. *)
Definition bootstrap_from (rng : rng_state) (ceilings : NeuroidCeilings)
  : result (list (nat * (R * R)) * rng_state) :=
  subject_subsamples <- subject_subsamples_of ceilings ;;
  bootstrap_rounds ceilings subject_subsamples (seq 0 (num_bootstraps self)) rng [].

(** [ExtrapolationCeiling.extrapolate_neuroid], on the squeezed table of one
    unit. *)
Definition extrapolate_neuroid (ceilings : NeuroidCeilings)
  : result (Ceiling NeuroidCeilings) :=
  let rng := RandomState 0 in
  st <- bootstrap_from rng ceilings ;;
  endpoint_and_error ceilings (fst st).

(** [target[coord] = dims, values]. *)
Definition set_coord (target : DataAssembly) (c : coord) : DataAssembly :=
  {| values := values target;
     dims := dims target;
     coords := filter (fun c' => negb (String.eqb (coord_name c') (coord_name c)))
                      (coords target) ++ [c] |}.

(** [walk_coords(neuroid_ceiling)] on the table of one unit. *)
Definition ceilings_coords (source : NeuroidCeilings) : list coord :=
  map (fun kv => {| coord_name := fst kv;
                    coord_dims := ["neuroid"%string];
                    coord_values := [snd kv] |}) (neuroid_meta source)
  ++ [ {| coord_name := "num_subjects";
          coord_dims := ["num_subjects"%string];
          coord_values := map LNat (num_subjects_values source) |};
       {| coord_name := ("sub_" ++ subject_column self)%string;
          coord_dims := [("sub_" ++ subject_column self)%string];
          coord_values := map LStr (sub_subject_values source) |} ].

(** [ExtrapolationCeiling.add_neuroid_meta]. *)
Definition add_neuroid_meta (target : DataAssembly) (source : NeuroidCeilings)
  : DataAssembly :=
  let target := {| values := Array [values target];
                   dims := "neuroid"%string :: dims target;
                   coords := coords target |} in
  fold_left (fun t c => if array_is_element (coord_dims c) "neuroid"
                        then set_coord t c else t)
            (ceilings_coords source) target.

(** The three lists [extrapolate] fills. *)
Record Extrapolated : Type := mkExtrapolated
  { neuroid_ceilings : list DataAssembly;
    bootstrap_params_list : list DataAssembly;
    endpoint_xs : list DataAssembly }.

(** The loop over units: a unit whose extrapolation raises [KeyError] is
    left out, any other exception ends the loop. *)
Fixpoint extrapolate_loop (ceilings : list NeuroidCeilings) (acc : Extrapolated)
  : result Extrapolated :=
  match ceilings with
  | [] => Ok acc
  | neuroid_ceiling :: rest =>
      match extrapolate_neuroid neuroid_ceiling with
      | Ok extrapolated_ceiling =>
          extrapolate_loop rest
            {| neuroid_ceilings :=
                 neuroid_ceilings acc
                 ++ [add_neuroid_meta (ceiling_score extrapolated_ceiling) neuroid_ceiling];
               bootstrap_params_list :=
                 bootstrap_params_list acc
                 ++ [add_neuroid_meta (bootstrapped_params extrapolated_ceiling)
                                      neuroid_ceiling];
               endpoint_xs :=
                 endpoint_xs acc
                 ++ [add_neuroid_meta (endpoint_x extrapolated_ceiling) neuroid_ceiling] |}
      | Raise (KeyError _) => extrapolate_loop rest acc
      | Raise e => Raise e
      end
  end.

Definition scalar_value (a : ndarray) : R :=
  match a with Scalar x => x | Array _ => 0 end.

(** The median over the leading axis of arrays of the given rank. *)
Fixpoint median_items (rank : nat) (items : list ndarray) : ndarray :=
  match rank with
  | O => Scalar (Np.median (map scalar_value items))
  | S rank' => Array (map (median_items rank') (zip_items (map items_of items)))
  end.

Fixpoint median_axis (axis rank : nat) (a : ndarray) : ndarray :=
  match axis with
  | O => median_items (rank - 1) (items_of a)
  | S axis' => Array (map (median_axis axis' (rank - 1)) (items_of a))
  end.

(** [assembly.median(dim)]. *)
Definition median_dim (a : DataAssembly) (dim : string) : result DataAssembly :=
  match index_of dim (dims a) with
  | None => Raise (ValueError "dimension not found")
  | Some axis =>
      Ok {| values := median_axis axis (length (dims a)) (values a);
            dims := remove_string dim (dims a);
            coords := filter (fun c => negb (mem dim (coord_dims c))) (coords a) |}
  end.

(** [ExtrapolationCeiling.aggregate_neuroid_ceilings]. *)
Definition aggregate_neuroid_ceilings (neuroid_ceilings_ : Ceiling (list NeuroidCeilings))
  : result (Ceiling (Ceiling (list NeuroidCeilings))) :=
  ceiling <- median_dim (ceiling_score neuroid_ceilings_) "neuroid" ;;
  params <- median_dim (bootstrapped_params neuroid_ceilings_) "neuroid" ;;
  endpoint <- median_dim (endpoint_x neuroid_ceilings_) "neuroid" ;;
  Ok {| ceiling_score := ceiling;
        ceiling_raw := neuroid_ceilings_;
        bootstrapped_params := params;
        endpoint_x := endpoint |}.

(** [ExtrapolationCeiling.extrapolate]; [ceilings] is the collected table as
    the sequence of its units along the [neuroid] axis. *)
Definition extrapolate (ceilings : list NeuroidCeilings)
  : result (Ceiling (Ceiling (list NeuroidCeilings))) :=
  acc <- extrapolate_loop ceilings
           {| neuroid_ceilings := []; bootstrap_params_list := []; endpoint_xs := [] |} ;;
  neuroid_ceilings_ <- merge (neuroid_ceilings acc) "neuroid" ;;
  bootstrap_params <- merge (bootstrap_params_list acc) "neuroid" ;;
  endpoint_xs_ <- merge (endpoint_xs acc) "neuroid" ;;
  aggregate_neuroid_ceilings
    {| ceiling_score := neuroid_ceilings_;
       ceiling_raw := ceilings;
       bootstrapped_params := bootstrap_params;
       endpoint_x := endpoint_xs_ |}.

End Extrapolate.

(* ------------------------------------------------------------------ *)
(** * The generator object of [extrapolate_neuroid] *)

(** [l[i] = x], on a position of the list. *)
Fixpoint set_nth {A : Type} (i : nat) (x : A) (l : list A) : list A :=
  match l, i with
  | [], _ => []
  | _ :: l', O => x :: l'
  | y :: l', S i' => y :: set_nth i' x l'
  end.

Section Generators.

Variable rng_state : Type.
Variable RandomState : nat -> rng_state.
Variable choice : rng_state -> list R -> nat -> list R * rng_state.
Variable curve_fit : list R -> list (option R) -> result (R * R).
Variable self : ExtrapolationCeiling.

(** The interpreter process, as far as random numbers go: the state of
    numpy's module-level generator (the ambient randomness of
    [np.random.choice] and the like), the [RandomState] objects constructed
    so far, a reference being a position in that list, and the samples drawn
    so far, in order. *)
Record Process : Type := mkProcess
  { ambient : rng_state;
    generators : list rng_state;
    drawn : list (list R) }.

(** [RandomState(seed)]: a new generator object. *)
Definition new_RandomState (seed : nat) (p : Process) : nat * Process :=
  (length (generators p),
   {| ambient := ambient p;
      generators := generators p ++ [RandomState seed];
      drawn := drawn p |}).

(** [rng.choice(a, size=size, replace=True)]: the sample comes from the
    object [rng] refers to, and that object is advanced in place. *)
Definition rng_choice (rng : nat) (a : list R) (size : nat) (p : Process)
  : list R * Process :=
  match nth_error (generators p) rng with
  | Some state =>
      let d := choice state a size in
      (fst d,
       {| ambient := ambient p;
          generators := set_nth rng (snd d) (generators p);
          drawn := drawn p ++ [fst d] |})
  | None => ([], p)
  end.

(** The inner loop of one bootstrap round, drawing from the object [rng]. *)
Fixpoint bootstrap_scores_in (ceilings : NeuroidCeilings) (subject_subsamples : list nat)
  (rng : nat) (bootstrapped_scores : list (option R)) (p : Process)
  : result (list (option R)) * Process :=
  match subject_subsamples with
  | [] => (Ok bootstrapped_scores, p)
  | num_subjects :: rest =>
      match level_choices ceilings num_subjects with
      | Raise e => (Raise e, p)
      | Ok choices =>
          let d := rng_choice rng choices (length choices) p in
          bootstrap_scores_in ceilings rest rng
            (bootstrapped_scores ++ [mean_or_nan (fst d)]) (snd d)
      end
  end.

(** The loop over bootstrap rounds, drawing from the object [rng]. *)
Fixpoint bootstrap_rounds_in (ceilings : NeuroidCeilings) (subject_subsamples : list nat)
  (rounds : list nat) (rng : nat) (bootstrap_params : list (nat * (R * R)))
  (p : Process) : result (list (nat * (R * R))) * Process :=
  match rounds with
  | [] => (Ok bootstrap_params, p)
  | bootstrap :: rest =>
      let st := bootstrap_scores_in ceilings subject_subsamples rng [] p in
      match fst st with
      | Raise e => (Raise e, snd st)
      | Ok bootstrapped_scores =>
          match fit curve_fit subject_subsamples bootstrapped_scores with
          | Ok params =>
              bootstrap_rounds_in ceilings subject_subsamples rest rng
                (bootstrap_params ++ [(bootstrap, params)]) (snd st)
          | Raise (RuntimeError _) =>
              bootstrap_rounds_in ceilings subject_subsamples rest rng
                bootstrap_params (snd st)
          | Raise e => (Raise e, snd st)
          end
      end
  end.

(** [ExtrapolationCeiling.extrapolate_neuroid] run in a process: the
    subsample sizes are read, [rng = RandomState(0)] is constructed, the
    rounds draw from it, and the endpoint and error are computed. *)
Definition extrapolate_neuroid_in (ceilings : NeuroidCeilings) (p : Process)
  : result (Ceiling NeuroidCeilings) * Process :=
  match subject_subsamples_of ceilings with
  | Raise e => (Raise e, p)
  | Ok subject_subsamples =>
      let rng := new_RandomState 0 p in
      let st := bootstrap_rounds_in ceilings subject_subsamples
                  (seq 0 (num_bootstraps self)) (fst rng) [] (snd rng) in
      match fst st with
      | Raise e => (Raise e, snd st)
      | Ok bootstrap_params => (endpoint_and_error ceilings bootstrap_params, snd st)
      end
  end.

End Generators.

(* ------------------------------------------------------------------ *)
(** * Vocabulary of the statements *)

(** [score.sel(aggregation=name)] on a one-dimensional score. *)
Definition sel_aggregation (a : DataAssembly) (name : string) : R :=
  match coords a with
  | c :: _ =>
      let fix find (labels : list label) (items : list ndarray) : R :=
        match labels, items with
        | l :: labels', x :: items' =>
            if label_eqb l (LStr name) then scalar_value x else find labels' items'
        | _, _ => 0
        end in
      find (coord_values c) (items_of (values a))
  | [] => 0
  end.

(** The fitted curve of one bootstrap round at grid point [x]. *)
Definition curve_at (x : nat) (params : nat * (R * R)) : R :=
  v (INR x) (fst (snd params)) (snd (snd params)).

(** The median, across bootstrap rounds, of the fitted curves at [x]. *)
Definition median_curve (bootstrap_params : list (nat * (R * R))) (x : nat) : R :=
  Np.median (map (curve_at x) bootstrap_params).

(** The forward difference of the median curve at [x]. *)
Definition forward_difference (bootstrap_params : list (nat * (R * R))) (x : nat) : R :=
  median_curve bootstrap_params (S x) - median_curve bootstrap_params x.

(** [x] is the first grid point whose forward difference is below the
    threshold. *)
Definition first_flat (bootstrap_params : list (nat * (R * R))) (x : nat) : Prop :=
  (x < 999)%nat
  /\ forward_difference bootstrap_params x < asymptote_threshold
  /\ forall y, (y < x)%nat ->
       ~ forward_difference bootstrap_params y < asymptote_threshold.

(** The score [extrapolate_neuroid] packages once the endpoint is [end_x]. *)
Definition packaged (ceilings : NeuroidCeilings)
  (bootstrap_params : list (nat * (R * R))) (end_x : nat) : Ceiling NeuroidCeilings :=
  let center_ := Np.median (map (fun p => fst (snd p)) bootstrap_params) in
  {| ceiling_score :=
       aggregation_score center_
         (ci_error (map Some (map (curve_at end_x) bootstrap_params))
                   center_ default_confidence);
     ceiling_raw := ceilings;
     bootstrapped_params := params_assembly bootstrap_params;
     endpoint_x := scalar_assembly (INR end_x) |}.

(** The arrays of an extrapolated ceiling: everything but the raw table it
    was computed from. *)
Definition arrays_of {Raw : Type} (c : Ceiling Raw)
  : DataAssembly * DataAssembly * DataAssembly :=
  (ceiling_score c, bootstrapped_params c, endpoint_x c).

(** Two outcomes of [extrapolate] agree: the same exception, or the same
    aggregate and the same merged per-unit arrays. *)
Definition same_outcome
  (r1 r2 : result (Ceiling (Ceiling (list NeuroidCeilings)))) : Prop :=
  match r1, r2 with
  | Ok c1, Ok c2 =>
      arrays_of c1 = arrays_of c2
      /\ arrays_of (ceiling_raw c1) = arrays_of (ceiling_raw c2)
  | Raise e1, Raise e2 => e1 = e2
  | _, _ => False
  end.

(** The exceptions the per-unit handler of [extrapolate] swallows. *)
Definition is_KeyError (e : exn) : bool :=
  match e with KeyError _ => true | _ => false end.

(** [s] keeps some of the entries of [l], in their order. *)
Inductive subsequence : list string -> list string -> Prop :=
| subsequence_nil : subsequence [] []
| subsequence_take (x : string) (s l : list string) :
    subsequence s l -> subsequence (x :: s) (x :: l)
| subsequence_drop (x : string) (s l : list string) :
    subsequence s l -> subsequence s (x :: l).

(** The subject subsets [iterate_subsets] yields for one subsample size. *)
Definition selected_subsets (self : ExtrapolationCeiling) (assembly : Assembly)
  (num_subjects : nat) : list (list string) :=
  flat_map (fun selection => map snd (fst selection))
           (iterate_subsets self assembly num_subjects).

(** [subsets] are all the [k]-element subsets of [subjects]: as many as
    [C(N, k)], each with [k] distinct subjects, pairwise different as sets,
    and every subject in the same number of them. *)
Definition enumerates_all_subsets (subjects : list string) (k : nat)
  (subsets : list (list string)) : Prop :=
  length subsets = binomial (length subjects) k
  /\ (binomial (length subjects) k * fact k * fact (length subjects - k)
      = fact (length subjects))%nat
  /\ (forall s, In s subsets -> length s = k /\ NoDup s /\ incl s subjects)
  /\ (forall i j, (i < j < length subsets)%nat ->
                  ~ same_members (nth i subsets []) (nth j subsets []))
  /\ (forall a b, In a subjects -> In b subjects ->
                  occurrences a subsets = occurrences b subsets).

(** The exceptions the two handlers of [HoldoutSubjectCeiling.__call__]
    swallow: a [NoOverlapException], and a [ValueError] whose message
    contains ["Found array with"]. *)
Definition swallowed (e : exn) : bool :=
  match e with
  | NoOverlapException _ => true
  | ValueError m => contains "Found array with" m
  | _ => false
  end.

(** The partitions of the pool for one held-out subject. *)
Definition heldout_of (assembly : Assembly) (subject : string) : Assembly :=
  select_neuroids (fun n => String.eqb (neuroid_subject n) subject) assembly.

Definition pool_of (assembly : Assembly) (subjects : list string) (subject : string)
  : Assembly :=
  select_neuroids
    (fun n => mem (neuroid_subject n) (remove_string subject subjects)) assembly.

(** The scores of the subjects that yield one, in iteration order. *)
Definition usable_scores (metric : Assembly -> Assembly -> result Score)
  (self : ExtrapolationCeiling) (assembly : Assembly)
  (subjects iterate_subjects : list string) : list Score :=
  flat_map (fun subject =>
              match holdout_subject metric self assembly subjects subject with
              | Ok (Some s) => [s]
              | _ => []
              end) iterate_subjects.



(** The buffer [a] is nested at least [n + 1] axes deep: it can be
    concatenated along axis [n]. *)
Fixpoint has_axes (n : nat) (a : ndarray) : Prop :=
  match a with
  | Scalar _ => False
  | Array items =>
      match n with
      | O => True
      | S n' => Forall (has_axes n') items
      end
  end.

(** The coordinate names the per-unit arrays of [extrapolate] use
    themselves. *)
Definition reserved_names : list string :=
  ["aggregation"%string; "bootstrap"%string; "param"%string].

(** The coordinates of a unit on the [neuroid] axis have distinct names,
    none of them reserved. *)
Definition tidy_meta (u : NeuroidCeilings) : Prop :=
  NoDup (map fst (neuroid_meta u))
  /\ forall name, In name (map fst (neuroid_meta u)) -> ~ In name reserved_names.

(** The coordinates of a unit on the [neuroid] axis, as [add_neuroid_meta]
    attaches them. *)
Definition meta_coords (u : NeuroidCeilings) : list coord :=
  map (fun kv => {| coord_name := fst kv;
                    coord_dims := ["neuroid"%string];
                    coord_values := [snd kv] |}) (neuroid_meta u).

(** An array with a leading [neuroid] axis of length one. *)
Definition unit_element (x : ndarray) (ds : list string) (base meta : list coord)
  : DataAssembly :=
  {| values := Array [x]; dims := "neuroid"%string :: ds; coords := base ++ meta |}.

(** The bootstrap rounds whose fit succeeded, as recorded on a score. *)
Definition fitted_rounds {Raw : Type} (r : Ceiling Raw) : list label :=
  match coords (bootstrapped_params r) with
  | c :: _ => coord_values c
  | [] => []
  end.

(** The endpoint recorded on a score. *)
Definition endpoint_value {Raw : Type} (r : Ceiling Raw) : R :=
  scalar_value (values (endpoint_x r)).

(** The coordinates of a merged array: those of the first element off the
    merge axis, then those on it with the values of all elements. *)
Definition merged_coords (elements : list DataAssembly) (on : string) : list coord :=
  match elements with
  | [] => []
  | first :: _ =>
      filter (fun c => negb (array_is_element (coord_dims c) on)) (walk_coords first)
      ++ map (fun c =>
                {| coord_name := coord_name c;
                   coord_dims := coord_dims c;
                   coord_values :=
                     flat_map
                       (fun element =>
                          flat_map coord_values
                            (filter (fun c' => String.eqb (coord_name c') (coord_name c))
                                    (coords element)))
                       elements |})
             (filter (fun c => array_is_element (coord_dims c) on) (walk_coords first))
  end.

(** A coordinate that lives on one axis other than [neuroid]. *)
Definition off_neuroid (c : coord) : Prop :=
  exists d, coord_dims c = [d] /\ d <> "neuroid"%string.

(** The units [extrapolate] keeps, each with its extrapolated score. *)
Definition extrapolated_units (rng_state : Type) (RandomState : nat -> rng_state)
  (choice : rng_state -> list R -> nat -> list R * rng_state)
  (curve_fit : list R -> list (option R) -> result (R * R))
  (self : ExtrapolationCeiling) (ceilings : list NeuroidCeilings)
  : list (NeuroidCeilings * Ceiling NeuroidCeilings) :=
  flat_map (fun u =>
              match extrapolate_neuroid RandomState choice curve_fit self u with
              | Ok r => [(u, r)]
              | Raise _ => []
              end) ceilings.

(** The number of entries of [l] that are at most [t]. *)
Definition count_le (t : R) (l : list R) : nat :=
  length (filter (fun x => Np.Rleb x t) l).

(** The entries of [l] are in ascending order. *)
Fixpoint ascending (l : list R) : Prop :=
  match l with
  | [] => True
  | x :: l' => (forall y, In y l' -> x <= y) /\ ascending l'
  end.

(** The curve of the specification, [v0 * (1 - e^(-x / tau0))]. *)
Definition stated_curve (v0 tau0 x : R) : R := v0 * (1 - exp (- x / tau0)).

(** The forward difference at grid point [x] of the per-x median, across
    the fitted rounds, of the curves of the specification. *)
Definition stated_difference (bootstrap_params : list (nat * (R * R))) (x : nat) : R :=
  Np.median (map (fun p => stated_curve (fst (snd p)) (snd (snd p)) (INR (S x)))
                 bootstrap_params)
  - Np.median (map (fun p => stated_curve (fst (snd p)) (snd (snd p)) (INR x))
                   bootstrap_params).

(** The scores each bootstrap round hands to the fit, in the order of the
    rounds: the generator is threaded through every round, whether its fit
    succeeds or not. *)
Fixpoint round_scores {rng_state : Type}
  (choice : rng_state -> list R -> nat -> list R * rng_state)
  (ceilings : NeuroidCeilings) (subject_subsamples : list nat) (rounds : list nat)
  (rng : rng_state) : result (list (list (option R))) :=
  match rounds with
  | [] => Ok []
  | _ :: rest =>
      st <- bootstrap_scores choice ceilings subject_subsamples rng [] ;;
      later <- round_scores choice ceilings subject_subsamples rest (snd st) ;;
      Ok (fst st :: later)
  end.

(** The samples a generator yields for successive requests, one sample of
    the size of each request, and the state it is left in. *)
Fixpoint seeded_draws {rng_state : Type}
  (choice : rng_state -> list R -> nat -> list R * rng_state)
  (rng : rng_state) (requests : list (list R)) : list (list R) * rng_state :=
  match requests with
  | [] => ([], rng)
  | a :: rest =>
      let d := choice rng a (length a) in
      let later := seeded_draws choice (snd d) rest in
      (fst d :: fst later, snd later)
  end.

(** The arrays one bootstrap round draws from: the choices of every
    subsample size. *)
Definition round_requests (ceilings : NeuroidCeilings) (subject_subsamples : list nat)
  : list (list R) :=
  flat_map (fun num_subjects =>
              match level_choices ceilings num_subjects with
              | Ok choices => [choices]
              | Raise _ => []
              end) subject_subsamples.

(** The process after the object [rng] has moved to [state] and the samples
    [samples] have been drawn. *)
Definition advanced {rng_state : Type} (p : Process rng_state) (rng : nat)
  (state : rng_state) (samples : list (list R)) : Process rng_state :=
  {| ambient := ambient p;
     generators := set_nth rng state (generators p);
     drawn := drawn p ++ samples |}.

(** A job without its generator state. *)
Definition outcome {A S : Type} (r : result (A * S)) : result A :=
  match r with
  | Ok (a, _) => Ok a
  | Raise e => Raise e
  end.

(* ------------------------------------------------------------------ *)
(** * Concrete collaborators and tables *)

Module Example.

Definition self : ExtrapolationCeiling :=
  {| subject_column := "subject"; num_bootstraps := 1; _post_process := None |}.

(** A generator whose state counts the draws and whose [choice] returns the
    first [size] entries. *)
Definition RandomState (seed : nat) : nat := seed.

Definition choice (rng : nat) (a : list R) (size : nat) : list R * nat :=
  (firstn size a, S rng).

(** A fit that always converges to a curve that is flat from the start. *)
Definition fit_flat (xdata : list R) (ydata : list (option R)) : result (R * R) :=
  Ok (1 / 10000, 1).

(** A fit that never converges. *)
Definition fit_never (xdata : list R) (ydata : list (option R)) : result (R * R) :=
  Raise (RuntimeError "Optimal parameters not found").

(** A fit that converges only from three subsample sizes on. *)
Definition fit_three_sizes (xdata : list R) (ydata : list (option R))
  : result (R * R) :=
  if Nat.ltb (length xdata) 3
  then Raise (RuntimeError "Optimal parameters not found")
  else Ok (1 / 10000, 1).

(** A fit whose curve still grows by more than the threshold at the end of
    the grid. *)
Definition fit_steep (xdata : list R) (ydata : list (option R)) : result (R * R) :=
  Ok (3, 1000).

Definition nan_row : list (option R) := [None; None].

(** The table of a unit recorded in two subjects: one subsample size, one
    subset. *)
Definition two_subjects : NeuroidCeilings :=
  {| neuroid_meta := [("neuroid_id"%string, LNat 0)];
     num_subjects_values := [2%nat];
     sub_subject_values := ["('A', 'B')"%string];
     cells := [ [ [Some (1 / 10); Some (2 / 10)] ] ] |}.

(** The table of a unit recorded in three subjects: sizes 2 and 3, two
    splits. *)
Definition three_subjects : NeuroidCeilings :=
  {| neuroid_meta := [("neuroid_id"%string, LNat 1)];
     num_subjects_values := [2%nat; 3%nat];
     sub_subject_values :=
       ["('A', 'B')"%string; "('A', 'C')"%string; "('B', 'C')"%string;
        "('A', 'B', 'C')"%string];
     cells :=
       [ [ [Some (1 / 10); Some (2 / 10)]; [Some (2 / 10); Some (2 / 10)];
           [Some (1 / 10); Some (3 / 10)]; nan_row ];
         [ nan_row; nan_row; nan_row; [Some (3 / 10); Some (4 / 10)] ] ] |}.

(** The table of a unit recorded in four subjects, with two of the subsets
    of each size. *)
Definition four_subjects : NeuroidCeilings :=
  {| neuroid_meta := [("neuroid_id"%string, LNat 2)];
     num_subjects_values := [2%nat; 3%nat; 4%nat];
     sub_subject_values :=
       ["('A', 'B')"%string; "('C', 'D')"%string;
        "('A', 'B', 'C')"%string; "('B', 'C', 'D')"%string;
        "('A', 'B', 'C', 'D')"%string];
     cells :=
       [ [ [Some (1 / 10); Some (2 / 10)]; [Some (2 / 10); Some (2 / 10)];
           nan_row; nan_row; nan_row ];
         [ nan_row; nan_row;
           [Some (3 / 10); Some (3 / 10)]; [Some (3 / 10); Some (4 / 10)]; nan_row ];
         [ nan_row; nan_row; nan_row; nan_row; [Some (4 / 10); Some (5 / 10)] ] ] |}.

(** Four units recorded in the three subjects A, B and C. *)
Definition assembly : Assembly :=
  [ mkNeuroid "A" 0 [1]; mkNeuroid "B" 1 [2]; mkNeuroid "C" 2 [3];
    mkNeuroid "A" 3 [4] ].

(** One unit in each of the four subjects A, B, C and D. *)
Definition four_subject_assembly : Assembly :=
  [ mkNeuroid "A" 0 [1]; mkNeuroid "B" 1 [2]; mkNeuroid "C" 2 [3];
    mkNeuroid "D" 3 [4] ].

(** A metric that scores every pool and held-out pair [0.5], with two
    splits per held-out unit in its raw table. *)
Definition constant_metric (pool_assembly subject_assembly : Assembly)
  : result Score :=
  Ok {| center := 1 / 2;
        error := 0;
        score_dims := ["aggregation"%string];
        score_coords := [];
        raw := {| raw_dims := ["split"%string; "neuroid"%string];
                  raw_coords := [];
                  raw_rows := map (fun n => (neuroid_id n, [Some (1 / 2); Some (1 / 2)]))
                                  subject_assembly |} |}.

(** A metric that finds no overlap for subject A, an empty array for
    subject B, and scores the other subjects [0.5]. *)
Definition patchy_metric (pool_assembly subject_assembly : Assembly)
  : result Score :=
  if mem "A" (subject_values subject_assembly)
  then Raise (NoOverlapException "no overlap")
  else if mem "B" (subject_values subject_assembly)
  then Raise (ValueError
    "Found array with 0 sample(s) (shape=(0, 1)) while a minimum of 1 is required.")
  else constant_metric pool_assembly subject_assembly.

(** A metric that fails with another [ValueError] for subject C. *)
Definition broken_metric (pool_assembly subject_assembly : Assembly)
  : result Score :=
  if mem "C" (subject_values subject_assembly)
  then Raise (ValueError "operands could not be broadcast together")
  else patchy_metric pool_assembly subject_assembly.

(** A metric that finds no overlap for any subject. *)
Definition disjoint_metric (pool_assembly subject_assembly : Assembly)
  : result Score :=
  Raise (NoOverlapException "no overlap").

(** The configuration with two bootstrap rounds. *)
Definition self2 : ExtrapolationCeiling :=
  {| subject_column := "subject"; num_bootstraps := 2; _post_process := None |}.

(** A generator whose [choice] repeats one entry, the entry moving on with
    the state. *)
Definition cycling_choice (rng : nat) (a : list R) (size : nat) : list R * nat :=
  (repeat (nth (rng mod length a) a 0) size, S rng).

(** A fit that converges only when the first resampled mean is below
    [0.15]. *)
Definition fit_picky (xdata : list R) (ydata : list (option R)) : result (R * R) :=
  match ydata with
  | Some y :: _ =>
      if Rlt_dec y (15 / 100)
      then Ok (1 / 10000, 1)
      else Raise (RuntimeError "Optimal parameters not found")
  | _ => Raise (RuntimeError "Optimal parameters not found")
  end.

(** The table of a unit recorded in three subjects whose scores are [0.1]
    for every pair of subjects. *)
Definition steady_subjects : NeuroidCeilings :=
  {| neuroid_meta := [("neuroid_id"%string, LNat 3)];
     num_subjects_values := [2%nat; 3%nat];
     sub_subject_values :=
       ["('A', 'B')"%string; "('A', 'C')"%string; "('B', 'C')"%string;
        "('A', 'B', 'C')"%string];
     cells :=
       [ [ [Some (1 / 10); Some (1 / 10)]; [Some (1 / 10); Some (1 / 10)];
           [Some (1 / 10); Some (1 / 10)]; nan_row ];
         [ nan_row; nan_row; nan_row; [Some (3 / 10); Some (4 / 10)] ] ] |}.

(** A metric that fails on every input with an error no handler names. *)
Definition failing_metric (pool_assembly subject_assembly : Assembly)
  : result Score :=
  Raise (ValueError "operands could not be broadcast together").

(** The configuration with three bootstrap rounds. *)
Definition self3 : ExtrapolationCeiling :=
  {| subject_column := "subject"; num_bootstraps := 3; _post_process := None |}.

(** A fit that converges to a ceiling of [0.1] when the first resampled
    mean is below [0.15] and to a ceiling of [0.2] otherwise, the curve
    saturating within one grid step. *)
Definition fit_two_levels (xdata : list R) (ydata : list (option R)) : result (R * R) :=
  match ydata with
  | Some y :: _ =>
      if Rlt_dec y (15 / 100)
      then Ok (1 / 10, 1 / 10000)
      else Ok (2 / 10, 1 / 10000)
  | _ => Raise (RuntimeError "Optimal parameters not found")
  end.

(** The table of a unit recorded in three subjects whose scores are [0.2]
    for every pair of subjects. *)
Definition plateau_subjects : NeuroidCeilings :=
  {| neuroid_meta := [("neuroid_id"%string, LNat 4)];
     num_subjects_values := [2%nat; 3%nat];
     sub_subject_values :=
       ["('A', 'B')"%string; "('A', 'C')"%string; "('B', 'C')"%string;
        "('A', 'B', 'C')"%string];
     cells :=
       [ [ [Some (2 / 10); Some (2 / 10)]; [Some (2 / 10); Some (2 / 10)];
           [Some (2 / 10); Some (2 / 10)]; nan_row ];
         [ nan_row; nan_row; nan_row; [Some (3 / 10); Some (4 / 10)] ] ] |}.

End Example.

(* ================================================================== *)
(** * Properties *)

(* ------------------------------------------------------------------ *)
(** ** Percentiles and [ci_error] *)

Lemma Rleb_true (x y : R) : x <= y -> Np.Rleb x y = true.
Proof. intros H. unfold Np.Rleb. destruct (Rle_dec x y); [reflexivity | contradiction]. Qed.

Lemma Rleb_false (x y : R) : y < x -> Np.Rleb x y = false.
Proof. intros H. unfold Np.Rleb. destruct (Rle_dec x y); [lra | reflexivity]. Qed.

Lemma Rltb_true (x y : R) : x < y -> Np.Rltb x y = true.
Proof. intros H. unfold Np.Rltb. destruct (Rlt_dec x y); [reflexivity | contradiction]. Qed.

Lemma Rltb_false (x y : R) : ~ x < y -> Np.Rltb x y = false.
Proof. intros H. unfold Np.Rltb. destruct (Rlt_dec x y); [contradiction | reflexivity]. Qed.

Lemma Rltb_spec (x y : R) : Np.Rltb x y = true <-> x < y.
Proof.
  unfold Np.Rltb. destruct (Rlt_dec x y); split; intros; auto; discriminate.
Qed.

Lemma floor_unit_interval (x : R) : 0 <= x < 1 -> Np.floor x = 0%nat.
Proof.
  intros [H0 H1]. unfold Np.floor.
  rewrite <- (Int_part_spec x 0); [reflexivity | simpl; lra].
Qed.

Lemma percentile_singleton (a q : R) : Np.percentile [a] q = a.
Proof.
  unfold Np.percentile. cbn [Np.sort Np.insert length].
  replace (q / 100 * (INR 1 - 1)) with 0 by (simpl; lra).
  rewrite floor_unit_interval by lra.
  cbn. lra.
Qed.

Lemma median_singleton (a : R) : Np.median [a] = a.
Proof. unfold Np.median. cbn. reflexivity. Qed.

Lemma percentile_zero_one (q : R) :
  0 <= q < 100 -> Np.percentile [0; 1] q = q / 100.
Proof.
  intros Hq. unfold Np.percentile. cbn [Np.sort Np.insert].
  rewrite Rleb_true by lra. cbn [length].
  replace (q / 100 * (INR 2 - 1)) with (q / 100) by (simpl; lra).
  rewrite floor_unit_interval by lra.
  cbn. lra.
Qed.

(** With the default confidence, [ci_error] takes the percentiles of rank
    [2.5] and [99.975]. *)
Lemma ci_error_default (samples : list (option R)) (center_ : R) :
  ci_error samples center_ default_confidence
  = (center_ - Np.nanpercentile samples (5 / 2),
     Np.nanpercentile samples (3999 / 40) - center_).
Proof.
  unfold ci_error, ci_ranks, default_confidence. cbn [fst snd].
  replace (100 * (1 - 95 / 100) / 2) with (5 / 2) by lra.
  replace (100 * 1 - (1 - 95 / 100) / 2) with (3999 / 40) by lra.
  reflexivity.
Qed.

(** C1 (the code departs from the claim): on the samples [[0, 1]] with
    center [0.5] and the default confidence, the upper entry returned by
    [ci_error] is the distance to the percentile of rank 99.975, which is
    [0.49975]; the distance to the 97.5th percentile is [0.475].  The lower
    entry is the distance to the 2.5th percentile, [0.475]. *)
Theorem ci_error_upper_rank :
  ci_error [Some 0; Some 1] (1 / 2) default_confidence
  = (1 / 2 - Np.nanpercentile [Some 0; Some 1] (5 / 2),
     Np.nanpercentile [Some 0; Some 1] (3999 / 40) - 1 / 2)
  /\ fst (ci_error [Some 0; Some 1] (1 / 2) default_confidence) = 475 / 1000
  /\ snd (ci_error [Some 0; Some 1] (1 / 2) default_confidence) = 49975 / 100000
  /\ Np.nanpercentile [Some 0; Some 1] (975 / 10) - 1 / 2 = 475 / 1000
  /\ snd (ci_error [Some 0; Some 1] (1 / 2) default_confidence)
     <> Np.nanpercentile [Some 0; Some 1] (975 / 10) - 1 / 2.
Proof.
  rewrite ci_error_default. unfold Np.nanpercentile. cbn [Np.dropnan fst snd].
  rewrite !percentile_zero_one by lra.
  repeat split; lra.
Qed.

(* ------------------------------------------------------------------ *)
(** ** The endpoint search *)

Lemma where_from_In (mask : list bool) :
  forall s i, In i (Np.where_from s mask)
              <-> (s <= i)%nat /\ nth (i - s) mask false = true.
Proof.
  induction mask as [| b mask IH]; intros s i; cbn [Np.where_from].
  - split; [intros [] | intros [_ H]; destruct (i - s)%nat; discriminate].
  - assert (Hstep : In i (Np.where_from (S s) mask)
                    <-> (S s <= i)%nat /\ nth (i - S s) mask false = true)
      by apply IH.
    destruct b; cbn [In]; rewrite Hstep.
    + split.
      * intros [<- | [Hle Hn]].
        -- split; [lia |]. rewrite Nat.sub_diag. reflexivity.
        -- split; [lia |]. replace (i - s)%nat with (S (i - S s)) by lia. exact Hn.
      * intros [Hle Hn].
        destruct (Nat.eq_dec s i) as [-> | Hne]; [left; reflexivity | right].
        split; [lia |].
        replace (i - s)%nat with (S (i - S s)) in Hn by lia. exact Hn.
    + split.
      * intros [Hle Hn]. split; [lia |].
        replace (i - s)%nat with (S (i - S s)) by lia. exact Hn.
      * intros [Hle Hn].
        destruct (Nat.eq_dec s i) as [-> | Hne].
        -- rewrite Nat.sub_diag in Hn. discriminate.
        -- split; [lia |].
           replace (i - s)%nat with (S (i - S s)) in Hn by lia. exact Hn.
Qed.

Lemma where_In (mask : list bool) (i : nat) :
  In i (Np.where_ mask) <-> nth i mask false = true.
Proof.
  unfold Np.where_. rewrite where_from_In, Nat.sub_0_r.
  split; [intros [_ H]; exact H | intros H; split; [lia | exact H]].
Qed.

Lemma fold_min_le (l : list nat) (x : nat) :
  (fold_right Nat.min x l <= x)%nat
  /\ forall y, In y l -> (fold_right Nat.min x l <= y)%nat.
Proof.
  induction l as [| a l [IHx IHl]]; cbn [fold_right].
  - split; [lia | intros y []].
  - split; [lia |]. intros y [<- | Hy]; [lia |]. specialize (IHl y Hy). lia.
Qed.

Lemma fold_min_In (l : list nat) (x : nat) : In (fold_right Nat.min x l) (x :: l).
Proof.
  induction l as [| a l IH]; cbn [fold_right].
  - left; reflexivity.
  - destruct (Nat.min_spec a (fold_right Nat.min x l)) as [[_ ->] | [_ ->]].
    + right; left; reflexivity.
    + destruct IH as [IH | IH]; [left; exact IH | right; right; exact IH].
Qed.

(** [Np.min] returns the least element of a non-empty index array. *)
Lemma min_Ok (l : list nat) (m : nat) :
  Np.min l = Ok m <-> In m l /\ forall y, In y l -> (m <= y)%nat.
Proof.
  destruct l as [| x l]; cbn [Np.min].
  - split; [discriminate | intros [[] _]].
  - split.
    + intros H. injection H as <-. split; [apply fold_min_In |].
      intros y [<- | Hy];
        [apply (proj1 (fold_min_le l x)) | apply (proj2 (fold_min_le l x)); exact Hy].
    + intros [Hin Hle]. f_equal.
      pose proof (fold_min_In l x) as Hin'.
      pose proof (Hle _ Hin') as H1.
      assert (H2 : (fold_right Nat.min x l <= m)%nat).
      { destruct Hin as [<- | Hin];
          [apply (proj1 (fold_min_le l x)) | apply (proj2 (fold_min_le l x)); exact Hin]. }
      lia.
Qed.

Lemma min_Raise (l : list nat) (e : exn) :
  Np.min l = Raise e -> l = [] /\ exists m, e = ValueError m.
Proof.
  destruct l; cbn [Np.min]; [| discriminate].
  intros H. injection H as <-. split; [reflexivity | eexists; reflexivity].
Qed.

Lemma diff_length (l : list R) : length (Np.diff l) = (length l - 1)%nat.
Proof.
  induction l as [| x [| y l] IH]; try reflexivity.
  cbn [Np.diff length] in *. rewrite IH. lia.
Qed.

Lemma diff_nth (l : list R) :
  forall i, (S i < length l)%nat ->
            nth i (Np.diff l) 0 = nth (S i) l 0 - nth i l 0.
Proof.
  induction l as [| x [| y l] IH]; intros i Hi; cbn [length] in Hi; try lia.
  destruct i as [| i]; [reflexivity |].
  change (Np.diff (x :: y :: l)) with ((y - x) :: Np.diff (y :: l)).
  cbn [nth]. apply (IH i). cbn [length]. lia.
Qed.

Lemma nth_map_seq {A : Type} (f : nat -> A) (d : A) (n i : nat) :
  (i < n)%nat -> nth i (map f (seq 0 n)) d = f i.
Proof.
  intros Hi.
  rewrite (nth_indep _ d (f 0%nat)) by (rewrite length_map, length_seq; exact Hi).
  rewrite map_nth, seq_nth by exact Hi. reflexivity.
Qed.

Lemma column_curves (bootstrap_params : list (nat * (R * R))) (x : nat) :
  (x < 1000)%nat ->
  column (curves bootstrap_params) x = map (curve_at x) bootstrap_params.
Proof.
  intros Hx. unfold column, curves. rewrite map_map.
  apply map_ext. intros p. unfold interpolation_xs, curve_at.
  apply (nth_map_seq (fun x0 => v (INR x0) (fst (snd p)) (snd (snd p)))). exact Hx.
Qed.

Lemma median_axis0_length (bootstrap_params : list (nat * (R * R))) :
  bootstrap_params <> [] ->
  length (median_axis0 (curves bootstrap_params)) = 1000%nat.
Proof.
  destruct bootstrap_params as [| p ps]; [congruence | intros _].
  unfold median_axis0, curves. cbn [map].
  rewrite length_map, length_seq, length_map. unfold interpolation_xs.
  apply length_seq.
Qed.

Lemma median_axis0_nth (bootstrap_params : list (nat * (R * R))) (x : nat) :
  bootstrap_params <> [] -> (x < 1000)%nat ->
  nth x (median_axis0 (curves bootstrap_params)) 0 = median_curve bootstrap_params x.
Proof.
  intros Hne Hx. unfold median_curve. rewrite <- column_curves by exact Hx.
  destruct bootstrap_params as [| p ps]; [congruence |].
  unfold median_axis0. change (curves (p :: ps)) with
    (map (fun x0 => v (INR x0) (fst (snd p)) (snd (snd p))) interpolation_xs
       :: curves ps).
  cbv beta iota.
  rewrite length_map. unfold interpolation_xs. rewrite length_seq.
  apply (nth_map_seq (fun j => Np.median (column _ j))). exact Hx.
Qed.

(** The mask of the endpoint search holds at [x] exactly when the forward
    difference of the median curve at [x] is below the threshold. *)
Lemma endpoint_mask_nth (bootstrap_params : list (nat * (R * R))) (x : nat) :
  bootstrap_params <> [] ->
  nth x (map (fun d => Np.Rltb d asymptote_threshold)
             (Np.diff (median_axis0 (curves bootstrap_params)))) false = true
  <-> (x < 999)%nat /\ forward_difference bootstrap_params x < asymptote_threshold.
Proof.
  intros Hne.
  pose proof (median_axis0_length Hne) as Hlen.
  pose proof (diff_length (median_axis0 (curves bootstrap_params))) as Hdl.
  rewrite Hlen in Hdl.
  destruct (Nat.lt_ge_cases x 999) as [Hx | Hx].
  - rewrite (nth_indep _ false (Np.Rltb 0 asymptote_threshold))
      by (rewrite length_map; lia).
    rewrite (map_nth (fun d => Np.Rltb d asymptote_threshold)).
    rewrite diff_nth by lia.
    rewrite !median_axis0_nth by (assumption || lia).
    rewrite Rltb_spec. unfold forward_difference. tauto.
  - rewrite nth_overflow by (rewrite length_map; lia).
    split; [discriminate | intros [H _]; lia].
Qed.

Lemma merge_data_arrays_cons {A : Type} (l : list A) :
  l <> [] -> merge_data_arrays l = Ok l.
Proof. destruct l; [congruence | reflexivity]. Qed.

(** Among the grid points with a small forward difference there is a first
    one. *)
Lemma first_flat_exists (bootstrap_params : list (nat * (R * R))) (x : nat) :
  (x < 999)%nat ->
  forward_difference bootstrap_params x < asymptote_threshold ->
  exists end_x, (end_x <= x)%nat /\ first_flat bootstrap_params end_x.
Proof.
  induction x as [x IH] using lt_wf_ind. intros Hx Hfd.
  assert (Hdec : (exists y, (y < x)%nat
                     /\ forward_difference bootstrap_params y < asymptote_threshold)
                 \/ forall y, (y < x)%nat ->
                      ~ forward_difference bootstrap_params y < asymptote_threshold).
  { clear IH Hx Hfd. induction x as [| x [IHx | IHx]].
    - right. intros y Hy. lia.
    - left. destruct IHx as [y [Hy Hd]]. exists y. split; [lia | exact Hd].
    - destruct (Rlt_dec (forward_difference bootstrap_params x) asymptote_threshold)
        as [Hd | Hd].
      + left. exists x. split; [lia | exact Hd].
      + right. intros y Hy. destruct (Nat.eq_dec y x) as [-> | Hne];
          [exact Hd | apply IHx; lia]. }
  destruct Hdec as [[y [Hy Hd]] | Hnone].
  - destruct (IH y Hy ltac:(lia) Hd) as [end_x [Hle Hfirst]].
    exists end_x. split; [lia | exact Hfirst].
  - exists x. split; [lia |]. repeat split; assumption.
Qed.

Lemma first_flat_unique (bootstrap_params : list (nat * (R * R))) (x y : nat) :
  first_flat bootstrap_params x -> first_flat bootstrap_params y -> x = y.
Proof.
  intros [Hx [Hdx Hminx]] [Hy [Hdy Hminy]].
  destruct (Nat.lt_trichotomy x y) as [Hlt | [Heq | Hgt]]; [| exact Heq |].
  - exfalso. exact (Hminy x Hlt Hdx).
  - exfalso. exact (Hminx y Hgt Hdy).
Qed.

Lemma endpoint_search (bootstrap_params : list (nat * (R * R))) (end_x : nat) :
  bootstrap_params <> [] ->
  (Np.min (Np.where_ (map (fun d => Np.Rltb d asymptote_threshold)
                          (Np.diff (median_axis0 (curves bootstrap_params)))))
   = Ok end_x
   <-> first_flat bootstrap_params end_x).
Proof.
  intros Hne. rewrite min_Ok. unfold first_flat. split.
  - intros [Hin Hmin]. apply where_In, endpoint_mask_nth in Hin; [| exact Hne].
    destruct Hin as [Hx Hd]. repeat split; [exact Hx | exact Hd |].
    intros y Hy Hdy.
    assert (Hiny : In y (Np.where_ (map (fun d => Np.Rltb d asymptote_threshold)
                     (Np.diff (median_axis0 (curves bootstrap_params)))))).
    { apply where_In, endpoint_mask_nth; [exact Hne | split; [lia | exact Hdy]]. }
    specialize (Hmin y Hiny). lia.
  - intros [Hx [Hd Hmin]]. split.
    + apply where_In, endpoint_mask_nth; [exact Hne | split; assumption].
    + intros y Hy. apply where_In, endpoint_mask_nth in Hy; [| exact Hne].
      destruct Hy as [_ Hdy].
      destruct (Nat.le_gt_cases end_x y) as [Hle | Hgt]; [exact Hle |].
      exfalso. exact (Hmin y Hgt Hdy).
Qed.

Lemma endpoint_and_error_nil (ceilings : NeuroidCeilings) :
  endpoint_and_error ceilings [] = Raise (KeyError "z").
Proof. reflexivity. Qed.

Lemma endpoint_and_error_Ok (ceilings : NeuroidCeilings)
  (bootstrap_params : list (nat * (R * R))) (end_x : nat) :
  bootstrap_params <> [] ->
  first_flat bootstrap_params end_x ->
  endpoint_and_error ceilings bootstrap_params
  = Ok (packaged ceilings bootstrap_params end_x).
Proof.
  intros Hne Hfirst. unfold endpoint_and_error.
  rewrite (merge_data_arrays_cons Hne). cbn [bind].
  rewrite (proj2 (endpoint_search end_x Hne) Hfirst). cbn [bind].
  rewrite column_curves by (destruct Hfirst; lia).
  reflexivity.
Qed.

Lemma endpoint_and_error_inv (ceilings : NeuroidCeilings)
  (bootstrap_params : list (nat * (R * R))) (r : Ceiling NeuroidCeilings) :
  endpoint_and_error ceilings bootstrap_params = Ok r ->
  bootstrap_params <> []
  /\ exists end_x, first_flat bootstrap_params end_x
                   /\ r = packaged ceilings bootstrap_params end_x.
Proof.
  intros H.
  assert (Hne : bootstrap_params <> []).
  { intros ->. rewrite endpoint_and_error_nil in H. discriminate. }
  split; [exact Hne |].
  unfold endpoint_and_error in H. rewrite (merge_data_arrays_cons Hne) in H.
  cbn [bind] in H.
  destruct (Np.min (Np.where_ (map (fun d => Np.Rltb d asymptote_threshold)
              (Np.diff (median_axis0 (curves bootstrap_params))))))
    as [end_x | e] eqn:Hmin; cbn [bind] in H; [| discriminate].
  apply endpoint_search in Hmin; [| exact Hne].
  exists end_x. split; [exact Hmin |].
  rewrite column_curves in H by (destruct Hmin; lia).
  injection H as <-. reflexivity.
Qed.

Lemma endpoint_and_error_no_flat (ceilings : NeuroidCeilings)
  (bootstrap_params : list (nat * (R * R))) :
  bootstrap_params <> [] ->
  (forall x, (x < 999)%nat ->
             ~ forward_difference bootstrap_params x < asymptote_threshold) ->
  exists m, endpoint_and_error ceilings bootstrap_params = Raise (ValueError m).
Proof.
  intros Hne Hnone. unfold endpoint_and_error.
  rewrite (merge_data_arrays_cons Hne). cbn [bind].
  destruct (Np.min (Np.where_ (map (fun d => Np.Rltb d asymptote_threshold)
              (Np.diff (median_axis0 (curves bootstrap_params))))))
    as [end_x | e] eqn:Hmin; cbn [bind].
  - apply endpoint_search in Hmin; [| exact Hne].
    destruct Hmin as [Hx [Hd _]]. exfalso. exact (Hnone end_x Hx Hd).
  - apply min_Raise in Hmin. destruct Hmin as [_ [m ->]]. exists m. reflexivity.
Qed.

(* ------------------------------------------------------------------ *)
(** ** The bootstrap loop and the loop over units *)

Section ExtrapolateFacts.

Variable rng_state : Type.
Variable RandomState : nat -> rng_state.
Variable choice : rng_state -> list R -> nat -> list R * rng_state.
Variable curve_fit : list R -> list (option R) -> result (R * R).
Variable self : ExtrapolationCeiling.

Local Abbreviation run_neuroid := (extrapolate_neuroid RandomState choice curve_fit self).
Local Abbreviation run_loop := (extrapolate_loop RandomState choice curve_fit self).
Local Abbreviation run := (extrapolate RandomState choice curve_fit self).
Local Abbreviation from := (bootstrap_from choice curve_fit self).

Lemma bootstrap_scores_Ok (ceilings : NeuroidCeilings) (levels : list nat) :
  (forall k, In k levels -> exists cs, level_choices ceilings k = Ok cs) ->
  forall rng acc, exists ys rng',
    bootstrap_scores choice ceilings levels rng acc = Ok (ys, rng').
Proof.
  induction levels as [| k levels IH]; intros Hok rng acc; cbn [bootstrap_scores].
  - eauto.
  - destruct (Hok k (or_introl eq_refl)) as [cs ->]. cbn [bind].
    apply IH. intros k' Hk'. apply Hok. right. exact Hk'.
Qed.

(** When every fit raises [RuntimeError], the loop over rounds ends with the
    parameter list it started from. *)
Lemma bootstrap_rounds_no_fit (ceilings : NeuroidCeilings) (levels : list nat) :
  (forall k, In k levels -> exists cs, level_choices ceilings k = Ok cs) ->
  (forall ys, exists m, fit curve_fit levels ys = Raise (RuntimeError m)) ->
  forall rounds rng params, exists rng',
    bootstrap_rounds choice curve_fit ceilings levels rounds rng params
    = Ok (params, rng').
Proof.
  intros Hok Hfit. induction rounds as [| b rounds IH]; intros rng params;
    cbn [bootstrap_rounds].
  - eauto.
  - destruct (bootstrap_scores_Ok ceilings levels Hok rng []) as [ys [rng1 ->]].
    cbn [bind fst snd]. destruct (Hfit ys) as [m ->]. apply IH.
Qed.

Lemma extrapolate_neuroid_no_fit (ceilings : NeuroidCeilings) (levels : list nat) :
  subject_subsamples_of ceilings = Ok levels ->
  (forall k, In k levels -> exists cs, level_choices ceilings k = Ok cs) ->
  (forall ys, exists m, fit curve_fit levels ys = Raise (RuntimeError m)) ->
  run_neuroid ceilings = Raise (KeyError "z").
Proof.
  intros Hlevels Hok Hfit. unfold extrapolate_neuroid, bootstrap_from.
  rewrite Hlevels. cbn [bind].
  destruct (bootstrap_rounds_no_fit ceilings Hok Hfit
              (seq 0 (num_bootstraps self)) (RandomState 0) []) as [rng' ->].
  reflexivity.
Qed.

Lemma extrapolate_neuroid_from (ceilings : NeuroidCeilings)
  (params : list (nat * (R * R))) (rng' : rng_state) :
  from (RandomState 0) ceilings = Ok (params, rng') ->
  run_neuroid ceilings = endpoint_and_error ceilings params.
Proof. intros H. unfold extrapolate_neuroid. rewrite H. reflexivity. Qed.

(** A unit whose extrapolation raises [KeyError] leaves no trace in the
    lists the loop fills. *)
Lemma extrapolate_loop_skip (u : NeuroidCeilings) (k : string)
  (before after : list NeuroidCeilings) :
  run_neuroid u = Raise (KeyError k) ->
  forall acc, run_loop (before ++ u :: after) acc = run_loop (before ++ after) acc.
Proof.
  intros Hu. induction before as [| c before IH]; intros acc.
  - cbn [app extrapolate_loop]. rewrite Hu. reflexivity.
  - cbn [app extrapolate_loop].
    destruct (run_neuroid c) as [r | e]; [apply IH |].
    destruct e; try reflexivity. apply IH.
Qed.

(** A unit whose extrapolation raises anything else ends the loop. *)
Lemma extrapolate_loop_abort (u : NeuroidCeilings) (e : exn)
  (before after : list NeuroidCeilings) :
  run_neuroid u = Raise e -> is_KeyError e = false ->
  forall acc,
    (exists e', run_loop (before ++ u :: after) acc = Raise e')
    /\ (Forall (fun c => forall e', run_neuroid c = Raise e' -> is_KeyError e' = true)
               before ->
        run_loop (before ++ u :: after) acc = Raise e).
Proof.
  intros Hu He. induction before as [| c before IH]; intros acc.
  - cbn [app extrapolate_loop]. rewrite Hu.
    destruct e; try discriminate; split; eauto.
  - cbn [app extrapolate_loop].
    destruct (run_neuroid c) as [r | e0] eqn:Hc.
    + destruct (IH (mkExtrapolated
         (neuroid_ceilings acc ++ [add_neuroid_meta self (ceiling_score r) c])
         (bootstrap_params_list acc ++ [add_neuroid_meta self (bootstrapped_params r) c])
         (endpoint_xs acc ++ [add_neuroid_meta self (endpoint_x r) c])))
        as [IH1 IH2].
      split; [exact IH1 |]. intros HF. apply IH2. inversion HF; assumption.
    + destruct (IH acc) as [IH1 IH2].
      destruct (is_KeyError e0) eqn:Hk.
      * destruct e0; try discriminate.
        split; [exact IH1 |]. intros HF. apply IH2. inversion HF; assumption.
      * split.
        -- exists e0. destruct e0; try discriminate; reflexivity.
        -- intros HF. inversion HF as [| ? ? Hhd Htl]; subst.
           specialize (Hhd _ Hc). congruence.
Qed.

Lemma extrapolate_skip (u : NeuroidCeilings) (k : string)
  (before after : list NeuroidCeilings) :
  run_neuroid u = Raise (KeyError k) ->
  same_outcome (run (before ++ u :: after)) (run (before ++ after)).
Proof.
  intros Hu. unfold extrapolate.
  rewrite (@extrapolate_loop_skip u k before after Hu).
  destruct (run_loop (before ++ after) _) as [acc | e]; cbn [bind same_outcome];
    [| reflexivity].
  destruct (merge (neuroid_ceilings acc) "neuroid") as [m1 | e];
    cbn [bind same_outcome]; [| reflexivity].
  destruct (merge (bootstrap_params_list acc) "neuroid") as [m2 | e];
    cbn [bind same_outcome]; [| reflexivity].
  destruct (merge (endpoint_xs acc) "neuroid") as [m3 | e];
    cbn [bind same_outcome]; [| reflexivity].
  unfold aggregate_neuroid_ceilings.
  cbn [ceiling_score bootstrapped_params endpoint_x].
  destruct (median_dim m1 "neuroid") as [a1 | e]; cbn [bind same_outcome];
    [| reflexivity].
  destruct (median_dim m2 "neuroid") as [a2 | e]; cbn [bind same_outcome];
    [| reflexivity].
  destruct (median_dim m3 "neuroid") as [a3 | e]; cbn [bind same_outcome];
    [| reflexivity].
  split; reflexivity.
Qed.

Lemma extrapolate_abort (u : NeuroidCeilings) (e : exn)
  (before after : list NeuroidCeilings) :
  run_neuroid u = Raise e -> is_KeyError e = false ->
  (exists e', run (before ++ u :: after) = Raise e')
  /\ (Forall (fun c => forall e', run_neuroid c = Raise e' -> is_KeyError e' = true)
             before ->
      run (before ++ u :: after) = Raise e).
Proof.
  intros Hu He. unfold extrapolate.
  destruct (@extrapolate_loop_abort u e before after Hu He
              (mkExtrapolated [] [] [])) as [[e' H1] H2].
  split.
  - exists e'. rewrite H1. reflexivity.
  - intros HF. rewrite (H2 HF). reflexivity.
Qed.

(** The loop handles a unit the same way whatever units came before it. *)
Lemma extrapolate_loop_snoc (u : NeuroidCeilings) (before : list NeuroidCeilings) :
  forall acc acc',
    run_loop before acc = Ok acc' ->
    run_loop (before ++ [u]) acc = run_loop [u] acc'.
Proof.
  induction before as [| c before IH]; intros acc acc' H.
  - cbn [extrapolate_loop] in H. injection H as <-. reflexivity.
  - cbn [app]. cbn [extrapolate_loop] in H |- *.
    destruct (run_neuroid c) as [r | e].
    + apply IH. exact H.
    + destruct e; try discriminate. apply IH. exact H.
Qed.

End ExtrapolateFacts.

(* ------------------------------------------------------------------ *)
(** ** The packaged score *)

Lemma sel_center (c : R) (e : R * R) :
  sel_aggregation (aggregation_score c e) "center" = c.
Proof. reflexivity. Qed.

Lemma sel_error_low (c : R) (e : R * R) :
  sel_aggregation (aggregation_score c e) "error_low" = fst e.
Proof. reflexivity. Qed.

Lemma sel_error_high (c : R) (e : R * R) :
  sel_aggregation (aggregation_score c e) "error_high" = snd e.
Proof. reflexivity. Qed.

(** The flat example: one fitted round [(v0, tau0) = (0.0001, 1)]. *)
Lemma flat_params_first_flat :
  first_flat [(0%nat, (1 / 10000, 1))] 0.
Proof.
  unfold first_flat. split; [lia |]. split; [| intros y Hy; lia].
  unfold forward_difference, median_curve. cbn [map].
  rewrite !median_singleton. unfold curve_at, v, asymptote_threshold. cbn [fst snd].
  replace (- INR 0 / 1) with 0 by (simpl; lra).
  replace (- INR 1 / 1) with (- (1)) by (simpl; lra).
  rewrite exp_0. pose proof (exp_pos (- (1))). lra.
Qed.

Lemma flat_bootstrap :
  bootstrap_from Example.choice Example.fit_flat Example.self
    (Example.RandomState 0) Example.three_subjects
  = Ok ([(0%nat, (1 / 10000, 1))], 2%nat).
Proof. reflexivity. Qed.

Lemma flat_curve_at_0 : curve_at 0 (0%nat, (1 / 10000, 1)) = 0.
Proof.
  unfold curve_at, v. cbn [fst snd].
  replace (- INR 0 / 1) with 0 by (simpl; lra). rewrite exp_0. lra.
Qed.

Lemma flat_extrapolate_neuroid :
  extrapolate_neuroid Example.RandomState Example.choice Example.fit_flat
    Example.self Example.three_subjects
  = Ok (packaged Example.three_subjects [(0%nat, (1 / 10000, 1))] 0).
Proof.
  rewrite (extrapolate_neuroid_from _ _ _ _ _ flat_bootstrap).
  apply endpoint_and_error_Ok; [discriminate | exact flat_params_first_flat].
Qed.

Lemma flat_packaged_score :
  ceiling_score (packaged Example.three_subjects [(0%nat, (1 / 10000, 1))] 0)
  = aggregation_score (1 / 10000) (1 / 10000, - (1 / 10000)).
Proof.
  unfold packaged. cbn [ceiling_score map fst snd].
  rewrite median_singleton, ci_error_default, flat_curve_at_0.
  unfold Np.nanpercentile. cbn [Np.dropnan]. rewrite !percentile_singleton.
  f_equal. f_equal; lra.
Qed.

(* ------------------------------------------------------------------ *)
(** ** Claims on [extrapolate_neuroid] *)

Unset Implicit Arguments.

Lemma extrapolate_neuroid_inv (rng_state : Type) (RandomState : nat -> rng_state)
  (choice : rng_state -> list R -> nat -> list R * rng_state)
  (curve_fit : list R -> list (option R) -> result (R * R))
  (self : ExtrapolationCeiling) (ceilings : NeuroidCeilings)
  (r : Ceiling NeuroidCeilings) :
  extrapolate_neuroid RandomState choice curve_fit self ceilings = Ok r ->
  exists params rng' end_x,
    bootstrap_from choice curve_fit self (RandomState 0%nat) ceilings = Ok (params, rng')
    /\ params <> []
    /\ first_flat params end_x
    /\ r = packaged ceilings params end_x.
Proof.
  unfold extrapolate_neuroid. intros H.
  destruct (bootstrap_from choice curve_fit self (RandomState 0%nat) ceilings)
    as [[params rng'] | e]; cbn [bind fst] in H; [| discriminate].
  apply endpoint_and_error_inv in H. destruct H as [Hne [end_x [Hfirst ->]]].
  exists params, rng', end_x.
  split; [reflexivity |]. split; [exact Hne |]. split; [exact Hfirst | reflexivity].
Qed.

(** C2 (counterexample): with one bootstrap round fitted to
    [(v0, tau0) = (0.0001, 1)] the endpoint is [x = 0], where every curve is
    [0]; the center is [0.0001], so the packaged [error_high] is [-0.0001],
    a negative number. *)
Lemma error_high_negative :
  exists r,
    extrapolate_neuroid Example.RandomState Example.choice Example.fit_flat
      Example.self Example.three_subjects = Ok r
    /\ sel_aggregation (ceiling_score r) "center" = 1 / 10000
    /\ sel_aggregation (ceiling_score r) "error_high" = - (1 / 10000)
    /\ sel_aggregation (ceiling_score r) "error_high" < 0.
Proof.
  eexists. split; [exact flat_extrapolate_neuroid |].
  rewrite flat_packaged_score, sel_center, sel_error_high. cbn [snd].
  repeat split; lra.
Qed.

(** The steep example: one fitted round [(v0, tau0) = (3, 1000)], whose
    curve grows by at least [0.001] per grid step up to [x = 999]. *)
Lemma steep_params_never_flat (x : nat) :
  (x < 999)%nat ->
  ~ forward_difference [(0%nat, (3, 1000))] x < asymptote_threshold.
Proof.
  intros Hx. unfold forward_difference, median_curve. cbn [map].
  rewrite !median_singleton. unfold curve_at, v, asymptote_threshold. cbn [fst snd].
  set (a := - INR (S x) / 1000).
  replace (- INR x / 1000) with (a + 1 / 1000)
    by (unfold a; rewrite S_INR; lra).
  rewrite exp_plus.
  assert (Hx' : INR (S x) <= 999).
  { replace 999 with (INR 999) by (simpl; lra). apply le_INR. lia. }
  assert (Ha : - (1) < a) by (unfold a; lra).
  pose proof (exp_increasing _ _ Ha) as Hinc.
  pose proof (exp_ineq1_le (1 / 1000)) as Hstep.
  pose proof exp_le_3 as H3.
  pose proof (exp_pos 1) as Hp1.
  pose proof (exp_pos (- (1))) as Hpm.
  pose proof (exp_pos a) as Hpa.
  assert (Hinv : exp (- (1)) * exp 1 = 1).
  { rewrite <- exp_plus. replace (- (1) + 1) with 0 by lra. apply exp_0. }
  assert (Hthird : 1 / 3 <= exp (- (1))) by nra.
  assert (Hgrow : exp a * (1 / 1000) <= exp a * exp (1 / 1000) - exp a) by nra.
  nra.
Qed.

Lemma steep_bootstrap :
  bootstrap_from Example.choice Example.fit_steep Example.self
    (Example.RandomState 0%nat) Example.three_subjects
  = Ok ([(0%nat, (3, 1000))], 2%nat).
Proof. reflexivity. Qed.

(** C10: when the bootstrap loop has fitted a non-empty list of parameter
    pairs and no forward difference of the per-x median curve on the grid
    [0..999] is below [0.0005], the endpoint search takes the minimum of an
    empty index array: [extrapolate_neuroid] raises a [ValueError], which is
    not a [KeyError], so [extrapolate] raises instead of skipping the unit
    (that very [ValueError] when no earlier unit has ended the loop). *)
Theorem endpoint_search_failure_aborts (rng_state : Type)
  (RandomState : nat -> rng_state)
  (choice : rng_state -> list R -> nat -> list R * rng_state)
  (curve_fit : list R -> list (option R) -> result (R * R))
  (self : ExtrapolationCeiling) (u : NeuroidCeilings)
  (params : list (nat * (R * R))) (rng' : rng_state) :
  bootstrap_from choice curve_fit self (RandomState 0%nat) u = Ok (params, rng') ->
  params <> [] ->
  (forall x, (x < 999)%nat -> ~ forward_difference params x < asymptote_threshold) ->
  exists m,
    extrapolate_neuroid RandomState choice curve_fit self u = Raise (ValueError m)
    /\ is_KeyError (ValueError m) = false
    /\ forall before after,
         (exists e, extrapolate RandomState choice curve_fit self
                      (before ++ u :: after) = Raise e)
         /\ (Forall (fun c => forall e',
                       extrapolate_neuroid RandomState choice curve_fit self c
                       = Raise e' -> is_KeyError e' = true) before ->
             extrapolate RandomState choice curve_fit self (before ++ u :: after)
             = Raise (ValueError m)).
Proof.
  intros Hfrom Hne Hnone.
  destruct (endpoint_and_error_no_flat u Hne Hnone) as [m Hm].
  exists m.
  assert (Hu : extrapolate_neuroid RandomState choice curve_fit self u
               = Raise (ValueError m)).
  { rewrite (extrapolate_neuroid_from _ _ _ _ _ Hfrom). exact Hm. }
  split; [exact Hu |]. split; [reflexivity |].
  intros before after.
  exact (@extrapolate_abort _ RandomState choice curve_fit self u (ValueError m)
           before after Hu eq_refl).
Qed.

Lemma endpoint_search_failure_aborts_witness :
  exists m,
    extrapolate_neuroid Example.RandomState Example.choice Example.fit_steep
      Example.self Example.three_subjects = Raise (ValueError m)
    /\ is_KeyError (ValueError m) = false
    /\ forall before after,
         (exists e, extrapolate Example.RandomState Example.choice Example.fit_steep
                      Example.self (before ++ Example.three_subjects :: after)
                    = Raise e)
         /\ (Forall (fun c => forall e',
                       extrapolate_neuroid Example.RandomState Example.choice
                         Example.fit_steep Example.self c
                       = Raise e' -> is_KeyError e' = true) before ->
             extrapolate Example.RandomState Example.choice Example.fit_steep
               Example.self (before ++ Example.three_subjects :: after)
             = Raise (ValueError m)).
Proof.
  refine (endpoint_search_failure_aborts nat Example.RandomState Example.choice
            Example.fit_steep Example.self Example.three_subjects
            [(0%nat, (3, 1000))] 2%nat steep_bootstrap _ steep_params_never_flat).
  discriminate.
Defined.

(* ------------------------------------------------------------------ *)
(** ** Claims on [extrapolate] *)

(** C3 (counterexample): with a fit that never converges, the single unit
    of a three-subject table is skipped by the [KeyError] handler and
    [extrapolate] then raises [IndexError] from [merge]; on a two-subject
    table the squeezed [num_subjects] coordinate cannot be iterated and
    [extrapolate] raises [TypeError]. *)
Lemma skipping_every_unit_raises :
  extrapolate_neuroid Example.RandomState Example.choice Example.fit_never
    Example.self Example.three_subjects = Raise (KeyError "z")
  /\ extrapolate Example.RandomState Example.choice Example.fit_never
       Example.self [Example.three_subjects]
     = Raise (IndexError "tuple index out of range")
  /\ build_subject_subsamples ["A"%string; "B"%string] = [2%nat]
  /\ extrapolate Example.RandomState Example.choice Example.fit_never
       Example.self [Example.two_subjects]
     = Raise (TypeError "iteration over a 0-d array").
Proof. repeat split; reflexivity. Qed.

(** A unit with three subsample sizes, whose fit converges, next to a
    skipped one: the extrapolation completes. *)
Lemma four_subjects_bootstrap :
  bootstrap_from Example.choice Example.fit_three_sizes Example.self
    (Example.RandomState 0%nat) Example.four_subjects
  = Ok ([(0%nat, (1 / 10000, 1))], 3%nat).
Proof. reflexivity. Qed.

Lemma skipped_unit_beside_fitted_unit :
  exists c,
    extrapolate Example.RandomState Example.choice Example.fit_three_sizes
      Example.self [Example.three_subjects; Example.four_subjects] = Ok c
    /\ sel_aggregation (ceiling_score c) "center" = 1 / 10000.
Proof.
  assert (H4 : extrapolate_neuroid Example.RandomState Example.choice
                 Example.fit_three_sizes Example.self Example.four_subjects
               = Ok (packaged Example.four_subjects [(0%nat, (1 / 10000, 1))] 0)).
  { rewrite (extrapolate_neuroid_from _ _ _ _ _ four_subjects_bootstrap).
    apply endpoint_and_error_Ok; [discriminate | exact flat_params_first_flat]. }
  assert (H3 : extrapolate_neuroid Example.RandomState Example.choice
                 Example.fit_three_sizes Example.self Example.three_subjects
               = Raise (KeyError "z")) by reflexivity.
  unfold extrapolate. cbn [extrapolate_loop]. rewrite H3, H4.
  eexists. split; [reflexivity |].
  cbn. apply median_singleton.
Qed.

(* ------------------------------------------------------------------ *)
(** ** The subject subsampler *)

Lemma py_set_In (l : list string) (x : string) : In x (py_set l) <-> In x l.
Proof.
  unfold py_set. rewrite <- in_rev, nodup_In, <- in_rev. reflexivity.
Qed.

Lemma py_set_NoDup (l : list string) : NoDup (py_set l).
Proof. unfold py_set. apply NoDup_rev, NoDup_nodup. Qed.

Lemma mem_In (x : string) (xs : list string) : mem x xs = true <-> In x xs.
Proof.
  unfold mem. rewrite existsb_exists. split.
  - intros [y [Hy Heq]]. apply String.eqb_eq in Heq. subst. exact Hy.
  - intros H. exists x. split; [exact H | apply String.eqb_refl].
Qed.

Lemma mem_false (x : string) (xs : list string) : mem x xs = false <-> ~ In x xs.
Proof.
  rewrite <- mem_In. destruct (mem x xs); split; intros; congruence.
Qed.

Lemma combinations_nil_S (r : nat) : combinations [] (S r) = [].
Proof. reflexivity. Qed.

Lemma combinations_0 (l : list string) : combinations l 0 = [[]].
Proof. destruct l; reflexivity. Qed.

Lemma combinations_cons_S (x : string) (l : list string) (r : nat) :
  combinations (x :: l) (S r)
  = map (cons x) (combinations l r) ++ combinations l (S r).
Proof. reflexivity. Qed.

(** [combinations l r] has [C(len(l), r)] entries. *)
Lemma combinations_length (l : list string) :
  forall r, length (combinations l r) = binomial (length l) r.
Proof.
  induction l as [| x l IH]; intros [| r]; try reflexivity.
  rewrite combinations_cons_S, length_app, length_map, !IH. reflexivity.
Qed.

(** Every entry is a subsequence of [l] with [r] elements. *)
Lemma combinations_subsequence (l : list string) :
  forall r s, In s (combinations l r) -> subsequence s l /\ length s = r.
Proof.
  induction l as [| x l IH]; intros [| r] s Hs.
  - destruct Hs as [<- | []]. split; [constructor | reflexivity].
  - destruct Hs.
  - rewrite combinations_0 in Hs. destruct Hs as [<- | []].
    split; [| reflexivity]. constructor. apply (IH 0%nat).
    rewrite combinations_0. left; reflexivity.
  - rewrite combinations_cons_S in Hs. apply in_app_or in Hs.
    destruct Hs as [Hs | Hs].
    + apply in_map_iff in Hs. destruct Hs as [s' [<- Hs']].
      destruct (IH r s' Hs') as [Hsub Hlen].
      split; [constructor; exact Hsub | cbn [length]; congruence].
    + destruct (IH (S r) s Hs) as [Hsub Hlen].
      split; [constructor; exact Hsub | exact Hlen].
Qed.

Lemma subsequence_In (s l : list string) :
  subsequence s l -> forall x, In x s -> In x l.
Proof.
  induction 1 as [| x s l _ IH | x s l _ IH]; intros y Hy.
  - exact Hy.
  - destruct Hy as [<- | Hy]; [left; reflexivity | right; apply IH; exact Hy].
  - right. apply IH. exact Hy.
Qed.

Lemma subsequence_NoDup (s l : list string) :
  subsequence s l -> NoDup l -> NoDup s.
Proof.
  induction 1 as [| x s l Hsub IH | x s l _ IH]; intros Hnd.
  - constructor.
  - inversion Hnd as [| ? ? Hx Hl]; subst. constructor.
    + intros Hin. apply Hx. exact (subsequence_In _ _ Hsub _ Hin).
    + apply IH. exact Hl.
  - inversion Hnd; subst. apply IH. assumption.
Qed.

(** In a list without repetitions, a subsequence is determined by its
    members. *)
Lemma subsequence_same_members (l : list string) :
  NoDup l ->
  forall s1 s2, subsequence s1 l -> subsequence s2 l ->
                same_members s1 s2 -> s1 = s2.
Proof.
  induction l as [| x l IH]; intros Hnd s1 s2 H1 H2 Hsame.
  - inversion H1; inversion H2; subst. reflexivity.
  - inversion Hnd as [| ? ? Hx Hl]; subst.
    inversion H1 as [| ? s1' ? H1' | ? ? ? H1']; subst;
      inversion H2 as [| ? s2' ? H2' | ? ? ? H2']; subst.
    + f_equal. apply (IH Hl); try assumption.
      intros y. split; intros Hy.
      * assert (Hy' : In y (x :: s2')) by (apply Hsame; right; exact Hy).
        destruct Hy' as [<- | Hy']; [| exact Hy'].
        exfalso. apply Hx. exact (subsequence_In _ _ H1' _ Hy).
      * assert (Hy' : In y (x :: s1')) by (apply Hsame; right; exact Hy).
        destruct Hy' as [<- | Hy']; [| exact Hy'].
        exfalso. apply Hx. exact (subsequence_In _ _ H2' _ Hy).
    + exfalso. apply Hx. apply (subsequence_In _ _ H2').
      apply Hsame. left; reflexivity.
    + exfalso. apply Hx. apply (subsequence_In _ _ H1').
      apply Hsame. left; reflexivity.
    + apply (IH Hl); assumption.
Qed.

(** Two different positions of [combinations l r] hold subsets with
    different members. *)
Lemma combinations_distinct (l : list string) (r i j : nat) :
  NoDup l -> (i < j < length (combinations l r))%nat ->
  ~ same_members (nth i (combinations l r) []) (nth j (combinations l r) []).
Proof.
  intros Hnd Hij Hsame.
  assert (Hcomb : NoDup (combinations l r)).
  { clear i j Hij Hsame. revert r.
    induction l as [| x l IH]; intros [| r].
    - repeat constructor. intros [].
    - constructor.
    - rewrite combinations_0. repeat constructor. intros [].
    - inversion Hnd as [| ? ? Hx Hl]; subst.
      rewrite combinations_cons_S.
      apply NoDup_app.
      + apply Finite.Injective_map_NoDup; [| apply (IH Hl)].
        intros a b Hab. injection Hab as ->. reflexivity.
      + apply (IH Hl).
      + intros s Hs1 Hs2. apply in_map_iff in Hs1. destruct Hs1 as [s' [<- _]].
        apply combinations_subsequence in Hs2. destruct Hs2 as [Hsub _].
        apply Hx. apply (subsequence_In _ _ Hsub). left; reflexivity. }
  assert (Hi : In (nth i (combinations l r) []) (combinations l r))
    by (apply nth_In; lia).
  assert (Hj : In (nth j (combinations l r) []) (combinations l r))
    by (apply nth_In; lia).
  apply combinations_subsequence in Hi, Hj.
  pose proof (subsequence_same_members l Hnd _ _ (proj1 Hi) (proj1 Hj) Hsame) as Heq.
  apply (proj1 (NoDup_nth (combinations l r) []) Hcomb) in Heq; lia.
Qed.

Lemma occurrences_app (a : string) (l1 l2 : list (list string)) :
  occurrences a (l1 ++ l2) = (occurrences a l1 + occurrences a l2)%nat.
Proof. unfold occurrences. rewrite filter_app, length_app. reflexivity. Qed.

Lemma occurrences_all (a : string) (l : list (list string)) :
  (forall s, In s l -> In a s) -> occurrences a l = length l.
Proof.
  intros H. unfold occurrences. induction l as [| s l IH]; [reflexivity |].
  cbn [filter]. rewrite (proj2 (mem_In a s)) by (apply H; left; reflexivity).
  cbn [length]. f_equal. apply IH. intros s' Hs'. apply H. right. exact Hs'.
Qed.

Lemma occurrences_none (a : string) (l : list (list string)) :
  (forall s, In s l -> ~ In a s) -> occurrences a l = 0%nat.
Proof.
  intros H. unfold occurrences. induction l as [| s l IH]; [reflexivity |].
  cbn [filter]. rewrite (proj2 (mem_false a s)) by (apply H; left; reflexivity).
  apply IH. intros s' Hs'. apply H. right. exact Hs'.
Qed.

Lemma occurrences_map_cons (a x : string) (l : list (list string)) :
  a <> x -> occurrences a (map (cons x) l) = occurrences a l.
Proof.
  intros Hne. unfold occurrences.
  assert (Hmem : forall s, mem a (x :: s) = mem a s).
  { intros s. unfold mem. cbn [existsb].
    rewrite (proj2 (String.eqb_neq a x) Hne). reflexivity. }
  induction l as [| s l IH]; [reflexivity |].
  cbn [map filter]. rewrite Hmem.
  destruct (mem a s); cbn [length]; rewrite IH; reflexivity.
Qed.

Lemma binomial_0 (n : nat) : binomial n 0 = 1%nat.
Proof. destruct n; reflexivity. Qed.

(** Every subject of [l] is in [C(len(l) - 1, r)] of the subsets with
    [r + 1] elements. *)
Lemma combinations_occurrences (l : list string) :
  NoDup l ->
  forall r a, In a l ->
    occurrences a (combinations l (S r)) = binomial (length l - 1) r.
Proof.
  induction l as [| x l IH]; intros Hnd r a Ha; [destruct Ha |].
  inversion Hnd as [| ? ? Hx Hl]; subst.
  rewrite combinations_cons_S, occurrences_app.
  cbn [length]. rewrite Nat.sub_succ, Nat.sub_0_r.
  destruct (string_dec a x) as [-> | Hne].
  - rewrite occurrences_all, length_map, combinations_length.
    + rewrite occurrences_none; [lia |].
      intros s Hs Hin. apply Hx.
      apply combinations_subsequence in Hs.
      exact (subsequence_In _ _ (proj1 Hs) _ Hin).
    + intros s Hs. apply in_map_iff in Hs. destruct Hs as [s' [<- _]].
      left; reflexivity.
  - destruct Ha as [Heq | Ha]; [congruence |].
    rewrite occurrences_map_cons by exact Hne.
    rewrite (IH Hl r a Ha).
    destruct l as [| y l]; [destruct Ha |].
    cbn [length]. rewrite Nat.sub_succ, Nat.sub_0_r.
    destruct r as [| r].
    + rewrite combinations_0, !binomial_0. reflexivity.
    + rewrite (IH Hl r a Ha). cbn [length]. rewrite Nat.sub_succ, Nat.sub_0_r.
      reflexivity.
Qed.

Lemma binomial_gt (n : nat) : forall k, (n < k)%nat -> binomial n k = 0%nat.
Proof.
  induction n as [| n IH]; intros [| k] Hk; try lia; try reflexivity.
  cbn [binomial]. rewrite !IH by lia. reflexivity.
Qed.

(** [binomial] is the binomial coefficient: [C(n, k) * k! * (n - k)! = n!]. *)
Lemma binomial_fact (n : nat) :
  forall k, (k <= n)%nat -> (binomial n k * fact k * fact (n - k) = fact n)%nat.
Proof.
  induction n as [| n IH]; intros [| k] Hk; try lia.
  - reflexivity.
  - rewrite binomial_0, Nat.sub_0_r. cbn [fact]. lia.
  - cbn [binomial]. rewrite Nat.sub_succ.
    change (fact (S n)) with (S n * fact n)%nat.
    change (fact (S k)) with (S k * fact k)%nat.
    destruct (Nat.eq_dec k n) as [-> | Hne].
    + rewrite (binomial_gt n (S n)) by lia.
      pose proof (IH n (Nat.le_refl n)) as H. rewrite Nat.sub_diag in *.
      change (fact 0) with 1%nat in *.
      transitivity (S n * (binomial n n * fact n * 1))%nat; [ring | rewrite H; ring].
    + pose proof (IH k ltac:(lia)) as H1.
      pose proof (IH (S k) ltac:(lia)) as H2.
      change (fact (S k)) with (S k * fact k)%nat in H2.
      replace (n - k)%nat with (S (n - S k)) in * by lia.
      change (fact (S (n - S k))) with (S (n - S k) * fact (n - S k))%nat in *.
      transitivity
        (S k * (binomial n k * fact k * (S (n - S k) * fact (n - S k)))
         + S (n - S k) * (binomial n (S k) * (S k * fact k) * fact (n - S k)))%nat;
        [ring |].
      rewrite H1, H2.
      assert (Hn : S n = (S k + S (n - S k))%nat) by lia.
      rewrite Hn at 1. ring.
Qed.

Lemma selected_subsets_combinations (self : ExtrapolationCeiling)
  (assembly : Assembly) (k : nat) :
  selected_subsets self assembly k
  = combinations (py_set (subject_values assembly)) k.
Proof.
  unfold selected_subsets, iterate_subsets.
  induction (combinations (py_set (subject_values assembly)) k) as [| s l IH].
  - reflexivity.
  - cbn [map flat_map fst snd app]. rewrite IH. reflexivity.
Qed.

Lemma combinations_enumerate (subjects : list string) (k : nat) :
  NoDup subjects -> (1 <= k <= length subjects)%nat ->
  enumerates_all_subsets subjects k (combinations subjects k).
Proof.
  intros Hnd Hk. unfold enumerates_all_subsets.
  split; [apply combinations_length |].
  split; [apply binomial_fact; lia |].
  split; [| split].
  - intros s Hs. apply combinations_subsequence in Hs. destruct Hs as [Hsub Hlen].
    split; [exact Hlen |]. split.
    + exact (subsequence_NoDup _ _ Hsub Hnd).
    + intros x Hx. exact (subsequence_In _ _ Hsub _ Hx).
  - intros i j Hij. apply combinations_distinct; assumption.
  - intros a b Ha Hb. destruct k as [| r]; [lia |].
    rewrite (combinations_occurrences subjects Hnd r a Ha).
    rewrite (combinations_occurrences subjects Hnd r b Hb). reflexivity.
Qed.

(** C6: for a subject set of size [N >= 3], [build_subject_subsamples]
    yields the sizes [2, 3, ..., N], and for each of these sizes [k] the
    subsets yielded by [iterate_subsets] are [C(N, k)] subsets of [k] distinct
    subjects, pairwise different as sets, with every subject in the same
    number of them. *)
Theorem subsamples_enumerate_all_subsets (self : ExtrapolationCeiling)
  (assembly : Assembly) :
  let subjects := py_set (subject_values assembly) in
  (3 <= length subjects)%nat ->
  build_subject_subsamples subjects = seq 2 (length subjects - 1)
  /\ forall k, In k (build_subject_subsamples subjects) ->
       (2 <= k <= length subjects)%nat
       /\ enumerates_all_subsets subjects k (selected_subsets self assembly k).
Proof.
  intros subjects HN.
  assert (Hseq : build_subject_subsamples subjects = seq 2 (length subjects - 1)).
  { unfold build_subject_subsamples. f_equal. lia. }
  split; [exact Hseq |].
  intros k Hk. rewrite Hseq in Hk. apply in_seq in Hk.
  split; [lia |].
  rewrite selected_subsets_combinations.
  apply combinations_enumerate; [apply py_set_NoDup | fold subjects; lia].
Qed.

Lemma subsamples_enumerate_all_subsets_witness :
  build_subject_subsamples (py_set (subject_values Example.assembly))
  = seq 2 (length (py_set (subject_values Example.assembly)) - 1)
  /\ forall k,
       In k (build_subject_subsamples (py_set (subject_values Example.assembly))) ->
       (2 <= k <= length (py_set (subject_values Example.assembly)))%nat
       /\ enumerates_all_subsets (py_set (subject_values Example.assembly)) k
            (selected_subsets Example.self Example.assembly k).
Proof.
  apply (subsamples_enumerate_all_subsets Example.self Example.assembly).
  cbn. lia.
Defined.

Example subsets_of_three_subjects :
  py_set (subject_values Example.assembly) = ["A"%string; "B"%string; "C"%string]
  /\ build_subject_subsamples (py_set (subject_values Example.assembly))
     = [2%nat; 3%nat]
  /\ selected_subsets Example.self Example.assembly 2
     = [ ["A"%string; "B"%string]; ["A"%string; "C"%string];
         ["B"%string; "C"%string] ]
  /\ selected_subsets Example.self Example.assembly 3
     = [ ["A"%string; "B"%string; "C"%string] ].
Proof. repeat split; reflexivity. Qed.

(* ------------------------------------------------------------------ *)
(** ** [HoldoutSubjectCeiling] *)

Section HoldoutFacts.

Variable metric : Assembly -> Assembly -> result Score.
Variable self : ExtrapolationCeiling.

Local Abbreviation step := (holdout_subject metric self).
Local Abbreviation loop := (holdout_loop metric self).
Local Abbreviation usable := (usable_scores metric self).

(** The two handlers: a swallowed exception skips the subject, any other
    exception is raised again. *)
Lemma holdout_subject_handlers (assembly : Assembly) (subjects : list string)
  (subject : string) :
  step assembly subjects subject
  = match metric (pool_of assembly subjects subject) (heldout_of assembly subject) with
    | Ok s => Ok (Some (expand_dims (subject_column self) (LStr subject) false s))
    | Raise e => if swallowed e then Ok None else Raise e
    end.
Proof.
  unfold holdout_subject, score, pool_of, heldout_of.
  destruct (metric _ _) as [s | e]; [reflexivity |].
  destruct e; try reflexivity.
Qed.

Lemma holdout_loop_skip (assembly : Assembly) (subjects : list string)
  (subject : string) (before after : list string) :
  step assembly subjects subject = Ok None ->
  forall scores,
    loop assembly subjects (before ++ subject :: after) scores
    = loop assembly subjects (before ++ after) scores.
Proof.
  intros Hskip. induction before as [| s before IH]; intros scores.
  - cbn [app holdout_loop]. rewrite Hskip. reflexivity.
  - cbn [app holdout_loop].
    destruct (step assembly subjects s) as [r | e]; cbn [bind]; [apply IH | reflexivity].
Qed.

Lemma holdout_loop_Ok (assembly : Assembly) (subjects iterate_subjects : list string) :
  (forall s, In s iterate_subjects -> exists r, step assembly subjects s = Ok r) ->
  forall scores,
    loop assembly subjects iterate_subjects scores
    = Ok (scores ++ usable assembly subjects iterate_subjects).
Proof.
  induction iterate_subjects as [| s rest IH]; intros Hok scores.
  - cbn. rewrite app_nil_r. reflexivity.
  - cbn [holdout_loop usable_scores flat_map].
    destruct (Hok s (or_introl eq_refl)) as [r Hr]. rewrite Hr. cbn [bind].
    rewrite IH by (intros s' Hs'; apply Hok; right; exact Hs').
    destruct r as [sc |]; [rewrite <- app_assoc |]; reflexivity.
Qed.

Lemma holdout_loop_Raise (assembly : Assembly) (subjects : list string)
  (before after : list string) (subject : string) (e : exn) :
  (forall s, In s before -> exists r, step assembly subjects s = Ok r) ->
  step assembly subjects subject = Raise e ->
  forall scores,
    loop assembly subjects (before ++ subject :: after) scores = Raise e.
Proof.
  intros Hok Hraise. induction before as [| s before IH]; intros scores.
  - cbn [app holdout_loop]. rewrite Hraise. reflexivity.
  - cbn [app holdout_loop].
    destruct (Hok s (or_introl eq_refl)) as [r ->]. cbn [bind].
    apply IH. intros s' Hs'. apply Hok. right. exact Hs'.
Qed.

(** The score returned when no subject raises and one is usable. *)
Lemma holdout_ceiling_Ok (assembly : Assembly) :
  let subjects := py_set (subject_values assembly) in
  (forall s, In s subjects -> exists r, step assembly subjects s = Ok r) ->
  usable assembly subjects subjects <> [] ->
  exists c,
    holdout_ceiling metric self assembly = Ok c
    /\ center c = Np.mean (map center (usable assembly subjects subjects))
    /\ error c = Np.std (map center (usable assembly subjects subjects))
    /\ raw c = merge_raws (map raw (usable assembly subjects subjects)).
Proof.
  intros subjects Hok Hne. unfold holdout_ceiling, get_subject_iterations.
  fold subjects. rewrite (holdout_loop_Ok assembly subjects subjects Hok []).
  cbn [app bind]. unfold Score_merge.
  rewrite merge_data_arrays_cons by exact Hne. cbn [bind fst snd].
  eexists. split; [reflexivity |]. cbn [center error raw]. repeat split.
Qed.

Lemma usable_scores_nil (assembly : Assembly) (subjects iterate_subjects : list string) :
  (forall s, In s iterate_subjects -> step assembly subjects s = Ok None) ->
  usable assembly subjects iterate_subjects = [].
Proof.
  induction iterate_subjects as [| s iter IH]; intros Hs; [reflexivity |].
  unfold usable_scores. cbn [flat_map]. rewrite (Hs s (or_introl eq_refl)).
  cbn [app]. apply IH. intros s' Hs'. apply Hs. right. exact Hs'.
Qed.

Lemma holdout_ceiling_none_usable (assembly : Assembly) :
  let subjects := py_set (subject_values assembly) in
  (forall s, In s subjects -> step assembly subjects s = Ok None) ->
  holdout_ceiling metric self assembly = Raise (KeyError "z").
Proof.
  intros subjects Hskip. unfold holdout_ceiling, get_subject_iterations.
  fold subjects.
  rewrite (holdout_loop_Ok assembly subjects subjects) by
    (intros s Hs; exists None; apply Hskip; exact Hs).
  rewrite (usable_scores_nil assembly subjects subjects Hskip). reflexivity.
Qed.

End HoldoutFacts.

Lemma mean_four_halves : Np.mean [1 / 2; 1 / 2; 1 / 2; 1 / 2] = 1 / 2.
Proof. unfold Np.mean, Np.sum. cbn [fold_right length]. simpl INR. lra. Qed.

Lemma std_four_halves : Np.std [1 / 2; 1 / 2; 1 / 2; 1 / 2] = 0.
Proof.
  unfold Np.std. rewrite mean_four_halves. cbn [map].
  replace ((1 / 2 - 1 / 2) * (1 / 2 - 1 / 2)) with 0 by lra.
  unfold Np.mean, Np.sum. cbn [fold_right length]. simpl INR.
  replace ((0 + (0 + (0 + (0 + 0)))) / (1 + 1 + 1 + 1)) with 0 by lra.
  apply sqrt_0.
Qed.

(** C4: when no subject raises an exception that propagates and at least
    one subject yields a score, [HoldoutSubjectCeiling] returns a score whose
    [center] is the mean of the per-subject centers and whose [error] is
    their standard deviation (taken on the per-subject values, before the
    subject axis is averaged away). *)
Theorem holdout_center_is_mean_and_error_is_std
  (metric : Assembly -> Assembly -> result Score) (self : ExtrapolationCeiling)
  (assembly : Assembly) :
  let subjects := py_set (subject_values assembly) in
  (forall s, In s subjects ->
             exists r, holdout_subject metric self assembly subjects s = Ok r) ->
  usable_scores metric self assembly subjects subjects <> [] ->
  exists c,
    holdout_ceiling metric self assembly = Ok c
    /\ center c
       = Np.mean (map center (usable_scores metric self assembly subjects subjects))
    /\ error c
       = Np.std (map center (usable_scores metric self assembly subjects subjects)).
Proof.
  intros subjects Hok Hne.
  destruct (holdout_ceiling_Ok metric self assembly Hok Hne) as [c [Hc [H1 [H2 _]]]].
  exists c. repeat split; assumption.
Qed.

(** C4, the stated instance: subjects A, B, C and D and a metric that
    returns [0.5] for every pair give four per-subject centers of [0.5],
    [center = 0.5] and [error = 0]. *)
Lemma holdout_center_is_mean_and_error_is_std_witness :
  map center
    (usable_scores Example.constant_metric Example.self Example.four_subject_assembly
       (py_set (subject_values Example.four_subject_assembly))
       (py_set (subject_values Example.four_subject_assembly)))
  = [1 / 2; 1 / 2; 1 / 2; 1 / 2]
  /\ exists c,
       holdout_ceiling Example.constant_metric Example.self
         Example.four_subject_assembly = Ok c
       /\ center c = 1 / 2
       /\ error c = 0.
Proof.
  split; [reflexivity |].
  destruct (holdout_center_is_mean_and_error_is_std Example.constant_metric
              Example.self Example.four_subject_assembly) as [c [Hc [H1 H2]]].
  - intros s Hs. eexists. rewrite holdout_subject_handlers. reflexivity.
  - discriminate.
  - exists c. split; [exact Hc |].
    change (map center (usable_scores Example.constant_metric Example.self
              Example.four_subject_assembly
              (py_set (subject_values Example.four_subject_assembly))
              (py_set (subject_values Example.four_subject_assembly))))
      with [1 / 2; 1 / 2; 1 / 2; 1 / 2] in H1, H2.
    rewrite H1, H2, mean_four_halves, std_four_halves. split; reflexivity.
Defined.

(** C5: in [HoldoutSubjectCeiling], (1) a [NoOverlapException] and a
    [ValueError] whose message contains ["Found array with"] skip the subject
    and every other exception of the metric is raised again; (2) after a
    skipped subject the loop goes on with the remaining subjects as if the
    subject had not been there; (3) an exception that is not swallowed
    propagates to the caller; (4) when every subject is skipped the call
    raises. *)
Theorem holdout_skips_swallowed_and_propagates
  (metric : Assembly -> Assembly -> result Score) (self : ExtrapolationCeiling)
  (assembly : Assembly) :
  let subjects := py_set (subject_values assembly) in
  (swallowed (NoOverlapException "") = true
   /\ (forall m, swallowed (ValueError m) = contains "Found array with" m)
   /\ forall subject,
        holdout_subject metric self assembly subjects subject
        = match metric (pool_of assembly subjects subject)
                       (heldout_of assembly subject) with
          | Ok s => Ok (Some (expand_dims (subject_column self) (LStr subject) false s))
          | Raise e => if swallowed e then Ok None else Raise e
          end)
  /\ (forall subject before after scores,
        holdout_subject metric self assembly subjects subject = Ok None ->
        holdout_loop metric self assembly subjects (before ++ subject :: after) scores
        = holdout_loop metric self assembly subjects (before ++ after) scores)
  /\ (forall before subject after e,
        subjects = before ++ subject :: after ->
        (forall s, In s before ->
                   exists r, holdout_subject metric self assembly subjects s = Ok r) ->
        metric (pool_of assembly subjects subject) (heldout_of assembly subject)
        = Raise e ->
        swallowed e = false ->
        holdout_ceiling metric self assembly = Raise e)
  /\ ((forall s, In s subjects ->
                 holdout_subject metric self assembly subjects s = Ok None) ->
      holdout_ceiling metric self assembly = Raise (KeyError "z")).
Proof.
  intros subjects. split; [| split; [| split]].
  - split; [reflexivity |]. split; [reflexivity |].
    intros subject. apply holdout_subject_handlers.
  - intros subject before after scores Hskip.
    apply holdout_loop_skip. exact Hskip.
  - intros before subject after e Hsplit Hok Hraise Hfatal.
    unfold holdout_ceiling, get_subject_iterations. fold subjects.
    rewrite Hsplit at 2.
    rewrite (holdout_loop_Raise metric self assembly subjects before after subject e).
    + reflexivity.
    + exact Hok.
    + rewrite holdout_subject_handlers, Hraise, Hfatal. reflexivity.
  - intros Hskip. apply holdout_ceiling_none_usable. exact Hskip.
Qed.

(** C5, instances: subject A has no overlap and subject B an empty array,
    so the score rests on C and D; another [ValueError] for subject C
    reaches the caller; with no overlap for any subject the call raises. *)
Lemma holdout_skips_swallowed_and_propagates_witness :
  holdout_subject Example.patchy_metric Example.self Example.four_subject_assembly
    ["A"; "B"; "C"; "D"]%string "A" = Ok None
  /\ holdout_subject Example.patchy_metric Example.self Example.four_subject_assembly
       ["A"; "B"; "C"; "D"]%string "B" = Ok None
  /\ map (fun s => score_coords s)
         (usable_scores Example.patchy_metric Example.self
            Example.four_subject_assembly
            ["A"; "B"; "C"; "D"]%string ["A"; "B"; "C"; "D"]%string)
     = [ [("subject"%string, LStr "C")]; [("subject"%string, LStr "D")] ]
  /\ is_ok (holdout_ceiling Example.patchy_metric Example.self
              Example.four_subject_assembly) = true
  /\ holdout_ceiling Example.broken_metric Example.self Example.four_subject_assembly
     = Raise (ValueError "operands could not be broadcast together")
  /\ holdout_ceiling Example.disjoint_metric Example.self
       Example.four_subject_assembly = Raise (KeyError "z").
Proof.
  split; [reflexivity |]. split; [reflexivity |]. split; [reflexivity |].
  split; [reflexivity |]. split.
  - refine (proj1 (proj2 (proj2
      (holdout_skips_swallowed_and_propagates Example.broken_metric Example.self
         Example.four_subject_assembly)))
      ["A"; "B"]%string "C"%string ["D"%string] _ eq_refl _ eq_refl eq_refl).
    intros s [<- | [<- | []]]; eexists; reflexivity.
  - apply (proj2 (proj2 (proj2
      (holdout_skips_swallowed_and_propagates Example.disjoint_metric Example.self
         Example.four_subject_assembly)))).
    intros s Hs. reflexivity.
Defined.

(* ------------------------------------------------------------------ *)
(** ** [collect] *)

Section CollectFacts.

Variable metric : Assembly -> Assembly -> result Score.
Variable self : ExtrapolationCeiling.






End CollectFacts.




(* ------------------------------------------------------------------ *)
(** ** [merge] *)

Lemma list_eqb_string_eq (l1 l2 : list string) :
  list_eqb String.eqb l1 l2 = true <-> l1 = l2.
Proof.
  revert l2. induction l1 as [| x l1 IH]; intros [| y l2]; cbn [list_eqb];
    try (split; [discriminate | discriminate]); try (split; reflexivity).
  rewrite andb_true_iff, String.eqb_eq, IH.
  split; [intros [-> ->]; reflexivity | intros H; injection H as -> ->; split; reflexivity].
Qed.

Lemma label_eqb_eq (a b : label) : label_eqb a b = true <-> a = b.
Proof.
  destruct a as [s | n], b as [t | m]; cbn [label_eqb];
    try (split; [discriminate | discriminate]).
  - rewrite String.eqb_eq. split; [intros ->; reflexivity | intros H; injection H; auto].
  - rewrite Nat.eqb_eq. split; [intros ->; reflexivity | intros H; injection H; auto].
Qed.

Lemma list_eqb_label_eq (l1 l2 : list label) :
  list_eqb label_eqb l1 l2 = true <-> l1 = l2.
Proof.
  revert l2. induction l1 as [| x l1 IH]; intros [| y l2]; cbn [list_eqb];
    try (split; [discriminate | discriminate]); try (split; reflexivity).
  rewrite andb_true_iff, label_eqb_eq, IH.
  split; [intros [-> ->]; reflexivity | intros H; injection H as -> ->; split; reflexivity].
Qed.

Lemma merge_coords_eqb_eq (a b : list (list string * list label)) :
  merge_coords_eqb a b = true <-> a = b.
Proof.
  unfold merge_coords_eqb. revert b.
  induction a as [| [d1 v1] a IH]; intros [| [d2 v2] b]; cbn [list_eqb fst snd];
    try (split; [discriminate | discriminate]); try (split; reflexivity).
  rewrite !andb_true_iff, list_eqb_string_eq, list_eqb_label_eq, IH.
  split.
  - intros [[-> ->] ->]. reflexivity.
  - intros H. injection H as -> -> ->. repeat split.
Qed.

Lemma concatenate_0 (arrays : list ndarray) :
  existsb is_scalar arrays = false ->
  concatenate 0 arrays = Ok (Array (flat_map items_of arrays)).
Proof. intros H. cbn [concatenate]. rewrite H. reflexivity. Qed.

(** Concatenating one array along an axis it has gives the array back. *)
Lemma concatenate_single (axis : nat) :
  forall a, has_axes axis a -> concatenate axis [a] = Ok a.
Proof.
  induction axis as [| axis IH]; intros [x | items] Ha; cbn [has_axes] in Ha;
    try contradiction.
  - rewrite concatenate_0 by reflexivity. cbn [flat_map items_of].
    rewrite app_nil_r. reflexivity.
  - cbn [concatenate existsb is_scalar orb map items_of forallb zip_items].
    assert (Hfold :
      fold_right
        (fun col acc => acc' <- acc ;; c <- concatenate axis col ;; Ok (c :: acc'))
        (Ok []) (map (fun x => [x]) items) = Ok items).
    { induction Ha as [| x items Hx _ IHitems]; [reflexivity |].
      cbn [map fold_right]. rewrite IHitems. cbn [bind].
      rewrite (IH x Hx). reflexivity. }
    rewrite Hfold. reflexivity.
Qed.

Lemma coords_match_single (e : DataAssembly) (dim : string) (match_values : bool) :
  _coords_match [e] dim match_values = true.
Proof. reflexivity. Qed.

(** Merging a single element returns its values and axes unchanged. *)
Theorem merge_single_element (e : DataAssembly) (on : string) (axis : nat) :
  index_of on (dims e) = Some axis ->
  has_axes axis (values e) ->
  exists m, merge [e] on = Ok m /\ values m = values e /\ dims m = dims e.
Proof.
  intros Hindex Haxes. unfold merge. cbn [forallb negb]. rewrite Hindex.
  rewrite coords_match_single. cbn [negb].
  assert (Hall : forallb (fun dim => _coords_match [e] dim true)
                         (remove_string on (nodup string_dec (dims e))) = true).
  { apply forallb_forall. intros dim _. reflexivity. }
  rewrite Hall. cbn [negb map].
  rewrite (concatenate_single axis (values e) Haxes). cbn [bind].
  eexists. split; [reflexivity |]. split; reflexivity.
Qed.

Lemma merge_single_element_witness :
  exists m,
    merge [aggregation_score 1 (2, 3)] "aggregation" = Ok m
    /\ values m = values (aggregation_score 1 (2, 3))
    /\ dims m = dims (aggregation_score 1 (2, 3)).
Proof.
  exact (merge_single_element (aggregation_score 1 (2, 3)) "aggregation" 0
           eq_refl I).
Defined.

(** [merge] returns only for a non-empty list of elements that all have the
    axes of the first, among them the merge axis; the result has these
    axes. *)
Theorem merge_returns_on_equal_axes (elements : list DataAssembly) (on : string)
  (m : DataAssembly) :
  merge elements on = Ok m ->
  exists first rest,
    elements = first :: rest
    /\ Forall (fun element => dims element = dims first) rest
    /\ In on (dims first)
    /\ dims m = dims first.
Proof.
  unfold merge. destruct elements as [| first rest]; [discriminate |].
  intros H. exists first, rest. split; [reflexivity |].
  destruct (forallb (fun element => list_eqb String.eqb (dims element) (dims first)) rest)
    eqn:Hdims; cbn [negb] in H; [| discriminate].
  split.
  { apply Forall_forall. intros element Hin.
    rewrite forallb_forall in Hdims. apply list_eqb_string_eq. apply Hdims. exact Hin. }
  destruct (index_of on (dims first)) as [merge_index |] eqn:Hindex; [| discriminate].
  split.
  { clear H Hdims. revert merge_index Hindex.
    induction (dims first) as [| d ds IH]; intros i Hi; [discriminate |].
    cbn [index_of] in Hi. destruct (String.eqb d on) eqn:Hd.
    - left. apply String.eqb_eq. exact Hd.
    - right. destruct (index_of on ds) as [j |]; [| discriminate].
      exact (IH j eq_refl). }
  destruct (_coords_match (first :: rest) on false); cbn [negb] in H; [| discriminate].
  destruct (forallb (fun dim => _coords_match (first :: rest) dim true) _);
    cbn [negb] in H; [| discriminate].
  destruct (concatenate _ _) as [vals | e]; cbn [bind] in H; [| discriminate].
  injection H as <-. reflexivity.
Qed.

Lemma merge_returns_on_equal_axes_witness :
  exists first rest,
    [aggregation_score 1 (2, 3)] = first :: rest
    /\ Forall (fun element => dims element = dims first) rest
    /\ In "aggregation"%string (dims first)
    /\ dims
         {| values := Array (flat_map items_of [values (aggregation_score 1 (2, 3))]);
            dims := dims (aggregation_score 1 (2, 3));
            coords := coords (aggregation_score 1 (2, 3)) |}
       = dims first.
Proof.
  exact (merge_returns_on_equal_axes [aggregation_score 1 (2, 3)] "aggregation"
           _ eq_refl).
Defined.

(* ------------------------------------------------------------------ *)
(** ** [add_neuroid_meta] and the merge of per-unit arrays *)

Lemma set_coord_fresh (t : DataAssembly) (c : coord) :
  (forall c', In c' (coords t) -> coord_name c' <> coord_name c) ->
  set_coord t c = {| values := values t; dims := dims t; coords := coords t ++ [c] |}.
Proof.
  intros Hfresh. unfold set_coord. f_equal. f_equal.
  induction (coords t) as [| c' cs IH]; [reflexivity |].
  cbn [filter].
  rewrite (proj2 (String.eqb_neq _ _) (Hfresh c' (or_introl eq_refl))). cbn [negb].
  f_equal. apply IH. intros c'' Hc''. apply Hfresh. right. exact Hc''.
Qed.

Lemma fold_meta_coords (metas : list (string * label)) :
  forall t,
    NoDup (map fst metas) ->
    (forall c', In c' (coords t) -> ~ In (coord_name c') (map fst metas)) ->
    fold_left (fun t c => if array_is_element (coord_dims c) "neuroid"
                          then set_coord t c else t)
      (map (fun kv => {| coord_name := fst kv;
                         coord_dims := ["neuroid"%string];
                         coord_values := [snd kv] |}) metas) t
    = {| values := values t;
         dims := dims t;
         coords := coords t
                   ++ map (fun kv => {| coord_name := fst kv;
                                        coord_dims := ["neuroid"%string];
                                        coord_values := [snd kv] |}) metas |}.
Proof.
  induction metas as [| [name value] metas IH]; intros t Hnd Hfresh.
  - cbn [map fold_left]. rewrite app_nil_r. destruct t; reflexivity.
  - cbn [map fold_left fst snd coord_dims].
    change (array_is_element ["neuroid"%string] "neuroid") with true. cbv iota.
    inversion Hnd as [| ? ? Hname Hrest]; subst.
    rewrite set_coord_fresh.
    + rewrite IH.
      * cbn [values dims coords]. rewrite <- app_assoc. reflexivity.
      * exact Hrest.
      * cbn [coords]. intros c' Hc'. apply in_app_or in Hc'.
        destruct Hc' as [Hc' | [<- | []]].
        -- intros Hin. apply (Hfresh c' Hc'). right. exact Hin.
        -- exact Hname.
    + intros c' Hc' Heq. apply (Hfresh c' Hc'). left. cbn [coord_name] in Heq.
      cbn [map fst]. symmetry. exact Heq.
Qed.

Lemma sub_axis_is_not_neuroid (column_ : string) :
  array_is_element [("sub_" ++ column_)%string] "neuroid" = false.
Proof. reflexivity. Qed.

(** [add_neuroid_meta] wraps the values in a leading [neuroid] axis and
    appends the unit's coordinates. *)
Lemma add_neuroid_meta_eq (self : ExtrapolationCeiling) (t : DataAssembly)
  (u : NeuroidCeilings) :
  tidy_meta u ->
  (forall c', In c' (coords t) -> In (coord_name c') reserved_names) ->
  add_neuroid_meta self t u = unit_element (values t) (dims t) (coords t) (meta_coords u).
Proof.
  intros [Hnd Hres] Hbase. unfold add_neuroid_meta, ceilings_coords.
  rewrite fold_left_app, fold_meta_coords.
  - cbn [fold_left coord_dims].
    rewrite sub_axis_is_not_neuroid.
    change (array_is_element ["num_subjects"%string] "neuroid") with false.
    cbv iota. reflexivity.
  - exact Hnd.
  - cbn [coords]. intros c' Hc' Hin. exact (Hres _ Hin (Hbase c' Hc')).
Qed.

(** What [_coords_match] compares on the [neuroid] axis of a per-unit
    array: one entry per coordinate of the unit. *)
Lemma merge_coords_neuroid (x : ndarray) (ds : list string) (base meta : list coord) :
  Forall (fun c => exists d, coord_dims c = [d] /\ d <> "neuroid"%string) base ->
  Forall (fun c => coord_dims c = ["neuroid"%string]) meta ->
  merge_coords (unit_element x ds base meta) "neuroid" false
  = repeat (["neuroid"%string], []) (length meta).
Proof.
  intros Hbase Hmeta. unfold merge_coords, walk_coords, getitem_dim, unit_element.
  cbn [coords]. rewrite filter_app, map_app.
  assert (H1 : filter (fun c => forallb (String.eqb "neuroid") (coord_dims c)) base = []).
  { induction Hbase as [| c base [d [Hd Hne]] _ IH]; [reflexivity |].
    cbn [filter]. rewrite Hd. cbn [forallb].
    rewrite (proj2 (String.eqb_neq _ _) (not_eq_sym Hne)). cbn [andb]. exact IH. }
  rewrite H1. cbn [map app].
  induction Hmeta as [| c meta Hc _ IH]; [reflexivity |].
  cbn [filter]. rewrite Hc. cbn [forallb]. rewrite String.eqb_refl. cbn [andb map length repeat].
  rewrite Hc. f_equal. exact IH.
Qed.

(** On another axis it compares the coordinates the array had before the
    unit's coordinates were attached. *)
Lemma merge_coords_other (x : ndarray) (ds : list string) (base meta : list coord)
  (dim : string) :
  dim <> "neuroid"%string ->
  Forall (fun c => coord_dims c = ["neuroid"%string]) meta ->
  merge_coords (unit_element x ds base meta) dim true
  = map (fun c => (coord_dims c, coord_values c))
        (filter (fun c => forallb (String.eqb dim) (coord_dims c)) base).
Proof.
  intros Hne Hmeta. unfold merge_coords, walk_coords, getitem_dim, unit_element.
  cbn [coords]. rewrite filter_app, map_app.
  assert (H2 : filter (fun c => forallb (String.eqb dim) (coord_dims c)) meta = []).
  { induction Hmeta as [| c meta Hc _ IH]; [reflexivity |].
    cbn [filter]. rewrite Hc. cbn [forallb].
    rewrite (proj2 (String.eqb_neq _ _) Hne). cbn [andb]. exact IH. }
  rewrite H2. cbn [map]. rewrite app_nil_r. reflexivity.
Qed.

Lemma meta_coords_dims (u : NeuroidCeilings) :
  Forall (fun c => coord_dims c = ["neuroid"%string]) (meta_coords u).
Proof.
  unfold meta_coords. apply Forall_forall. intros c Hc.
  apply in_map_iff in Hc. destruct Hc as [kv [<- _]]. reflexivity.
Qed.

Lemma meta_coords_length (u : NeuroidCeilings) :
  length (meta_coords u) = length (neuroid_meta u).
Proof. unfold meta_coords. apply length_map. Qed.

Lemma remove_string_In (x dim : string) (l : list string) :
  In dim (remove_string x (nodup string_dec l)) <-> In dim l /\ dim <> x.
Proof.
  unfold remove_string. rewrite filter_In, nodup_In, negb_true_iff, String.eqb_neq.
  reflexivity.
Qed.

(** [merge] succeeds when the elements have the axes of the first, the merge
    axis is one of them, what [_coords_match] compares agrees on every axis,
    and the buffers concatenate. *)
Lemma merge_Ok_intro (first : DataAssembly) (rest : list DataAssembly) (on : string)
  (axis : nat) (vals : ndarray) :
  (forall e, In e rest -> dims e = dims first) ->
  index_of on (dims first) = Some axis ->
  (forall e, In e rest -> merge_coords e on false = merge_coords first on false) ->
  (forall dim e, In dim (dims first) -> dim <> on -> In e rest ->
                 merge_coords e dim true = merge_coords first dim true) ->
  concatenate axis (map values (first :: rest)) = Ok vals ->
  merge (first :: rest) on
  = Ok {| values := vals; dims := dims first;
          coords := merged_coords (first :: rest) on |}.
Proof.
  intros Hdims Hindex Hon Hother Hcat. unfold merge.
  assert (H1 : forallb (fun element => list_eqb String.eqb (dims element) (dims first))
                       rest = true).
  { apply forallb_forall. intros e He. apply list_eqb_string_eq. apply Hdims. exact He. }
  rewrite H1, Hindex. cbn [negb].
  assert (H2 : _coords_match (first :: rest) on false = true).
  { unfold _coords_match. apply forallb_forall. intros e He.
    apply merge_coords_eqb_eq. symmetry. apply Hon. exact He. }
  rewrite H2. cbn [negb].
  assert (H3 : forallb (fun dim => _coords_match (first :: rest) dim true)
                       (remove_string on (nodup string_dec (dims first))) = true).
  { apply forallb_forall. intros dim Hdim. apply remove_string_In in Hdim.
    destruct Hdim as [Hin Hne].
    unfold _coords_match. apply forallb_forall. intros e He.
    apply merge_coords_eqb_eq. symmetry. apply Hother; assumption. }
  rewrite H3. cbn [negb]. rewrite Hcat. reflexivity.
Qed.

(** [merge] raises [AssertionError] when the elements have the same axes and
    agree on the merge axis, and one of them differs from the first in the
    coordinates of another axis. *)
Lemma merge_AssertionError_intro (first : DataAssembly) (rest : list DataAssembly)
  (on : string) (axis : nat) (dim : string) (e : DataAssembly) :
  (forall e, In e rest -> dims e = dims first) ->
  index_of on (dims first) = Some axis ->
  (forall e, In e rest -> merge_coords e on false = merge_coords first on false) ->
  In dim (dims first) -> dim <> on -> In e rest ->
  merge_coords e dim true <> merge_coords first dim true ->
  merge (first :: rest) on = Raise AssertionError.
Proof.
  intros Hdims Hindex Hon Hdim Hne He Hdiff. unfold merge.
  assert (H1 : forallb (fun element => list_eqb String.eqb (dims element) (dims first))
                       rest = true).
  { apply forallb_forall. intros e' He'. apply list_eqb_string_eq. apply Hdims. exact He'. }
  rewrite H1, Hindex. cbn [negb].
  assert (H2 : _coords_match (first :: rest) on false = true).
  { unfold _coords_match. apply forallb_forall. intros e' He'.
    apply merge_coords_eqb_eq. symmetry. apply Hon. exact He'. }
  rewrite H2. cbn [negb].
  assert (H3 : forallb (fun dim => _coords_match (first :: rest) dim true)
                       (remove_string on (nodup string_dec (dims first))) = false).
  { apply not_true_is_false. intros Hall. rewrite forallb_forall in Hall.
    assert (Hin : In dim (remove_string on (nodup string_dec (dims first))))
      by (apply remove_string_In; split; assumption).
    specialize (Hall dim Hin). unfold _coords_match in Hall.
    rewrite forallb_forall in Hall. specialize (Hall e He).
    apply merge_coords_eqb_eq in Hall. apply Hdiff. symmetry. exact Hall. }
  rewrite H3. reflexivity.
Qed.

Lemma unit_elements_values {T : Type} (X : T -> ndarray) (ds : list string)
  (B M : T -> list coord) (ts : list T) :
  concatenate 0 (map values (map (fun t => unit_element (X t) ds (B t) (M t)) ts))
  = Ok (Array (map X ts)).
Proof.
  rewrite concatenate_0.
  - f_equal. f_equal. induction ts as [| t ts IH]; [reflexivity |].
    cbn [map flat_map values unit_element items_of app]. rewrite IH. reflexivity.
  - induction ts as [| t ts IH]; [reflexivity |].
    cbn [map existsb values unit_element is_scalar orb]. exact IH.
Qed.

(** The per-unit arrays of units with as many coordinates each, and with the
    same coordinates off the [neuroid] axis, merge into the array of their
    values. *)
Lemma merge_unit_elements {T : Type} (X : T -> ndarray) (ds : list string)
  (B M : T -> list coord) (t0 : T) (ts : list T) :
  (forall t, In t (t0 :: ts) -> Forall off_neuroid (B t)) ->
  (forall t, In t (t0 :: ts) ->
             Forall (fun c => coord_dims c = ["neuroid"%string]) (M t)) ->
  (forall t, In t ts -> length (M t) = length (M t0)) ->
  (forall t, In t ts -> B t = B t0) ->
  merge (map (fun t => unit_element (X t) ds (B t) (M t)) (t0 :: ts)) "neuroid"
  = Ok {| values := Array (map X (t0 :: ts));
          dims := "neuroid"%string :: ds;
          coords := merged_coords
                      (map (fun t => unit_element (X t) ds (B t) (M t)) (t0 :: ts))
                      "neuroid" |}.
Proof.
  intros HB HM Hlen Hbase.
  cbn [map].
  rewrite (merge_Ok_intro (unit_element (X t0) ds (B t0) (M t0))
             (map (fun t => unit_element (X t) ds (B t) (M t)) ts) "neuroid" 0
             (Array (map X (t0 :: ts)))).
  - reflexivity.
  - intros e He. apply in_map_iff in He. destruct He as [t [<- _]]. reflexivity.
  - cbn [dims unit_element index_of]. rewrite String.eqb_refl. reflexivity.
  - intros e He. apply in_map_iff in He. destruct He as [t [<- Ht]].
    rewrite !merge_coords_neuroid.
    + rewrite (Hlen t Ht). reflexivity.
    + apply HB. left. reflexivity.
    + apply HM. left. reflexivity.
    + apply HB. right. exact Ht.
    + apply HM. right. exact Ht.
  - intros dim e _ Hne He. apply in_map_iff in He. destruct He as [t [<- Ht]].
    rewrite !merge_coords_other.
    + rewrite (Hbase t Ht). reflexivity.
    + exact Hne.
    + apply HM. left. reflexivity.
    + exact Hne.
    + apply HM. right. exact Ht.
  - exact (unit_elements_values X ds B M (t0 :: ts)).
Qed.

(** They cannot be merged when one of them differs from the first in the
    coordinates of another axis. *)
Lemma merge_unit_elements_mismatch {T : Type} (X : T -> ndarray) (ds : list string)
  (B M : T -> list coord) (t0 : T) (ts : list T) (dim : string) (t : T) :
  (forall t, In t (t0 :: ts) -> Forall off_neuroid (B t)) ->
  (forall t, In t (t0 :: ts) ->
             Forall (fun c => coord_dims c = ["neuroid"%string]) (M t)) ->
  (forall t, In t ts -> length (M t) = length (M t0)) ->
  In dim ds -> dim <> "neuroid"%string -> In t ts ->
  map (fun c => (coord_dims c, coord_values c))
      (filter (fun c => forallb (String.eqb dim) (coord_dims c)) (B t))
  <> map (fun c => (coord_dims c, coord_values c))
         (filter (fun c => forallb (String.eqb dim) (coord_dims c)) (B t0)) ->
  merge (map (fun t => unit_element (X t) ds (B t) (M t)) (t0 :: ts)) "neuroid"
  = Raise AssertionError.
Proof.
  intros HB HM Hlen Hdim Hne Ht Hdiff.
  cbn [map].
  apply (merge_AssertionError_intro (unit_element (X t0) ds (B t0) (M t0))
           (map (fun t => unit_element (X t) ds (B t) (M t)) ts) "neuroid" 0 dim
           (unit_element (X t) ds (B t) (M t))).
  - intros e He. apply in_map_iff in He. destruct He as [t' [<- _]]. reflexivity.
  - cbn [dims unit_element index_of]. rewrite String.eqb_refl. reflexivity.
  - intros e He. apply in_map_iff in He. destruct He as [t' [<- Ht']].
    rewrite !merge_coords_neuroid.
    + rewrite (Hlen t' Ht'). reflexivity.
    + apply HB. left. reflexivity.
    + apply HM. left. reflexivity.
    + apply HB. right. exact Ht'.
    + apply HM. right. exact Ht'.
  - right. exact Hdim.
  - exact Hne.
  - exact (in_map (fun t => unit_element (X t) ds (B t) (M t)) ts t Ht).
  - rewrite !merge_coords_other.
    + exact Hdiff.
    + exact Hne.
    + apply HM. left. reflexivity.
    + exact Hne.
    + apply HM. right. exact Ht.
Qed.

Lemma off_neuroid_filters (base : list coord) :
  Forall off_neuroid base ->
  filter (fun c => negb (array_is_element (coord_dims c) "neuroid")) base = base
  /\ filter (fun c => array_is_element (coord_dims c) "neuroid") base = []
  /\ filter (fun c => negb (mem "neuroid" (coord_dims c))) base = base.
Proof.
  induction 1 as [| c base [d [Hd Hne]] _ [IH1 [IH2 IH3]]]; [repeat split |].
  cbn [filter]. rewrite Hd. cbn [array_is_element]. unfold mem. cbn [existsb].
  rewrite (proj2 (String.eqb_neq _ _) Hne).
  rewrite (proj2 (String.eqb_neq _ _) (not_eq_sym Hne)). cbn [orb negb].
  fold (mem "neuroid"). rewrite IH1, IH2.
  repeat split. f_equal. exact IH3.
Qed.

Lemma on_neuroid_filters (meta : list coord) (f : coord -> coord) :
  (forall c, coord_dims (f c) = coord_dims c) ->
  Forall (fun c => coord_dims c = ["neuroid"%string]) meta ->
  filter (fun c => negb (array_is_element (coord_dims c) "neuroid")) meta = []
  /\ filter (fun c => negb (mem "neuroid" (coord_dims c)))
            (map f (filter (fun c => array_is_element (coord_dims c) "neuroid") meta))
     = [].
Proof.
  intros Hf. induction 1 as [| c meta Hc _ [IH1 IH2]]; [repeat split |].
  cbn [filter]. rewrite Hc. cbn [array_is_element]. rewrite String.eqb_refl.
  cbn [negb map filter]. rewrite Hf, Hc. unfold mem at 1. cbn [existsb].
  rewrite String.eqb_refl. cbn [orb negb]. split; assumption.
Qed.

(** Off the [neuroid] axis, the merged array keeps the coordinates of the
    first element. *)
Lemma merged_coords_off_neuroid (x : ndarray) (ds : list string)
  (base meta : list coord) (rest : list DataAssembly) :
  Forall off_neuroid base ->
  Forall (fun c => coord_dims c = ["neuroid"%string]) meta ->
  filter (fun c => negb (mem "neuroid" (coord_dims c)))
         (merged_coords (unit_element x ds base meta :: rest) "neuroid")
  = base.
Proof.
  intros Hbase Hmeta. unfold merged_coords, walk_coords, unit_element. cbn [coords].
  destruct (off_neuroid_filters base Hbase) as [H1 [H2 H3]].
  rewrite !filter_app. rewrite H1, H2, H3. cbn [app].
  match goal with
  | |- context [map ?f (filter _ meta)] =>
      destruct (on_neuroid_filters meta f (fun c => eq_refl) Hmeta) as [H4 H5];
      rewrite H4, H5
  end.
  cbn [filter]. rewrite !app_nil_r. reflexivity.
Qed.

(* ------------------------------------------------------------------ *)
(** ** The aggregate of [extrapolate] *)

Lemma zip_items_triples {T : Type} (f g h : T -> ndarray) (l : list T) :
  l <> [] ->
  zip_items (map (fun t => [f t; g t; h t]) l) = [map f l; map g l; map h l].
Proof.
  induction l as [| a l IH]; [congruence | intros _].
  destruct l as [| b l]; [reflexivity |].
  change (map (fun t => [f t; g t; h t]) (a :: b :: l))
    with ([f a; g a; h a] :: map (fun t => [f t; g t; h t]) (b :: l)).
  cbn [zip_items]. cbn [map] in IH |- *.
  destruct (map (fun t => [f t; g t; h t]) l) eqn:Hrows.
  - cbn [zip_items] in IH |- *.
    destruct l; [reflexivity | discriminate].
  - rewrite IH by discriminate. reflexivity.
Qed.

Lemma median_dim_neuroid (items : list ndarray) (ds : list string) (cs : list coord) :
  median_dim {| values := Array items; dims := "neuroid"%string :: ds; coords := cs |}
    "neuroid"
  = Ok {| values := median_items (length ds) items;
          dims := remove_string "neuroid" ("neuroid"%string :: ds);
          coords := filter (fun c => negb (mem "neuroid" (coord_dims c))) cs |}.
Proof.
  unfold median_dim. cbn [dims index_of]. rewrite String.eqb_refl.
  cbn [values coords median_axis length items_of Nat.sub].
  rewrite Nat.sub_0_r. reflexivity.
Qed.

Section AggregateFacts.

Variable rng_state : Type.
Variable RandomState : nat -> rng_state.
Variable choice : rng_state -> list R -> nat -> list R * rng_state.
Variable curve_fit : list R -> list (option R) -> result (R * R).
Variable self : ExtrapolationCeiling.

Local Abbreviation run_neuroid := (extrapolate_neuroid RandomState choice curve_fit self).
Local Abbreviation run_loop := (extrapolate_loop RandomState choice curve_fit self).
Local Abbreviation run := (extrapolate RandomState choice curve_fit self).
Local Abbreviation units_of := (extrapolated_units RandomState choice curve_fit self).

Lemma extrapolated_units_In (ceilings : list NeuroidCeilings) (u : NeuroidCeilings)
  (r : Ceiling NeuroidCeilings) :
  In (u, r) (units_of ceilings) <-> In u ceilings /\ run_neuroid u = Ok r.
Proof.
  unfold extrapolated_units. rewrite in_flat_map. split.
  - intros [u' [Hu' Hin]]. destruct (run_neuroid u') as [r' | e] eqn:Hr; [| destruct Hin].
    destruct Hin as [Heq | []]. injection Heq as <- <-. split; assumption.
  - intros [Hu Hr]. exists u. split; [exact Hu |]. rewrite Hr. left. reflexivity.
Qed.

(** When no unit ends the loop, the three lists hold one array per
    extrapolated unit. *)
Lemma extrapolate_loop_units (ceilings : list NeuroidCeilings) :
  (forall u e, In u ceilings -> run_neuroid u = Raise e -> is_KeyError e = true) ->
  forall acc,
    run_loop ceilings acc
    = Ok {| neuroid_ceilings :=
              neuroid_ceilings acc
              ++ map (fun ur => add_neuroid_meta self (ceiling_score (snd ur)) (fst ur))
                     (units_of ceilings);
            bootstrap_params_list :=
              bootstrap_params_list acc
              ++ map (fun ur => add_neuroid_meta self (bootstrapped_params (snd ur))
                                  (fst ur))
                     (units_of ceilings);
            endpoint_xs :=
              endpoint_xs acc
              ++ map (fun ur => add_neuroid_meta self (endpoint_x (snd ur)) (fst ur))
                     (units_of ceilings) |}.
Proof.
  induction ceilings as [| u ceilings IH]; intros Hno acc.
  - cbn. rewrite !app_nil_r. destruct acc; reflexivity.
  - cbn [extrapolate_loop]. unfold extrapolated_units. cbn [flat_map].
    fold (units_of ceilings).
    destruct (run_neuroid u) as [r | e] eqn:Hu.
    + rewrite IH by (intros u' e' Hin; apply Hno; right; exact Hin).
      cbn [neuroid_ceilings bootstrap_params_list endpoint_xs app map fst snd].
      rewrite <- !app_assoc. reflexivity.
    + pose proof (Hno u e (or_introl eq_refl) Hu) as Hk.
      destruct e; try discriminate.
      rewrite IH by (intros u' e' Hin; apply Hno; right; exact Hin). reflexivity.
Qed.

End AggregateFacts.

Lemma aggregation_coords_off_neuroid (c : R) (e : R * R) :
  Forall off_neuroid (coords (aggregation_score c e)).
Proof.
  repeat constructor. exists "aggregation"%string. split; [reflexivity | discriminate].
Qed.

Lemma params_coords_off_neuroid (rounds : list label) :
  Forall off_neuroid
    [ {| coord_name := "bootstrap"; coord_dims := ["bootstrap"%string];
         coord_values := rounds |};
      {| coord_name := "param"; coord_dims := ["param"%string];
         coord_values := [LStr "v0"; LStr "tau0"] |} ].
Proof.
  repeat constructor.
  - exists "bootstrap"%string. split; [reflexivity | discriminate].
  - exists "param"%string. split; [reflexivity | discriminate].
Qed.

Lemma unit_score_element (self : ExtrapolationCeiling) (u : NeuroidCeilings)
  (params : list (nat * (R * R))) (x : nat) :
  tidy_meta u ->
  add_neuroid_meta self (ceiling_score (packaged u params x)) u
  = unit_element
      (Array [Scalar (sel_aggregation (ceiling_score (packaged u params x)) "center");
              Scalar (sel_aggregation (ceiling_score (packaged u params x)) "error_low");
              Scalar (sel_aggregation (ceiling_score (packaged u params x)) "error_high")])
      ["aggregation"%string] (coords (aggregation_score 0 (0, 0))) (meta_coords u).
Proof.
  intros Htidy. rewrite add_neuroid_meta_eq; [reflexivity | exact Htidy |].
  intros c' [<- | []]. left. reflexivity.
Qed.

Lemma unit_params_element (self : ExtrapolationCeiling) (u : NeuroidCeilings)
  (params : list (nat * (R * R))) (x : nat) :
  tidy_meta u ->
  add_neuroid_meta self (bootstrapped_params (packaged u params x)) u
  = unit_element (values (params_assembly params)) ["bootstrap"%string; "param"%string]
      [ {| coord_name := "bootstrap"; coord_dims := ["bootstrap"%string];
           coord_values := fitted_rounds (packaged u params x) |};
        {| coord_name := "param"; coord_dims := ["param"%string];
           coord_values := [LStr "v0"; LStr "tau0"] |} ]
      (meta_coords u).
Proof.
  intros Htidy. rewrite add_neuroid_meta_eq; [reflexivity | exact Htidy |].
  intros c' [<- | [<- | []]]; [right; left | right; right; left]; reflexivity.
Qed.

Lemma unit_endpoint_element (self : ExtrapolationCeiling) (u : NeuroidCeilings)
  (params : list (nat * (R * R))) (x : nat) :
  tidy_meta u ->
  add_neuroid_meta self (endpoint_x (packaged u params x)) u
  = unit_element (Scalar (endpoint_value (packaged u params x))) [] [] (meta_coords u).
Proof.
  intros Htidy. rewrite add_neuroid_meta_eq; [reflexivity | exact Htidy |].
  intros c' [].
Qed.

(** The hypotheses shared by the two statements on the merge inside
    [extrapolate]: every kept unit has tidy coordinates, as many as the first
    kept unit. *)
Lemma extrapolated_units_packaged (rng_state : Type) (RandomState : nat -> rng_state)
  (choice : rng_state -> list R -> nat -> list R * rng_state)
  (curve_fit : list R -> list (option R) -> result (R * R))
  (self : ExtrapolationCeiling) (ceilings : list NeuroidCeilings)
  (u : NeuroidCeilings) (r : Ceiling NeuroidCeilings) :
  In (u, r) (extrapolated_units RandomState choice curve_fit self ceilings) ->
  exists params x, r = packaged u params x.
Proof.
  intros Hin. apply extrapolated_units_In in Hin. destruct Hin as [_ Hr].
  apply extrapolate_neuroid_inv in Hr.
  destruct Hr as [params [rng' [x [_ [_ [_ ->]]]]]]. exists params, x. reflexivity.
Qed.

(** When no unit ends the loop and the kept units have tidy coordinates, as
    many each, and the same fitted bootstrap rounds, [extrapolate] returns a
    ceiling whose [center], [error_low] and [error_high] are the medians of
    the per-unit values over the kept units and whose [endpoint_x] is the
    median of their endpoints.  Its raw attribute is the merged per-unit
    ceilings, one row [[center, error_low, error_high]] per kept unit along
    the [neuroid] axis, and the raw attribute of those is the collected
    table. *)
Theorem extrapolate_aggregates_medians (rng_state : Type)
  (RandomState : nat -> rng_state)
  (choice : rng_state -> list R -> nat -> list R * rng_state)
  (curve_fit : list R -> list (option R) -> result (R * R))
  (self : ExtrapolationCeiling) (ceilings : list NeuroidCeilings)
  (u0 : NeuroidCeilings) (r0 : Ceiling NeuroidCeilings)
  (rest : list (NeuroidCeilings * Ceiling NeuroidCeilings)) :
  (forall u e, In u ceilings ->
               extrapolate_neuroid RandomState choice curve_fit self u = Raise e ->
               is_KeyError e = true) ->
  extrapolated_units RandomState choice curve_fit self ceilings = (u0, r0) :: rest ->
  (forall u r, In (u, r) ((u0, r0) :: rest) ->
               tidy_meta u
               /\ length (neuroid_meta u) = length (neuroid_meta u0)
               /\ fitted_rounds r = fitted_rounds r0) ->
  exists c,
    extrapolate RandomState choice curve_fit self ceilings = Ok c
    /\ ceiling_score c
       = aggregation_score
           (Np.median (map (fun ur => sel_aggregation (ceiling_score (snd ur)) "center")
                           ((u0, r0) :: rest)))
           (Np.median (map (fun ur => sel_aggregation (ceiling_score (snd ur)) "error_low")
                           ((u0, r0) :: rest)),
            Np.median (map (fun ur => sel_aggregation (ceiling_score (snd ur)) "error_high")
                           ((u0, r0) :: rest)))
    /\ endpoint_x c
       = scalar_assembly
           (Np.median (map (fun ur => endpoint_value (snd ur)) ((u0, r0) :: rest)))
    /\ dims (ceiling_score (ceiling_raw c)) = ["neuroid"%string; "aggregation"%string]
    /\ values (ceiling_score (ceiling_raw c))
       = Array (map (fun ur =>
                       Array [Scalar (sel_aggregation (ceiling_score (snd ur)) "center");
                              Scalar (sel_aggregation (ceiling_score (snd ur)) "error_low");
                              Scalar (sel_aggregation (ceiling_score (snd ur))
                                        "error_high")])
                    ((u0, r0) :: rest))
    /\ ceiling_raw (ceiling_raw c) = ceilings.
Proof.
  intros Hno Hunits Hall.
  set (units := (u0, r0) :: rest) in *.
  assert (Hpack : forall ur, In ur units ->
            exists params x, snd ur = packaged (fst ur) params x).
  { intros [u r] Hin. cbn [fst snd]. rewrite <- Hunits in Hin.
    exact (extrapolated_units_packaged _ _ _ _ _ _ _ _ Hin). }
  assert (Htidy : forall ur, In ur units -> tidy_meta (fst ur)).
  { intros [u r] Hin. exact (proj1 (Hall u r Hin)). }
  unfold extrapolate.
  rewrite (extrapolate_loop_units _ RandomState choice curve_fit self ceilings Hno).
  cbn [bind neuroid_ceilings bootstrap_params_list endpoint_xs app]. rewrite Hunits.
  fold units.
  rewrite (map_ext_in
             (fun ur => add_neuroid_meta self (ceiling_score (snd ur)) (fst ur))
             (fun ur => unit_element
                (Array [Scalar (sel_aggregation (ceiling_score (snd ur)) "center");
                        Scalar (sel_aggregation (ceiling_score (snd ur)) "error_low");
                        Scalar (sel_aggregation (ceiling_score (snd ur)) "error_high")])
                ["aggregation"%string] (coords (aggregation_score 0 (0, 0)))
                (meta_coords (fst ur))) units)
    by (intros ur Hin; destruct (Hpack ur Hin) as [params [x ->]];
        apply unit_score_element; apply Htidy; exact Hin).
  rewrite (map_ext_in
             (fun ur => add_neuroid_meta self (bootstrapped_params (snd ur)) (fst ur))
             (fun ur => unit_element (values (bootstrapped_params (snd ur)))
                ["bootstrap"%string; "param"%string]
                [ {| coord_name := "bootstrap"; coord_dims := ["bootstrap"%string];
                     coord_values := fitted_rounds (snd ur) |};
                  {| coord_name := "param"; coord_dims := ["param"%string];
                     coord_values := [LStr "v0"; LStr "tau0"] |} ]
                (meta_coords (fst ur))) units)
    by (intros ur Hin; destruct (Hpack ur Hin) as [params [x ->]];
        apply unit_params_element; apply Htidy; exact Hin).
  rewrite (map_ext_in
             (fun ur => add_neuroid_meta self (endpoint_x (snd ur)) (fst ur))
             (fun ur => unit_element (Scalar (endpoint_value (snd ur))) [] []
                          (meta_coords (fst ur))) units)
    by (intros ur Hin; destruct (Hpack ur Hin) as [params [x ->]];
        apply unit_endpoint_element; apply Htidy; exact Hin).
  assert (Hlen : forall ur, In ur rest ->
            length (meta_coords (fst ur)) = length (meta_coords (fst (u0, r0)))).
  { intros [u r] Hin. rewrite !meta_coords_length.
    exact (proj1 (proj2 (Hall u r (or_intror Hin)))). }
  assert (Hmeta : forall ur, In ur units ->
            Forall (fun c => coord_dims c = ["neuroid"%string]) (meta_coords (fst ur)))
    by (intros; apply meta_coords_dims).
  unfold units.
  rewrite merge_unit_elements;
    [ | intros; apply aggregation_coords_off_neuroid | exact Hmeta | exact Hlen
      | reflexivity ].
  cbn [bind].
  rewrite merge_unit_elements;
    [ | intros; apply params_coords_off_neuroid | exact Hmeta | exact Hlen | ].
  2:{ intros [u r] Hin. cbn [snd].
      rewrite (proj2 (proj2 (Hall u r (or_intror Hin)))). reflexivity. }
  cbn [bind].
  rewrite merge_unit_elements;
    [ | intros; constructor | exact Hmeta | exact Hlen | reflexivity ].
  cbn [bind].
  unfold aggregate_neuroid_ceilings.
  cbn [ceiling_score bootstrapped_params endpoint_x].
  rewrite !median_dim_neuroid. cbn [bind].
  eexists. split; [reflexivity |].
  cbn [ceiling_score endpoint_x ceiling_raw].
  split; [| split; [| split; [reflexivity | split; reflexivity]]].
  - cbn [map]. rewrite merged_coords_off_neuroid;
      [ | apply aggregation_coords_off_neuroid | apply meta_coords_dims ].
    unfold aggregation_score. f_equal.
    cbn [length median_items].
    change (map items_of
              (Array [Scalar (sel_aggregation (ceiling_score (snd (u0, r0))) "center");
                      Scalar (sel_aggregation (ceiling_score (snd (u0, r0))) "error_low");
                      Scalar (sel_aggregation (ceiling_score (snd (u0, r0))) "error_high")]
               :: map (fun ur =>
                    Array [Scalar (sel_aggregation (ceiling_score (snd ur)) "center");
                           Scalar (sel_aggregation (ceiling_score (snd ur)) "error_low");
                           Scalar (sel_aggregation (ceiling_score (snd ur)) "error_high")])
                    rest))
      with (map items_of
              (map (fun ur =>
                    Array [Scalar (sel_aggregation (ceiling_score (snd ur)) "center");
                           Scalar (sel_aggregation (ceiling_score (snd ur)) "error_low");
                           Scalar (sel_aggregation (ceiling_score (snd ur)) "error_high")])
                   ((u0, r0) :: rest))).
    rewrite map_map. cbn [items_of].
    rewrite (zip_items_triples
               (fun ur => Scalar (sel_aggregation (ceiling_score (snd ur)) "center"))
               (fun ur => Scalar (sel_aggregation (ceiling_score (snd ur)) "error_low"))
               (fun ur => Scalar (sel_aggregation (ceiling_score (snd ur)) "error_high")))
      by discriminate.
    cbn [map fst snd]. rewrite !map_map. cbn [scalar_value]. reflexivity.
  - cbn [map]. rewrite merged_coords_off_neuroid;
      [ | constructor | apply meta_coords_dims ].
    unfold scalar_assembly. f_equal.
    cbn [length median_items].
    change (Scalar (endpoint_value (snd (u0, r0)))
            :: map (fun ur => Scalar (endpoint_value (snd ur))) rest)
      with (map (fun ur => Scalar (endpoint_value (snd ur))) ((u0, r0) :: rest)).
    rewrite map_map. cbn [scalar_value]. reflexivity.
Qed.

Lemma flat_steady_extrapolate_neuroid :
  extrapolate_neuroid Example.RandomState Example.choice Example.fit_flat
    Example.self Example.steady_subjects
  = Ok (packaged Example.steady_subjects [(0%nat, (1 / 10000, 1))] 0).
Proof.
  assert (H : bootstrap_from Example.choice Example.fit_flat Example.self
                (Example.RandomState 0%nat) Example.steady_subjects
              = Ok ([(0%nat, (1 / 10000, 1))], 2%nat)) by reflexivity.
  rewrite (extrapolate_neuroid_from _ _ _ _ _ H).
  apply endpoint_and_error_Ok; [discriminate | exact flat_params_first_flat].
Qed.

Lemma flat_units :
  extrapolated_units Example.RandomState Example.choice Example.fit_flat Example.self
    [Example.three_subjects; Example.steady_subjects]
  = [ (Example.three_subjects,
       packaged Example.three_subjects [(0%nat, (1 / 10000, 1))] 0);
      (Example.steady_subjects,
       packaged Example.steady_subjects [(0%nat, (1 / 10000, 1))] 0) ].
Proof.
  unfold extrapolated_units. cbn [flat_map].
  rewrite flat_extrapolate_neuroid, flat_steady_extrapolate_neuroid. reflexivity.
Qed.

Lemma example_tidy_meta :
  tidy_meta Example.three_subjects /\ tidy_meta Example.steady_subjects.
Proof.
  split; (split; [repeat constructor; intros [] |]);
    intros name [<- | []] [H | [H | [H | []]]]; discriminate.
Qed.

Lemma extrapolate_aggregates_medians_witness :
  exists c,
    extrapolate Example.RandomState Example.choice Example.fit_flat Example.self
      [Example.three_subjects; Example.steady_subjects] = Ok c
    /\ ceiling_score c
       = aggregation_score
           (Np.median
              (map (fun ur => sel_aggregation (ceiling_score (snd ur)) "center")
                 [ (Example.three_subjects,
                    packaged Example.three_subjects [(0%nat, (1 / 10000, 1))] 0);
                   (Example.steady_subjects,
                    packaged Example.steady_subjects [(0%nat, (1 / 10000, 1))] 0) ]))
           (Np.median
              (map (fun ur => sel_aggregation (ceiling_score (snd ur)) "error_low")
                 [ (Example.three_subjects,
                    packaged Example.three_subjects [(0%nat, (1 / 10000, 1))] 0);
                   (Example.steady_subjects,
                    packaged Example.steady_subjects [(0%nat, (1 / 10000, 1))] 0) ]),
            Np.median
              (map (fun ur => sel_aggregation (ceiling_score (snd ur)) "error_high")
                 [ (Example.three_subjects,
                    packaged Example.three_subjects [(0%nat, (1 / 10000, 1))] 0);
                   (Example.steady_subjects,
                    packaged Example.steady_subjects [(0%nat, (1 / 10000, 1))] 0) ]))
    /\ endpoint_x c
       = scalar_assembly
           (Np.median
              (map (fun ur => endpoint_value (snd ur))
                 [ (Example.three_subjects,
                    packaged Example.three_subjects [(0%nat, (1 / 10000, 1))] 0);
                   (Example.steady_subjects,
                    packaged Example.steady_subjects [(0%nat, (1 / 10000, 1))] 0) ]))
    /\ dims (ceiling_score (ceiling_raw c)) = ["neuroid"%string; "aggregation"%string]
    /\ values (ceiling_score (ceiling_raw c))
       = Array (map (fun ur =>
                       Array [Scalar (sel_aggregation (ceiling_score (snd ur)) "center");
                              Scalar (sel_aggregation (ceiling_score (snd ur)) "error_low");
                              Scalar (sel_aggregation (ceiling_score (snd ur))
                                        "error_high")])
                    [ (Example.three_subjects,
                    packaged Example.three_subjects [(0%nat, (1 / 10000, 1))] 0);
                   (Example.steady_subjects,
                    packaged Example.steady_subjects [(0%nat, (1 / 10000, 1))] 0) ])
    /\ ceiling_raw (ceiling_raw c) = [Example.three_subjects; Example.steady_subjects].
Proof.
  refine (extrapolate_aggregates_medians nat Example.RandomState Example.choice
            Example.fit_flat Example.self
            [Example.three_subjects; Example.steady_subjects]
            Example.three_subjects _ [_] _ flat_units _).
  - intros u e [<- | [<- | []]] H.
    + rewrite flat_extrapolate_neuroid in H. discriminate.
    + rewrite flat_steady_extrapolate_neuroid in H. discriminate.
  - intros u r [H | [H | []]]; injection H as <- <-.
    + split; [exact (proj1 example_tidy_meta) | split; reflexivity].
    + split; [exact (proj2 example_tidy_meta) | split; reflexivity].
Defined.

(** When no unit ends the loop and the kept units have tidy coordinates, as
    many each, but one of them has fitted other bootstrap rounds than the
    first kept unit, the merge of the bootstrapped parameters fails its
    assertion on the [bootstrap] coordinate: [extrapolate] raises
    [AssertionError]. *)
Theorem extrapolate_rejects_different_rounds (rng_state : Type)
  (RandomState : nat -> rng_state)
  (choice : rng_state -> list R -> nat -> list R * rng_state)
  (curve_fit : list R -> list (option R) -> result (R * R))
  (self : ExtrapolationCeiling) (ceilings : list NeuroidCeilings)
  (u0 u1 : NeuroidCeilings) (r0 r1 : Ceiling NeuroidCeilings)
  (rest : list (NeuroidCeilings * Ceiling NeuroidCeilings)) :
  (forall u e, In u ceilings ->
               extrapolate_neuroid RandomState choice curve_fit self u = Raise e ->
               is_KeyError e = true) ->
  extrapolated_units RandomState choice curve_fit self ceilings = (u0, r0) :: rest ->
  (forall u r, In (u, r) ((u0, r0) :: rest) ->
               tidy_meta u /\ length (neuroid_meta u) = length (neuroid_meta u0)) ->
  In (u1, r1) rest ->
  fitted_rounds r1 <> fitted_rounds r0 ->
  extrapolate RandomState choice curve_fit self ceilings = Raise AssertionError.
Proof.
  intros Hno Hunits Hall Hin1 Hdiff.
  set (units := (u0, r0) :: rest) in *.
  assert (Hpack : forall ur, In ur units ->
            exists params x, snd ur = packaged (fst ur) params x).
  { intros [u r] Hin. cbn [fst snd]. rewrite <- Hunits in Hin.
    exact (extrapolated_units_packaged _ _ _ _ _ _ _ _ Hin). }
  assert (Htidy : forall ur, In ur units -> tidy_meta (fst ur)).
  { intros [u r] Hin. exact (proj1 (Hall u r Hin)). }
  unfold extrapolate.
  rewrite (extrapolate_loop_units _ RandomState choice curve_fit self ceilings Hno).
  cbn [bind neuroid_ceilings bootstrap_params_list endpoint_xs app]. rewrite Hunits.
  fold units.
  rewrite (map_ext_in
             (fun ur => add_neuroid_meta self (ceiling_score (snd ur)) (fst ur))
             (fun ur => unit_element
                (Array [Scalar (sel_aggregation (ceiling_score (snd ur)) "center");
                        Scalar (sel_aggregation (ceiling_score (snd ur)) "error_low");
                        Scalar (sel_aggregation (ceiling_score (snd ur)) "error_high")])
                ["aggregation"%string] (coords (aggregation_score 0 (0, 0)))
                (meta_coords (fst ur))) units)
    by (intros ur Hin; destruct (Hpack ur Hin) as [params [x ->]];
        apply unit_score_element; apply Htidy; exact Hin).
  rewrite (map_ext_in
             (fun ur => add_neuroid_meta self (bootstrapped_params (snd ur)) (fst ur))
             (fun ur => unit_element (values (bootstrapped_params (snd ur)))
                ["bootstrap"%string; "param"%string]
                [ {| coord_name := "bootstrap"; coord_dims := ["bootstrap"%string];
                     coord_values := fitted_rounds (snd ur) |};
                  {| coord_name := "param"; coord_dims := ["param"%string];
                     coord_values := [LStr "v0"; LStr "tau0"] |} ]
                (meta_coords (fst ur))) units)
    by (intros ur Hin; destruct (Hpack ur Hin) as [params [x ->]];
        apply unit_params_element; apply Htidy; exact Hin).
  assert (Hlen : forall ur, In ur rest ->
            length (meta_coords (fst ur)) = length (meta_coords (fst (u0, r0)))).
  { intros [u r] Hin. rewrite !meta_coords_length.
    exact (proj2 (Hall u r (or_intror Hin))). }
  assert (Hmeta : forall ur, In ur units ->
            Forall (fun c => coord_dims c = ["neuroid"%string]) (meta_coords (fst ur)))
    by (intros; apply meta_coords_dims).
  unfold units.
  rewrite merge_unit_elements;
    [ | intros; apply aggregation_coords_off_neuroid | exact Hmeta | exact Hlen
      | reflexivity ].
  cbn [bind].
  rewrite (merge_unit_elements_mismatch
             (fun ur => values (bootstrapped_params (snd ur)))
             ["bootstrap"%string; "param"%string]
             (fun ur =>
                [ {| coord_name := "bootstrap"; coord_dims := ["bootstrap"%string];
                     coord_values := fitted_rounds (snd ur) |};
                  {| coord_name := "param"; coord_dims := ["param"%string];
                     coord_values := [LStr "v0"; LStr "tau0"] |} ])
             (fun ur => meta_coords (fst ur))
             (u0, r0) rest "bootstrap" (u1, r1)).
  - reflexivity.
  - intros. apply params_coords_off_neuroid.
  - exact Hmeta.
  - exact Hlen.
  - left. reflexivity.
  - discriminate.
  - exact Hin1.
  - cbn. intros H. injection H as H. exact (Hdiff H).
Qed.

Lemma median_pair_same (a : R) : Np.median [a; a] = a.
Proof.
  unfold Np.median. cbn [Np.sort Np.insert].
  destruct (Np.Rleb a a); cbn; lra.
Qed.

Lemma fit_picky_below (xs : list R) (y : R) (rest : list (option R)) :
  y < 15 / 100 -> Example.fit_picky xs (Some y :: rest) = Ok (1 / 10000, 1).
Proof.
  intros H. unfold Example.fit_picky. destruct (Rlt_dec y (15 / 100)); [reflexivity | tauto].
Qed.

Lemma fit_picky_above (xs : list R) (y : R) (rest : list (option R)) :
  ~ y < 15 / 100 ->
  Example.fit_picky xs (Some y :: rest) = Raise (RuntimeError "Optimal parameters not found").
Proof.
  intros H. unfold Example.fit_picky. destruct (Rlt_dec y (15 / 100)); [tauto | reflexivity].
Qed.

Lemma mean_repeat_6 (a : R) : Np.mean (repeat a 6) = a.
Proof. unfold Np.mean, Np.sum. cbn. lra. Qed.

Lemma mean_repeat_2 (a : R) : Np.mean (repeat a 2) = a.
Proof. unfold Np.mean, Np.sum. cbn. lra. Qed.

Lemma picky_three_bootstrap :
  bootstrap_from Example.cycling_choice Example.fit_picky Example.self2
    (Example.RandomState 0) Example.three_subjects
  = Ok ([(0%nat, (1 / 10000, 1))], 4%nat).
Proof.
  unfold bootstrap_from.
  change (subject_subsamples_of Example.three_subjects) with (Ok [2%nat; 3%nat]).
  cbn [bind Example.self2 num_bootstraps seq bootstrap_rounds].
  change (bootstrap_scores Example.cycling_choice Example.three_subjects
            [2%nat; 3%nat] (Example.RandomState 0) [])
    with (Ok ([Some (Np.mean (repeat (1 / 10) 6)); Some (Np.mean (repeat (4 / 10) 2))],
              2%nat)).
  cbn [bind fst snd]. unfold fit at 1.
  rewrite fit_picky_below by (rewrite mean_repeat_6; lra).
  change (bootstrap_scores Example.cycling_choice Example.three_subjects
            [2%nat; 3%nat] 2%nat [])
    with (Ok ([Some (Np.mean (repeat (2 / 10) 6)); Some (Np.mean (repeat (4 / 10) 2))],
              4%nat)).
  cbn [bind fst snd]. unfold fit.
  rewrite fit_picky_above by (rewrite mean_repeat_6; lra).
  reflexivity.
Qed.

Lemma picky_steady_bootstrap :
  bootstrap_from Example.cycling_choice Example.fit_picky Example.self2
    (Example.RandomState 0) Example.steady_subjects
  = Ok ([(0%nat, (1 / 10000, 1)); (1%nat, (1 / 10000, 1))], 4%nat).
Proof.
  unfold bootstrap_from.
  change (subject_subsamples_of Example.steady_subjects) with (Ok [2%nat; 3%nat]).
  cbn [bind Example.self2 num_bootstraps seq bootstrap_rounds].
  change (bootstrap_scores Example.cycling_choice Example.steady_subjects
            [2%nat; 3%nat] (Example.RandomState 0) [])
    with (Ok ([Some (Np.mean (repeat (1 / 10) 6)); Some (Np.mean (repeat (4 / 10) 2))],
              2%nat)).
  cbn [bind fst snd]. unfold fit at 1.
  rewrite fit_picky_below by (rewrite mean_repeat_6; lra).
  change (bootstrap_scores Example.cycling_choice Example.steady_subjects
            [2%nat; 3%nat] 2%nat [])
    with (Ok ([Some (Np.mean (repeat (1 / 10) 6)); Some (Np.mean (repeat (4 / 10) 2))],
              4%nat)).
  cbn [bind fst snd]. unfold fit.
  rewrite fit_picky_below by (rewrite mean_repeat_6; lra).
  reflexivity.
Qed.

Lemma flat_pair_first_flat :
  first_flat [(0%nat, (1 / 10000, 1)); (1%nat, (1 / 10000, 1))] 0.
Proof.
  unfold first_flat. split; [lia |]. split; [| intros y Hy; lia].
  unfold forward_difference, median_curve. cbn [map].
  unfold curve_at. cbn [fst snd].
  rewrite !median_pair_same. unfold v, asymptote_threshold.
  replace (- INR 0 / 1) with 0 by (simpl; lra).
  replace (- INR 1 / 1) with (- (1)) by (simpl; lra).
  rewrite exp_0. pose proof (exp_pos (- (1))). lra.
Qed.

Lemma picky_units :
  extrapolated_units Example.RandomState Example.cycling_choice Example.fit_picky
    Example.self2 [Example.three_subjects; Example.steady_subjects]
  = [ (Example.three_subjects,
       packaged Example.three_subjects [(0%nat, (1 / 10000, 1))] 0);
      (Example.steady_subjects,
       packaged Example.steady_subjects
         [(0%nat, (1 / 10000, 1)); (1%nat, (1 / 10000, 1))] 0) ].
Proof.
  assert (H3 : extrapolate_neuroid Example.RandomState Example.cycling_choice
                 Example.fit_picky Example.self2 Example.three_subjects
               = Ok (packaged Example.three_subjects [(0%nat, (1 / 10000, 1))] 0)).
  { rewrite (extrapolate_neuroid_from _ _ _ _ _ picky_three_bootstrap).
    apply endpoint_and_error_Ok; [discriminate | exact flat_params_first_flat]. }
  assert (Hs : extrapolate_neuroid Example.RandomState Example.cycling_choice
                 Example.fit_picky Example.self2 Example.steady_subjects
               = Ok (packaged Example.steady_subjects
                       [(0%nat, (1 / 10000, 1)); (1%nat, (1 / 10000, 1))] 0)).
  { rewrite (extrapolate_neuroid_from _ _ _ _ _ picky_steady_bootstrap).
    apply endpoint_and_error_Ok; [discriminate | exact flat_pair_first_flat]. }
  unfold extrapolated_units. cbn [flat_map]. rewrite H3, Hs. reflexivity.
Qed.

Lemma steady_tidy_meta : tidy_meta Example.steady_subjects.
Proof.
  split; [repeat constructor; intros [] |].
  intros name [<- | []] [H | [H | [H | []]]]; discriminate.
Qed.

Lemma extrapolate_rejects_different_rounds_witness :
  extrapolate Example.RandomState Example.cycling_choice Example.fit_picky
    Example.self2 [Example.three_subjects; Example.steady_subjects]
  = Raise AssertionError.
Proof.
  refine (extrapolate_rejects_different_rounds nat Example.RandomState
            Example.cycling_choice Example.fit_picky Example.self2
            [Example.three_subjects; Example.steady_subjects]
            Example.three_subjects Example.steady_subjects _ _ [_] _ picky_units _
            (or_introl eq_refl) _).
  - intros u e Hin H.
    assert (Hu : In u (map fst (extrapolated_units Example.RandomState
                   Example.cycling_choice Example.fit_picky Example.self2
                   [Example.three_subjects; Example.steady_subjects]))).
    { rewrite picky_units. cbn [map fst]. exact Hin. }
    apply in_map_iff in Hu. destruct Hu as [[u' r] [Hfst Hur]]. cbn [fst] in Hfst.
    subst u'. apply extrapolated_units_In in Hur. destruct Hur as [_ Hr].
    rewrite Hr in H. discriminate.
  - intros u r [H | [H | []]]; injection H as <- <-.
    + split; [exact (proj1 example_tidy_meta) | reflexivity].
    + split; [exact steady_tidy_meta | reflexivity].
  - cbv [fitted_rounds packaged bootstrapped_params params_assembly coords coord_values map fst].
    discriminate.
Defined.

(* ------------------------------------------------------------------ *)
(** ** Order statistics: [np.sort], [np.median], [np.percentile] *)

Lemma Rleb_cases (x y : R) :
  (Np.Rleb x y = true /\ x <= y) \/ (Np.Rleb x y = false /\ y < x).
Proof.
  unfold Np.Rleb. destruct (Rle_dec x y); [left | right]; split; auto; lra.
Qed.

Lemma insert_length (x : R) (l : list R) :
  length (Np.insert x l) = S (length l).
Proof.
  induction l as [| y l IH]; cbn [Np.insert length]; [reflexivity |].
  destruct (Np.Rleb x y); cbn [length]; [reflexivity | now rewrite IH].
Qed.

Lemma sort_length (l : list R) : length (Np.sort l) = length l.
Proof.
  induction l as [| x l IH]; cbn [Np.sort length]; [reflexivity |].
  now rewrite insert_length, IH.
Qed.

Lemma insert_In (x y : R) (l : list R) :
  In y (Np.insert x l) <-> y = x \/ In y l.
Proof.
  induction l as [| z l IH]; cbn [Np.insert In].
  - split; intros [H | H]; auto.
  - destruct (Np.Rleb x z); cbn [In]; [| rewrite IH]; intuition auto.
Qed.

Lemma sort_In (y : R) (l : list R) : In y (Np.sort l) <-> In y l.
Proof.
  induction l as [| x l IH]; cbn [Np.sort In]; [tauto |].
  rewrite insert_In, IH. intuition auto.
Qed.

Lemma insert_ascending (x : R) (l : list R) :
  ascending l -> ascending (Np.insert x l).
Proof.
  induction l as [| z l IH]; cbn [Np.insert ascending]; intros H.
  - split; [intros y [] | exact I].
  - destruct H as [Hz Hl]. destruct (Rleb_cases x z) as [[-> Hxz] | [-> Hxz]].
    + cbn [ascending]. split; [| split; assumption].
      intros y [<- | Hy]; [exact Hxz |]. specialize (Hz y Hy). lra.
    + cbn [ascending]. split; [| apply IH; exact Hl].
      intros y Hy. apply insert_In in Hy. destruct Hy as [-> | Hy]; [lra | auto].
Qed.

Lemma sort_ascending (l : list R) : ascending (Np.sort l).
Proof.
  induction l as [| x l IH]; cbn [Np.sort]; [exact I | apply insert_ascending, IH].
Qed.

Lemma ascending_nth (l : list R) :
  ascending l ->
  forall i j, (i <= j)%nat -> (j < length l)%nat -> nth i l 0 <= nth j l 0.
Proof.
  induction l as [| x l IH]; intros Hl i j Hij Hj; cbn [length] in Hj; [lia |].
  destruct Hl as [Hx Hl]. destruct j as [| j].
  - replace i with 0%nat by lia. cbn [nth]. lra.
  - destruct i as [| i]; cbn [nth].
    + apply Hx. apply nth_In. lia.
    + apply IH; [exact Hl | lia | lia].
Qed.

Lemma count_le_insert (t x : R) (l : list R) :
  count_le t (Np.insert x l) = count_le t (x :: l).
Proof.
  unfold count_le. induction l as [| z l IH]; cbn [Np.insert]; [reflexivity |].
  destruct (Np.Rleb x z); [reflexivity |].
  cbn [filter] in *. destruct (Np.Rleb z t), (Np.Rleb x t); cbn [length] in *; lia.
Qed.

Lemma count_le_sort (t : R) (l : list R) : count_le t (Np.sort l) = count_le t l.
Proof.
  induction l as [| x l IH]; cbn [Np.sort]; [reflexivity |].
  rewrite count_le_insert. unfold count_le in *. cbn [filter].
  destruct (Np.Rleb x t); cbn [length]; lia.
Qed.

(** In an ascending list, the entries up to one that is at most [t] are all
    counted. *)
Lemma count_le_above (t : R) (l : list R) :
  ascending l ->
  forall k, (k < length l)%nat -> nth k l 0 <= t -> (k < count_le t l)%nat.
Proof.
  unfold count_le.
  induction l as [| x l IH]; intros Hl k Hk Hn; cbn [length] in Hk; [lia |].
  destruct Hl as [Hx Hl]. cbn [filter].
  assert (Hxt : Np.Rleb x t = true).
  { apply Rleb_true. destruct k as [| k]; cbn [nth] in Hn; [exact Hn |].
    assert (x <= nth k l 0) by (apply Hx, nth_In; lia). lra. }
  rewrite Hxt. cbn [length]. destruct k as [| k]; [lia |].
  cbn [nth] in Hn. specialize (IH Hl k ltac:(lia) Hn). lia.
Qed.

(** In an ascending list, an entry above [t] has only entries above [t]
    after it. *)
Lemma count_le_below (t : R) (l : list R) :
  ascending l ->
  forall k, (k < length l)%nat -> t < nth k l 0 -> (count_le t l <= k)%nat.
Proof.
  unfold count_le.
  induction l as [| x l IH]; intros Hl k Hk Hn; cbn [length] in Hk; [lia |].
  destruct Hl as [Hx Hl]. cbn [filter]. destruct k as [| k].
  - cbn [nth] in Hn.
    assert (Hxt : Np.Rleb x t = false) by (apply Rleb_false; lra).
    rewrite Hxt.
    assert (Hnone : filter (fun y => Np.Rleb y t) l = []).
    { clear IH Hk Hl. induction l as [| y l IHl]; [reflexivity |].
      cbn [filter].
      assert (Hy : Np.Rleb y t = false).
      { apply Rleb_false. specialize (Hx y (or_introl eq_refl)). lra. }
      rewrite Hy. apply IHl. intros z Hz. apply Hx. right. exact Hz. }
    rewrite Hnone. cbn [length]. lia.
  - cbn [nth] in Hn. specialize (IH Hl k ltac:(lia) Hn).
    destruct (Np.Rleb x t); cbn [length]; lia.
Qed.

Lemma count_le_dominated (t : R) (a b : list R) :
  Forall2 Rle a b -> (count_le t b <= count_le t a)%nat.
Proof.
  unfold count_le. induction 1 as [| x y a b Hxy _ IH]; [cbn; lia |].
  cbn [filter]. destruct (Rleb_cases y t) as [[-> Hy] | [-> Hy]].
  - assert (Hxt : Np.Rleb x t = true) by (apply Rleb_true; lra).
    rewrite Hxt. cbn [length]. lia.
  - destruct (Np.Rleb x t); cbn [length]; lia.
Qed.

(** Order statistics are monotone: entry by entry smaller arrays have
    smaller sorted entries. *)
Lemma sort_nth_dominated (a b : list R) (k : nat) :
  Forall2 Rle a b -> (k < length a)%nat ->
  nth k (Np.sort a) 0 <= nth k (Np.sort b) 0.
Proof.
  intros Hab Hk. pose proof (Forall2_length Hab) as Hlen.
  set (t := nth k (Np.sort b) 0).
  assert (Hb : (k < count_le t (Np.sort b))%nat).
  { apply count_le_above; [apply sort_ascending | rewrite sort_length; lia |].
    unfold t. lra. }
  rewrite count_le_sort in Hb.
  pose proof (count_le_dominated t a b Hab) as Hd.
  apply Rnot_lt_le. intros Hlt.
  assert (Ha : (count_le t (Np.sort a) <= k)%nat).
  { apply count_le_below; [apply sort_ascending | rewrite sort_length; lia | exact Hlt]. }
  rewrite count_le_sort in Ha. lia.
Qed.

Lemma half_lt (n : nat) : (0 < n)%nat -> (n / 2 < n)%nat.
Proof. intros H. apply Nat.div_lt; lia. Qed.

Lemma median_dominated (a b : list R) :
  Forall2 Rle a b -> Np.median a <= Np.median b.
Proof.
  intros Hab. pose proof (Forall2_length Hab) as Hlen.
  destruct a as [| x a'].
  - destruct b; [lra | discriminate].
  - set (a := x :: a') in *.
    assert (Hpos : (0 < length a)%nat) by (cbn; lia).
    unfold Np.median. rewrite !sort_length, <- Hlen.
    pose proof (half_lt _ Hpos) as Hhalf.
    pose proof (sort_nth_dominated a b (length a / 2) Hab Hhalf).
    destruct (Nat.even (length a)); [| assumption].
    pose proof (sort_nth_dominated a b (length a / 2 - 1) Hab ltac:(lia)). lra.
Qed.

Lemma insert_shift (d x : R) (l : list R) :
  Np.insert (x + d) (map (fun y => y + d) l) = map (fun y => y + d) (Np.insert x l).
Proof.
  induction l as [| z l IH]; cbn [Np.insert map]; [reflexivity |].
  assert (H : Np.Rleb (x + d) (z + d) = Np.Rleb x z).
  { destruct (Rleb_cases x z) as [[-> Hxz] | [-> Hxz]].
    - apply Rleb_true. lra.
    - apply Rleb_false. lra. }
  rewrite H. destruct (Np.Rleb x z); cbn [map]; [reflexivity | now rewrite IH].
Qed.

Lemma sort_shift (d : R) (l : list R) :
  Np.sort (map (fun y => y + d) l) = map (fun y => y + d) (Np.sort l).
Proof.
  induction l as [| x l IH]; cbn [Np.sort map]; [reflexivity |].
  rewrite IH. apply insert_shift.
Qed.

Lemma nth_map_shift (d : R) (l : list R) (k : nat) :
  (k < length l)%nat -> nth k (map (fun y => y + d) l) 0 = nth k l 0 + d.
Proof.
  intros Hk. rewrite (nth_indep _ 0 (0 + d)) by (rewrite length_map; exact Hk).
  apply (map_nth (fun y => y + d)).
Qed.

Lemma median_shift (d : R) (l : list R) :
  l <> [] -> Np.median (map (fun y => y + d) l) = Np.median l + d.
Proof.
  intros Hne.
  assert (Hpos : (0 < length l)%nat) by (destruct l; [congruence | cbn; lia]).
  unfold Np.median. rewrite sort_shift, length_map, sort_length.
  pose proof (half_lt _ Hpos) as Hhalf.
  rewrite !nth_map_shift by (rewrite sort_length; lia).
  destruct (Nat.even (length l)); lra.
Qed.

Lemma median_bounds (lo hi : R) (l : list R) :
  l <> [] -> (forall x, In x l -> lo <= x <= hi) -> lo <= Np.median l <= hi.
Proof.
  intros Hne Hall.
  assert (Hpos : (0 < length l)%nat) by (destruct l; [congruence | cbn; lia]).
  assert (Hnth : forall k, (k < length l)%nat -> lo <= nth k (Np.sort l) 0 <= hi).
  { intros k Hk. apply Hall. apply sort_In. apply nth_In. rewrite sort_length. exact Hk. }
  unfold Np.median. rewrite sort_length.
  pose proof (half_lt _ Hpos) as Hhalf.
  pose proof (Hnth _ Hhalf).
  destruct (Nat.even (length l)); [| assumption].
  pose proof (Hnth (length l / 2 - 1)%nat ltac:(lia)). lra.
Qed.

(* ------------------------------------------------------------------ *)
(** ** The growth curve [v] *)

Lemma exp_1_lower : 9 / 4 <= exp 1.
Proof.
  replace 1 with (1 / 2 + 1 / 2) by lra. rewrite exp_plus.
  pose proof (exp_ineq1_le (1 / 2)). nra.
Qed.

Lemma exp_minus_1_upper : exp (- (1)) <= 4 / 9.
Proof.
  pose proof exp_1_lower as H1. pose proof (exp_pos (- (1))) as Hp.
  assert (H : exp (- (1)) * exp 1 = 1).
  { rewrite <- exp_plus. replace (- (1) + 1) with 0 by lra. apply exp_0. }
  nra.
Qed.

(** [s * exp (- s)] is at most [exp (- 1)]. *)
Lemma exp_decay_bound (s : R) : s * exp (- s) <= 4 / 9.
Proof.
  pose proof (exp_ineq1_le (s - 1)) as H1.
  pose proof (exp_pos (- s)) as Hp.
  assert (H : exp (- s) * exp (s - 1) = exp (- (1))).
  { rewrite <- exp_plus. f_equal. lra. }
  pose proof exp_minus_1_upper. nra.
Qed.

(** One step of the curve at [x > 0] gains at most [4 / (9 x)], whatever
    the fitted parameters within the bounds of the fit. *)
Lemma v_step_bound (x v0 tau0 : R) :
  0 < x -> 0 <= v0 <= 1 -> tau0 <> 0 ->
  v (x + 1) v0 tau0 - v x v0 tau0 <= 4 / 9 / x.
Proof.
  intros Hx Hv Ht. unfold v.
  replace (- (x + 1) / tau0) with (- x / tau0 + - / tau0) by (unfold Rdiv; ring).
  rewrite exp_plus.
  set (t := / tau0).
  replace (- x / tau0) with (- (x * t)) by (unfold Rdiv, t; ring).
  pose proof (exp_pos (- (x * t))) as HE. pose proof (exp_pos (- t)) as HF.
  set (E := exp (- (x * t))) in *. set (F := exp (- t)) in *.
  assert (Hbound : 0 < 4 / 9 / x).
  { apply Rdiv_lt_0_compat; lra. }
  assert (Htn : t <> 0) by (apply Rinv_neq_0_compat; exact Ht).
  destruct (Rlt_dec t 0) as [Hneg | Hpos].
  - assert (1 < F).
    { unfold F. rewrite <- exp_0. apply exp_increasing. lra. }
    assert (E * (1 - F) <= 0) by nra.
    assert (v0 * (E * (1 - F)) <= 0) by nra. lra.
  - assert (Htpos : 0 < t) by lra.
    assert (H1F : 1 - F <= t).
    { pose proof (exp_ineq1_le (- t)). unfold F. lra. }
    assert (HF1 : F < 1).
    { unfold F. rewrite <- exp_0. apply exp_increasing. lra. }
    pose proof (exp_decay_bound (x * t)) as Hd. fold E in Hd.
    assert (HEt : E * t <= 4 / 9 / x).
    { apply (Rmult_le_reg_r x); [exact Hx |].
      replace (4 / 9 / x * x) with (4 / 9) by (field; lra). lra. }
    assert (E * (1 - F) <= E * t) by nra.
    assert (0 <= E * (1 - F)) by nra.
    assert (v0 * (E * (1 - F)) <= E * (1 - F)) by nra.
    lra.
Qed.

Lemma INR_998 : INR 998 = 998.
Proof. rewrite INR_IZR_INZ. reflexivity. Qed.

(** Within the bounds of the fit, the last step of every curve on the grid
    is below the threshold. *)
Lemma curve_last_step (p : nat * (R * R)) :
  0 <= fst (snd p) <= 1 -> snd (snd p) <> 0 ->
  curve_at 999 p <= curve_at 998 p + 4 / 8982.
Proof.
  intros Hv Ht. unfold curve_at.
  change 999%nat with (S 998). rewrite S_INR.
  pose proof (v_step_bound (INR 998) (fst (snd p)) (snd (snd p))) as H.
  rewrite INR_998 in *.
  specialize (H ltac:(lra) Hv Ht). lra.
Qed.

Lemma last_step_is_flat (bootstrap_params : list (nat * (R * R))) :
  bootstrap_params <> [] ->
  (forall p, In p bootstrap_params -> 0 <= fst (snd p) <= 1 /\ snd (snd p) <> 0) ->
  forward_difference bootstrap_params 998 < asymptote_threshold.
Proof.
  intros Hne Hall. unfold forward_difference, median_curve, asymptote_threshold.
  assert (Hdom : Forall2 Rle (map (curve_at 999) bootstrap_params)
                   (map (fun y => y + 4 / 8982) (map (curve_at 998) bootstrap_params))).
  { clear Hne. induction bootstrap_params as [| p l IH]; cbn [map]; constructor.
    - destruct (Hall p (or_introl eq_refl)). apply curve_last_step; assumption.
    - apply IH. intros q Hq. apply Hall. right. exact Hq. }
  pose proof (median_dominated _ _ Hdom) as Hm.
  rewrite median_shift in Hm by (destruct bootstrap_params; [congruence | discriminate]).
  change (S 998) with 999%nat. lra.
Qed.

(** For a positive [tau0] and a ceiling [v0] that is not negative, the curve
    starts at 0, does not decrease and stays at or below [v0]. *)
Theorem v_saturates (x y v0 tau0 : R) :
  0 < tau0 -> 0 <= v0 -> 0 <= x <= y ->
  v 0 v0 tau0 = 0
  /\ 0 <= v x v0 tau0 <= v y v0 tau0
  /\ v y v0 tau0 <= v0.
Proof.
  intros Ht Hv [Hx Hxy]. unfold v.
  assert (Hinv : 0 < / tau0) by (apply Rinv_0_lt_compat; exact Ht).
  replace (- 0 / tau0) with 0 by (unfold Rdiv; ring).
  rewrite exp_0.
  assert (Hmono : forall a b, a <= b -> exp (- b / tau0) <= exp (- a / tau0)).
  { intros a b Hab. destruct (Req_dec a b) as [-> | Hne]; [lra |].
    left. apply exp_increasing. unfold Rdiv. nra. }
  pose proof (Hmono 0 x Hx) as H0x.
  replace (- 0 / tau0) with 0 in H0x by (unfold Rdiv; ring).
  rewrite exp_0 in H0x.
  pose proof (Hmono x y Hxy) as Hxy'.
  pose proof (exp_pos (- y / tau0)) as Hy.
  split; [ring |]. split; [split |]; nra.
Qed.

Lemma v_saturates_witness :
  v 0 (1 / 2) 3 = 0
  /\ 0 <= v 1 (1 / 2) 3 <= v 2 (1 / 2) 3
  /\ v 2 (1 / 2) 3 <= 1 / 2.
Proof. apply v_saturates; lra. Defined.

(* ------------------------------------------------------------------ *)
(** ** The endpoint and the center within the bounds of the fit *)

(** Every row the loop over bootstrap rounds adds is a result of the fit. *)
Lemma bootstrap_rounds_fitted (rng_state : Type)
  (choice : rng_state -> list R -> nat -> list R * rng_state)
  (curve_fit : list R -> list (option R) -> result (R * R))
  (ceilings : NeuroidCeilings) (levels : list nat) (rounds : list nat) :
  forall rng acc params rng',
    bootstrap_rounds choice curve_fit ceilings levels rounds rng acc = Ok (params, rng') ->
    forall p, In p params ->
      In p acc \/ (In (fst p) rounds /\ exists xs ys, curve_fit xs ys = Ok (snd p)).
Proof.
  induction rounds as [| b rounds IH]; intros rng acc params rng' H p Hp.
  - cbn [bootstrap_rounds] in H. injection H as <- _. left. exact Hp.
  - cbn [bootstrap_rounds] in H.
    destruct (bootstrap_scores choice ceilings levels rng []) as [st | e];
      cbn [bind] in H; [| discriminate].
    destruct (fit curve_fit levels (fst st)) as [fitted | e] eqn:Hfit.
    + destruct (IH _ _ _ _ H p Hp) as [Hacc | [Hin Hex]].
      * apply in_app_or in Hacc. destruct Hacc as [Hacc | [<- | []]].
        -- left. exact Hacc.
        -- right. split; [left; reflexivity |]. cbn [snd]. unfold fit in Hfit. eauto.
      * right. split; [right; exact Hin | exact Hex].
    + destruct e; try discriminate.
      destruct (IH _ _ _ _ H p Hp) as [Hacc | [Hin Hex]].
      * left. exact Hacc.
      * right. split; [right; exact Hin | exact Hex].
Qed.

Lemma bootstrap_from_fitted (rng_state : Type)
  (choice : rng_state -> list R -> nat -> list R * rng_state)
  (curve_fit : list R -> list (option R) -> result (R * R))
  (self : ExtrapolationCeiling) (rng : rng_state) (ceilings : NeuroidCeilings)
  (params : list (nat * (R * R))) (rng' : rng_state) :
  bootstrap_from choice curve_fit self rng ceilings = Ok (params, rng') ->
  forall p, In p params ->
    (fst p < num_bootstraps self)%nat /\ exists xs ys, curve_fit xs ys = Ok (snd p).
Proof.
  unfold bootstrap_from. intros H p Hp.
  destruct (subject_subsamples_of ceilings) as [levels | e]; cbn [bind] in H;
    [| discriminate].
  destruct (bootstrap_rounds_fitted _ _ _ _ _ _ _ _ _ _ H p Hp) as [[] | [Hin Hex]].
  split; [| exact Hex]. apply in_seq in Hin. lia.
Qed.

(** When the fit keeps [v0] within its bounds [[0, 1]] and returns a [tau0]
    other than 0, the search for the endpoint cannot fail: as soon as one
    bootstrap round is fitted, [extrapolate_neuroid] returns the packaged
    score of the first flat grid point. *)
Theorem extrapolate_neuroid_returns_within_bounds (rng_state : Type)
  (RandomState : nat -> rng_state)
  (choice : rng_state -> list R -> nat -> list R * rng_state)
  (curve_fit : list R -> list (option R) -> result (R * R))
  (self : ExtrapolationCeiling) (ceilings : NeuroidCeilings)
  (params : list (nat * (R * R))) (rng' : rng_state) :
  (forall xs ys p, curve_fit xs ys = Ok p -> 0 <= fst p <= 1 /\ snd p <> 0) ->
  bootstrap_from choice curve_fit self (RandomState 0%nat) ceilings = Ok (params, rng') ->
  params <> [] ->
  exists end_x,
    first_flat params end_x
    /\ extrapolate_neuroid RandomState choice curve_fit self ceilings
       = Ok (packaged ceilings params end_x).
Proof.
  intros Hfit Hboot Hne.
  assert (Hall : forall p, In p params -> 0 <= fst (snd p) <= 1 /\ snd (snd p) <> 0).
  { intros p Hp.
    destruct (bootstrap_from_fitted _ _ _ _ _ _ _ _ Hboot p Hp) as [_ [xs [ys Hp']]].
    exact (Hfit _ _ _ Hp'). }
  destruct (@first_flat_exists params 998 ltac:(lia) (last_step_is_flat params Hne Hall))
    as [end_x [_ Hfirst]].
  exists end_x. split; [exact Hfirst |].
  unfold extrapolate_neuroid. rewrite Hboot. cbn [bind fst].
  apply endpoint_and_error_Ok; assumption.
Qed.

Lemma extrapolate_neuroid_returns_within_bounds_witness :
  exists end_x,
    first_flat [(0%nat, (1 / 10000, 1))] end_x
    /\ extrapolate_neuroid Example.RandomState Example.choice Example.fit_flat
         Example.self Example.three_subjects
       = Ok (packaged Example.three_subjects [(0%nat, (1 / 10000, 1))] end_x).
Proof.
  refine (extrapolate_neuroid_returns_within_bounds nat Example.RandomState
            Example.choice Example.fit_flat Example.self Example.three_subjects
            [(0%nat, (1 / 10000, 1))] 2%nat _ flat_bootstrap _).
  - intros xs ys p H. unfold Example.fit_flat in H. injection H as <-.
    cbn [fst snd]. split; lra.
  - discriminate.
Defined.

(** When the fit keeps [v0] within its bounds [[0, 1]], the center of every
    score [extrapolate_neuroid] returns is between 0 and 1. *)
Theorem center_within_fit_bounds (rng_state : Type)
  (RandomState : nat -> rng_state)
  (choice : rng_state -> list R -> nat -> list R * rng_state)
  (curve_fit : list R -> list (option R) -> result (R * R))
  (self : ExtrapolationCeiling) (ceilings : NeuroidCeilings)
  (r : Ceiling NeuroidCeilings) :
  (forall xs ys p, curve_fit xs ys = Ok p -> 0 <= fst p <= 1) ->
  extrapolate_neuroid RandomState choice curve_fit self ceilings = Ok r ->
  0 <= sel_aggregation (ceiling_score r) "center" <= 1.
Proof.
  intros Hfit Hr.
  destruct (extrapolate_neuroid_inv _ _ _ _ _ _ _ Hr)
    as [params [rng' [end_x [Hboot [Hne [_ ->]]]]]].
  unfold packaged. cbn [ceiling_score]. rewrite sel_center.
  apply median_bounds.
  - destruct params; [congruence | discriminate].
  - intros x Hx. apply in_map_iff in Hx. destruct Hx as [p [<- Hp]].
    destruct (bootstrap_from_fitted _ _ _ _ _ _ _ _ Hboot p Hp) as [_ [xs [ys Hp']]].
    exact (Hfit _ _ _ Hp').
Qed.

Lemma center_within_fit_bounds_witness :
  0 <= sel_aggregation
         (ceiling_score (packaged Example.three_subjects [(0%nat, (1 / 10000, 1))] 0))
         "center" <= 1.
Proof.
  refine (center_within_fit_bounds nat Example.RandomState Example.choice
            Example.fit_flat Example.self Example.three_subjects _ _
            flat_extrapolate_neuroid).
  intros xs ys p H. unfold Example.fit_flat in H. injection H as <-.
  cbn [fst]. lra.
Defined.

(* ------------------------------------------------------------------ *)
(** ** The width of the interval of [ci_error] *)

Lemma floor_spec (h : R) :
  0 <= h -> INR (Np.floor h) <= h < INR (Np.floor h) + 1.
Proof.
  intros Hh. unfold Np.floor.
  destruct (base_Int_part h) as [H1 H2].
  assert (Hz : (0 <= Int_part h)%Z).
  { assert (Hlt : IZR (-1) < IZR (Int_part h)) by (simpl; lra).
    apply lt_IZR in Hlt. lia. }
  rewrite INR_IZR_INZ, Znat.Z2Nat.id by exact Hz. lra.
Qed.

Lemma floor_monotone (h1 h2 : R) :
  0 <= h1 <= h2 -> (Np.floor h1 <= Np.floor h2)%nat.
Proof.
  intros [H1 H12].
  pose proof (floor_spec h1 H1) as [Ha _].
  pose proof (floor_spec h2 ltac:(lra)) as [_ Hb].
  assert (Hlt : INR (Np.floor h1) < INR (Np.floor h2 + 1)).
  { rewrite plus_INR. simpl INR. lra. }
  apply INR_lt in Hlt. lia.
Qed.

Lemma floor_below (h : R) (m : nat) :
  0 <= h <= INR m -> (Np.floor h <= m)%nat.
Proof.
  intros [H0 Hm]. pose proof (floor_spec h H0) as [Ha _].
  apply INR_le. lra.
Qed.

(** The interpolated percentile lies between the two sorted entries it
    interpolates. *)
Lemma percentile_between (l : list R) (q : R) :
  l <> [] -> 0 <= q <= 100 ->
  let a := Np.sort l in
  let n := length a in
  let previous := Np.floor (q / 100 * (INR n - 1)) in
  (previous <= n - 1)%nat
  /\ nth previous a 0 <= Np.percentile l q
     <= nth (Nat.min (previous + 1) (n - 1)) a 0.
Proof.
  intros Hne Hq a n previous.
  assert (Hn : (0 < n)%nat).
  { unfold n, a. rewrite sort_length. destruct l; [congruence | cbn; lia]. }
  assert (HnR : INR n - 1 = INR (n - 1)).
  { rewrite minus_INR by lia. simpl INR. lra. }
  assert (Hpos : 0 <= INR (n - 1)) by apply pos_INR.
  assert (Hh : 0 <= q / 100 * (INR n - 1) <= INR (n - 1)).
  { rewrite HnR. split; nra. }
  assert (Hprev : (previous <= n - 1)%nat) by (apply floor_below; exact Hh).
  split; [exact Hprev |].
  pose proof (floor_spec _ (proj1 Hh)) as [Hlo Hhi]. fold previous in Hlo, Hhi.
  assert (Hasc : nth previous a 0 <= nth (Nat.min (previous + 1) (n - 1)) a 0).
  { apply ascending_nth; [apply sort_ascending | lia | fold n; lia]. }
  unfold Np.percentile. fold a. fold n. fold previous.
  set (gamma := q / 100 * (INR n - 1) - INR previous).
  assert (0 <= gamma < 1) by (unfold gamma; lra).
  split; nra.
Qed.

(** [np.percentile] does not decrease with the rank. *)
Lemma percentile_monotone (l : list R) (q1 q2 : R) :
  l <> [] -> 0 <= q1 -> q1 <= q2 -> q2 <= 100 ->
  Np.percentile l q1 <= Np.percentile l q2.
Proof.
  intros Hne H1 H12 H2.
  pose proof (percentile_between l q1 Hne ltac:(lra)) as Hb1.
  pose proof (percentile_between l q2 Hne ltac:(lra)) as Hb2.
  cbv zeta in Hb1, Hb2.
  set (a := Np.sort l) in *. set (n := length a) in *.
  assert (Hn : (0 < n)%nat).
  { unfold n, a. rewrite sort_length. destruct l; [congruence | cbn; lia]. }
  assert (HnR : 0 <= INR n - 1).
  { replace (INR n - 1) with (INR (n - 1)); [apply pos_INR |].
    rewrite minus_INR by lia. simpl INR. lra. }
  set (h1 := q1 / 100 * (INR n - 1)) in *.
  set (h2 := q2 / 100 * (INR n - 1)) in *.
  assert (Hh : 0 <= h1 <= h2) by (unfold h1, h2; split; nra).
  pose proof (floor_monotone h1 h2 Hh) as Hfl.
  destruct Hb1 as [Hp1 [Hlo1 Hhi1]]. destruct Hb2 as [Hp2 [Hlo2 Hhi2]].
  destruct (Nat.eq_dec (Np.floor h1) (Np.floor h2)) as [Heq | Hneq].
  - unfold Np.percentile. fold a. fold n. fold h1. fold h2. rewrite <- Heq.
    assert (Hasc : nth (Np.floor h1) a 0
                   <= nth (Nat.min (Np.floor h1 + 1) (n - 1)) a 0).
    { apply ascending_nth; [apply sort_ascending | lia | fold n; lia]. }
    nra.
  - assert (Hasc : nth (Nat.min (Np.floor h1 + 1) (n - 1)) a 0
                   <= nth (Np.floor h2) a 0).
    { apply ascending_nth; [apply sort_ascending | lia | fold n; lia]. }
    lra.
Qed.

(** For a confidence between 0 and 1 and samples that are not all NaN, the
    two entries [ci_error] returns sum to the distance between its two
    percentiles, which is not negative: whatever the center, the interval
    from [center - error_low] to [center + error_high] is not inverted. *)
Theorem ci_error_width (samples : list (option R)) (center_ confidence : R) :
  0 <= confidence <= 1 ->
  Np.dropnan samples <> [] ->
  fst (ci_error samples center_ confidence) + snd (ci_error samples center_ confidence)
  = Np.nanpercentile samples (snd (ci_ranks confidence))
    - Np.nanpercentile samples (fst (ci_ranks confidence))
  /\ 0 <= fst (ci_error samples center_ confidence)
          + snd (ci_error samples center_ confidence).
Proof.
  intros Hc Hne.
  assert (Hsum : fst (ci_error samples center_ confidence)
                 + snd (ci_error samples center_ confidence)
                 = Np.nanpercentile samples (snd (ci_ranks confidence))
                   - Np.nanpercentile samples (fst (ci_ranks confidence))).
  { unfold ci_error. cbn [fst snd]. ring. }
  split; [exact Hsum |]. rewrite Hsum.
  unfold Np.nanpercentile, ci_ranks. cbn [fst snd].
  pose proof (percentile_monotone (Np.dropnan samples)
                (100 * (1 - confidence) / 2) (100 * 1 - (1 - confidence) / 2)
                Hne ltac:(lra) ltac:(lra) ltac:(lra)).
  lra.
Qed.

Lemma ci_error_width_witness :
  fst (ci_error [Some 0; None; Some 1] (1 / 2) default_confidence)
  + snd (ci_error [Some 0; None; Some 1] (1 / 2) default_confidence)
  = Np.nanpercentile [Some 0; None; Some 1] (snd (ci_ranks default_confidence))
    - Np.nanpercentile [Some 0; None; Some 1] (fst (ci_ranks default_confidence))
  /\ 0 <= fst (ci_error [Some 0; None; Some 1] (1 / 2) default_confidence)
          + snd (ci_error [Some 0; None; Some 1] (1 / 2) default_confidence).
Proof.
  apply ci_error_width; [unfold default_confidence; lra | discriminate].
Defined.

(* ------------------------------------------------------------------ *)
(** ** The edges of [collect] *)



(** With fewer than two distinct subjects there is no subsample size to
    iterate: nothing is collected, whatever the metric, and the merge of
    nothing raises [KeyError('z')]. *)
Theorem collect_needs_two_subjects
  (metric : Assembly -> Assembly -> result Score) (self : ExtrapolationCeiling)
  (assembly : Assembly) :
  (length (py_set (subject_values assembly)) < 2)%nat ->
  collect metric self assembly = Raise (KeyError "z").
Proof.
  intros Hlen. unfold collect, collected, build_subject_subsamples.
  replace (length (py_set (subject_values assembly)) + 1 - 2)%nat with 0%nat by lia.
  reflexivity.
Qed.

Lemma collect_needs_two_subjects_witness :
  collect Example.constant_metric Example.self
    [ {| neuroid_subject := "A"; neuroid_id := 1; responses := [1] |};
      {| neuroid_subject := "A"; neuroid_id := 2; responses := [2] |} ]
  = Raise (KeyError "z").
Proof.
  apply collect_needs_two_subjects. cbn. lia.
Defined.



Lemma str_KeyError_other (k : string) :
  k <> "z"%string -> String.eqb (str (KeyError k)) "'z'" = false.
Proof.
  intros Hk. apply String.eqb_neq. cbn [str]. intros H. apply Hk.
  cbn [String.append] in H. injection H as H.
  destruct k as [| c k]; [discriminate |].
  cbn [String.append] in H. injection H as -> H.
  destruct k as [| c' k]; [reflexivity |].
  cbn [String.append] in H. injection H as _ H.
  destruct k; discriminate.
Qed.

Lemma holdout_ceiling_first_raises
  (metric : Assembly -> Assembly -> result Score) (self : ExtrapolationCeiling)
  (assembly : Assembly) (e : exn) :
  py_set (subject_values assembly) <> [] ->
  (forall pool_assembly subject_assembly, metric pool_assembly subject_assembly = Raise e) ->
  swallowed e = false ->
  holdout_ceiling metric self assembly = Raise e.
Proof.
  intros Hne Hm Hsw. unfold holdout_ceiling, get_subject_iterations.
  destruct (py_set (subject_values assembly)) as [| s0 rest] eqn:Hs; [congruence |].
  cbn [holdout_loop]. rewrite holdout_subject_handlers, Hm, Hsw. reflexivity.
Qed.

Lemma selected_subjects_present (assembly : Assembly) (sub_subjects : list string)
  (x : string) :
  In x (py_set (subject_values assembly)) -> mem x sub_subjects = true ->
  py_set (subject_values
            (select_neuroids (fun n => mem (neuroid_subject n) sub_subjects) assembly))
  <> [].
Proof.
  intros Hx Hmem Hnil.
  apply (proj1 (py_set_In _ _)) in Hx. unfold subject_values in Hx.
  apply in_map_iff in Hx.
  destruct Hx as [n [Hn Hin]].
  assert (H : In x (py_set (subject_values
             (select_neuroids (fun n => mem (neuroid_subject n) sub_subjects) assembly)))).
  { apply (proj2 (py_set_In _ _)). unfold subject_values, select_neuroids.
    apply in_map_iff.
    exists n. split; [exact Hn |]. apply filter_In. split; [exact Hin |].
    rewrite Hn. exact Hmem. }
  rewrite Hnil in H. exact H.
Qed.

(** With at least two subjects, an exception the metric raises on every
    call, that the holdout loop does not swallow and that is not
    [KeyError('z')], is raised by [collect]: neither handler hides it. *)
Theorem collect_propagates_metric_error
  (metric : Assembly -> Assembly -> result Score) (self : ExtrapolationCeiling)
  (assembly : Assembly) (e : exn) :
  (2 <= length (py_set (subject_values assembly)))%nat ->
  (forall pool_assembly subject_assembly, metric pool_assembly subject_assembly = Raise e) ->
  swallowed e = false ->
  e <> KeyError "z" ->
  collect metric self assembly = Raise e.
Proof.
  intros Hlen Hm Hsw Hz.
  unfold collect, collected, build_subject_subsamples, iterate_subsets.
  destruct (py_set (subject_values assembly)) as [| x [| y l]] eqn:Hs;
    cbn [length] in Hlen; [lia | lia |].
  replace (length (x :: y :: l) + 1 - 2)%nat with (S (length l)) by (cbn [length]; lia).
  cbn [seq collect_loop]. unfold iterate_subsets. rewrite Hs.
  cbn [combinations]. rewrite combinations_0.
  cbn [map app collect_selections].
  unfold collect_selection at 1. cbn [snd].
  rewrite (holdout_ceiling_first_raises metric self _ e).
  - destruct e; try reflexivity.
    rewrite str_KeyError_other by congruence. reflexivity.
  - apply (selected_subjects_present assembly [x; y] x).
    + rewrite Hs. left. reflexivity.
    + cbn [mem existsb]. rewrite String.eqb_refl. reflexivity.
  - exact Hm.
  - exact Hsw.
Qed.

Lemma collect_propagates_metric_error_witness :
  collect Example.failing_metric Example.self Example.assembly
  = Raise (ValueError "operands could not be broadcast together").
Proof.
  apply collect_propagates_metric_error.
  - cbn. lia.
  - reflexivity.
  - reflexivity.
  - discriminate.
Defined.

(* ------------------------------------------------------------------ *)
(** ** The iteration order of the subject set *)

Lemma sum_permutation (a b : list R) :
  Permutation.Permutation a b -> Np.sum a = Np.sum b.
Proof.
  unfold Np.sum. induction 1; cbn [fold_right]; lra.
Qed.

Lemma mean_permutation (a b : list R) :
  Permutation.Permutation a b -> Np.mean a = Np.mean b.
Proof.
  intros H. unfold Np.mean.
  rewrite (sum_permutation a b H), (Permutation.Permutation_length H). reflexivity.
Qed.

Lemma std_permutation (a b : list R) :
  Permutation.Permutation a b -> Np.std a = Np.std b.
Proof.
  intros H. unfold Np.std. rewrite (mean_permutation a b H).
  f_equal. apply mean_permutation. apply Permutation.Permutation_map. exact H.
Qed.

Lemma holdout_loop_inv (metric : Assembly -> Assembly -> result Score)
  (self : ExtrapolationCeiling) (assembly : Assembly)
  (subjects iterate_subjects : list string) :
  forall scores scores',
    holdout_loop metric self assembly subjects iterate_subjects scores = Ok scores' ->
    forall s, In s iterate_subjects ->
      exists r, holdout_subject metric self assembly subjects s = Ok r.
Proof.
  induction iterate_subjects as [| s0 rest IH]; intros scores scores' H s Hs.
  - destruct Hs.
  - cbn [holdout_loop] in H.
    destruct (holdout_subject metric self assembly subjects s0) as [r | e] eqn:Hstep;
      cbn [bind] in H; [| discriminate].
    destruct Hs as [<- | Hs]; [eauto |].
    exact (IH _ _ H s Hs).
Qed.

(** The set of subjects is iterated in an order Python leaves open.  The
    center and the error of the score [HoldoutSubjectCeiling] returns are
    those of the loop run in any other order of the same subjects. *)
Theorem holdout_order_independent
  (metric : Assembly -> Assembly -> result Score) (self : ExtrapolationCeiling)
  (assembly : Assembly) (c : Score) (order : list string) :
  holdout_ceiling metric self assembly = Ok c ->
  Permutation.Permutation (py_set (subject_values assembly)) order ->
  exists scores,
    holdout_loop metric self assembly (py_set (subject_values assembly)) order []
    = Ok scores
    /\ center c = Np.mean (map center scores)
    /\ error c = Np.std (map center scores).
Proof.
  intros Hc Hperm. unfold holdout_ceiling, get_subject_iterations in Hc.
  set (subjects := py_set (subject_values assembly)) in *.
  destruct (holdout_loop metric self assembly subjects subjects []) as [scores0 | e]
    eqn:Hloop; cbn [bind] in Hc; [| discriminate].
  pose proof (holdout_loop_inv metric self assembly subjects subjects _ _ Hloop) as Hok.
  rewrite (holdout_loop_Ok metric self assembly subjects subjects Hok []) in Hloop.
  cbn [app] in Hloop. injection Hloop as <-.
  unfold Score_merge in Hc.
  destruct (merge_data_arrays (usable_scores metric self assembly subjects subjects))
    as [merged | e] eqn:Hmerge; cbn [bind] in Hc; [| discriminate].
  assert (Hmerged : merged = usable_scores metric self assembly subjects subjects).
  { unfold merge_data_arrays in Hmerge.
    destruct (usable_scores metric self assembly subjects subjects);
      [discriminate | injection Hmerge as <-; reflexivity]. }
  subst merged. cbn [fst snd] in Hc. injection Hc as <-. cbn [center error].
  assert (Hok' : forall s, In s order ->
            exists r, holdout_subject metric self assembly subjects s = Ok r).
  { intros s Hs. apply Hok.
    exact (Permutation.Permutation_in s (Permutation.Permutation_sym Hperm) Hs). }
  exists (usable_scores metric self assembly subjects order).
  rewrite (holdout_loop_Ok metric self assembly subjects order Hok' []).
  split; [reflexivity |].
  assert (Hp : Permutation.Permutation
                 (map center (usable_scores metric self assembly subjects subjects))
                 (map center (usable_scores metric self assembly subjects order))).
  { apply Permutation.Permutation_map. unfold usable_scores.
    apply Permutation.Permutation_flat_map. exact Hperm. }
  split; [apply mean_permutation | apply std_permutation]; exact Hp.
Qed.

Lemma holdout_order_independent_witness :
  exists c scores,
    holdout_ceiling Example.constant_metric Example.self Example.assembly = Ok c
    /\ holdout_loop Example.constant_metric Example.self Example.assembly
         (py_set (subject_values Example.assembly))
         (rev (py_set (subject_values Example.assembly))) []
       = Ok scores
    /\ center c = Np.mean (map center scores)
    /\ error c = Np.std (map center scores).
Proof.
  assert (H : exists c,
            holdout_ceiling Example.constant_metric Example.self Example.assembly = Ok c)
    by (eexists; reflexivity).
  destruct H as [c Hc]. exists c.
  destruct (holdout_order_independent Example.constant_metric Example.self
              Example.assembly c (rev (py_set (subject_values Example.assembly)))
              Hc (Permutation.Permutation_rev _)) as [scores H].
  exists scores. split; [exact Hc | exact H].
Defined.

(* ------------------------------------------------------------------ *)
(** ** The assemblies handed to the metric and to the holdout ceiling *)

(** The held-out subject never leaks into its pool: the metric is called on
    two parts of the assembly, the units of the subject and the units of all
    other subjects, and every unit is in exactly one of them. *)
Theorem holdout_split_is_partition
  (metric : Assembly -> Assembly -> result Score) (self : ExtrapolationCeiling)
  (assembly : Assembly) (subject : string) (n : Neuroid) :
  In n assembly ->
  holdout_subject metric self assembly (py_set (subject_values assembly)) subject
  = match metric (pool_of assembly (py_set (subject_values assembly)) subject)
                 (heldout_of assembly subject) with
    | Ok s => Ok (Some (expand_dims (subject_column self) (LStr subject) false s))
    | Raise e => if swallowed e then Ok None else Raise e
    end
  /\ (In n (heldout_of assembly subject) <-> neuroid_subject n = subject)
  /\ (In n (pool_of assembly (py_set (subject_values assembly)) subject)
      <-> neuroid_subject n <> subject).
Proof.
  intros Hn. split; [apply holdout_subject_handlers |].
  unfold heldout_of, pool_of, select_neuroids. rewrite !filter_In.
  assert (Hsub : In (neuroid_subject n) (py_set (subject_values assembly))).
  { apply (proj2 (py_set_In _ _)). unfold subject_values. apply in_map. exact Hn. }
  split.
  - rewrite String.eqb_eq. tauto.
  - rewrite mem_In. unfold remove_string. rewrite filter_In, negb_true_iff.
    rewrite String.eqb_neq. tauto.
Qed.

Lemma holdout_split_is_partition_witness :
  holdout_subject Example.constant_metric Example.self Example.assembly
    (py_set (subject_values Example.assembly)) "A"
  = match Example.constant_metric
            (pool_of Example.assembly (py_set (subject_values Example.assembly)) "A")
            (heldout_of Example.assembly "A") with
    | Ok s => Ok (Some (expand_dims (subject_column Example.self) (LStr "A") false s))
    | Raise e => if swallowed e then Ok None else Raise e
    end
  /\ (In (mkNeuroid "B" 1 [2]) (heldout_of Example.assembly "A")
      <-> neuroid_subject (mkNeuroid "B" 1 [2]) = "A"%string)
  /\ (In (mkNeuroid "B" 1 [2])
         (pool_of Example.assembly (py_set (subject_values Example.assembly)) "A")
      <-> neuroid_subject (mkNeuroid "B" 1 [2]) <> "A"%string).
Proof.
  apply holdout_split_is_partition. right. left. reflexivity.
Defined.

(** Every sub-assembly [iterate_subsets] yields for the subsample size [k]
    is the part of the assembly recorded from the [k] subjects of its
    selection: the holdout ceiling run on it sees exactly [k] subjects. *)
Theorem iterate_subsets_selects_k_subjects (self : ExtrapolationCeiling)
  (assembly : Assembly) (k : nat)
  (selection : list (string * list string) * Assembly) :
  In selection (iterate_subsets self assembly k) ->
  exists sub_subjects,
    fst selection = [(subject_column self, sub_subjects)]
    /\ length sub_subjects = k
    /\ (forall n, In n (snd selection)
                  <-> In n assembly /\ In (neuroid_subject n) sub_subjects)
    /\ length (py_set (subject_values (snd selection))) = k.
Proof.
  unfold iterate_subsets. intros Hsel. apply in_map_iff in Hsel.
  destruct Hsel as [sub_subjects [<- Hcomb]]. cbn [fst snd].
  exists sub_subjects. split; [reflexivity |].
  destruct (combinations_subsequence _ _ _ Hcomb) as [Hsub Hlen].
  split; [exact Hlen |].
  assert (Hmembers : forall n,
            In n (select_neuroids (fun n => mem (neuroid_subject n) sub_subjects) assembly)
            <-> In n assembly /\ In (neuroid_subject n) sub_subjects).
  { intros n. unfold select_neuroids. rewrite filter_In, mem_In. reflexivity. }
  split; [exact Hmembers |].
  rewrite <- Hlen. apply Permutation.Permutation_length.
  apply Permutation.NoDup_Permutation.
  - apply py_set_NoDup.
  - exact (subsequence_NoDup _ _ Hsub (py_set_NoDup _)).
  - intros x. rewrite py_set_In. unfold subject_values. rewrite in_map_iff. split.
    + intros [n [<- Hn]]. apply Hmembers in Hn. tauto.
    + intros Hx.
      pose proof (subsequence_In _ _ Hsub x Hx) as Hall.
      apply (proj1 (py_set_In _ _)) in Hall. unfold subject_values in Hall.
      apply in_map_iff in Hall. destruct Hall as [n [Hnx Hn]].
      exists n. split; [exact Hnx |]. apply Hmembers. split; [exact Hn |].
      rewrite Hnx. exact Hx.
Qed.

Lemma iterate_subsets_selects_k_subjects_witness :
  exists sub_subjects,
    fst ([("subject"%string, ["A"%string; "B"%string])],
         select_neuroids (fun n => mem (neuroid_subject n) ["A"%string; "B"%string])
           Example.assembly)
    = [(subject_column Example.self, sub_subjects)]
    /\ length sub_subjects = 2%nat
    /\ (forall n,
          In n (snd ([("subject"%string, ["A"%string; "B"%string])],
                     select_neuroids
                       (fun n => mem (neuroid_subject n) ["A"%string; "B"%string])
                       Example.assembly))
          <-> In n Example.assembly
              /\ In (neuroid_subject n) sub_subjects)
    /\ length (py_set (subject_values
                 (snd ([("subject"%string, ["A"%string; "B"%string])],
                       select_neuroids
                         (fun n => mem (neuroid_subject n) ["A"%string; "B"%string])
                         Example.assembly))))
       = 2%nat.
Proof.
  apply (iterate_subsets_selects_k_subjects Example.self Example.assembly 2).
  left. reflexivity.
Defined.

(* ------------------------------------------------------------------ *)
(** ** A table with a single subsample size *)

(** A unit whose table has a single subsample size, as collected from
    exactly two subjects, cannot be extrapolated: [squeeze()] drops its
    [num_subjects] axis, the coordinate cannot be iterated, and the
    [TypeError] is not handled by [extrapolate], which raises it unless an
    earlier unit ends the loop first. *)
Theorem extrapolate_single_level_raises (rng_state : Type)
  (RandomState : nat -> rng_state)
  (choice : rng_state -> list R -> nat -> list R * rng_state)
  (curve_fit : list R -> list (option R) -> result (R * R))
  (self : ExtrapolationCeiling) (u : NeuroidCeilings)
  (before after : list NeuroidCeilings) :
  length (num_subjects_values u) = 1%nat ->
  Forall (fun c => forall e,
            extrapolate_neuroid RandomState choice curve_fit self c = Raise e ->
            is_KeyError e = true) before ->
  extrapolate RandomState choice curve_fit self (before ++ u :: after)
  = Raise (TypeError "iteration over a 0-d array").
Proof.
  intros Hlen Hbefore.
  assert (Hu : extrapolate_neuroid RandomState choice curve_fit self u
               = Raise (TypeError "iteration over a 0-d array")).
  { unfold extrapolate_neuroid, bootstrap_from, subject_subsamples_of.
    rewrite Hlen. reflexivity. }
  exact (proj2 (@extrapolate_abort rng_state RandomState choice curve_fit self u _
                  before after Hu eq_refl) Hbefore).
Qed.

Lemma extrapolate_single_level_raises_witness :
  extrapolate Example.RandomState Example.choice Example.fit_flat Example.self
    ([] ++ Example.two_subjects :: [Example.three_subjects])
  = Raise (TypeError "iteration over a 0-d array").
Proof.
  apply extrapolate_single_level_raises; [reflexivity | constructor].
Defined.

(* ------------------------------------------------------------------ *)
(** ** The endpoint on the curves of the specification *)

Lemma forward_difference_stated (bootstrap_params : list (nat * (R * R))) (x : nat) :
  forward_difference bootstrap_params x = stated_difference bootstrap_params x.
Proof. reflexivity. Qed.

Lemma asymptote_threshold_value : asymptote_threshold = 5 / 10000.
Proof. reflexivity. Qed.

(** C7: when the bootstrap loop has fitted a non-empty list of parameter
    pairs [(v0, tau0)], no [tau0] being 0, and, at some point of the grid
    [0..998], the forward difference of the per-x median across rounds of the
    curves [v0 * (1 - e^(-x / tau0))] is below [0.0005],
    [extrapolate_neuroid] returns a score whose [endpoint_x] is the smallest
    such grid point. *)
Theorem endpoint_is_first_flat_x (rng_state : Type)
  (RandomState : nat -> rng_state)
  (choice : rng_state -> list R -> nat -> list R * rng_state)
  (curve_fit : list R -> list (option R) -> result (R * R))
  (self : ExtrapolationCeiling) (ceilings : NeuroidCeilings)
  (params : list (nat * (R * R))) (rng' : rng_state) (x : nat) :
  bootstrap_from choice curve_fit self (RandomState 0%nat) ceilings = Ok (params, rng') ->
  params <> [] ->
  (forall p, In p params -> snd (snd p) <> 0) ->
  (x < 999)%nat ->
  stated_difference params x < 5 / 10000 ->
  exists r end_x,
    extrapolate_neuroid RandomState choice curve_fit self ceilings = Ok r
    /\ endpoint_x r = scalar_assembly (INR end_x)
    /\ (end_x <= x)%nat
    /\ stated_difference params end_x < 5 / 10000
    /\ forall y, (y < end_x)%nat -> ~ stated_difference params y < 5 / 10000.
Proof.
  intros Hfrom Hne _ Hx Hfd.
  rewrite <- forward_difference_stated, <- asymptote_threshold_value in Hfd.
  destruct (first_flat_exists Hx Hfd) as [end_x [Hle Hfirst]].
  exists (packaged ceilings params end_x), end_x.
  split.
  - unfold extrapolate_neuroid. rewrite Hfrom. cbn [bind fst].
    apply endpoint_and_error_Ok; assumption.
  - split; [reflexivity |]. split; [exact Hle |].
    destruct Hfirst as [_ [Hd Hmin]]. split.
    + rewrite <- forward_difference_stated, <- asymptote_threshold_value. exact Hd.
    + intros y Hy. rewrite <- forward_difference_stated, <- asymptote_threshold_value.
      exact (Hmin y Hy).
Qed.

(** Three rounds on the three-subject table: the first resampled means are
    [0.1], [0.2] and [0.1], so the fitted ceilings are [0.1], [0.2] and
    [0.1]. *)
Lemma two_levels_bootstrap :
  bootstrap_from Example.cycling_choice Example.fit_two_levels Example.self3
    (Example.RandomState 0) Example.three_subjects
  = Ok ([(0%nat, (1 / 10, 1 / 10000)); (1%nat, (2 / 10, 1 / 10000));
         (2%nat, (1 / 10, 1 / 10000))], 6%nat).
Proof.
  assert (Hlow : forall xs y rest, y < 15 / 100 ->
            Example.fit_two_levels xs (Some y :: rest) = Ok (1 / 10, 1 / 10000)).
  { intros xs y rest H. unfold Example.fit_two_levels.
    destruct (Rlt_dec y (15 / 100)); [reflexivity | tauto]. }
  assert (Hhigh : forall xs y rest, ~ y < 15 / 100 ->
            Example.fit_two_levels xs (Some y :: rest) = Ok (2 / 10, 1 / 10000)).
  { intros xs y rest H. unfold Example.fit_two_levels.
    destruct (Rlt_dec y (15 / 100)); [tauto | reflexivity]. }
  unfold bootstrap_from.
  change (subject_subsamples_of Example.three_subjects) with (Ok [2%nat; 3%nat]).
  cbn [bind Example.self3 num_bootstraps seq bootstrap_rounds].
  change (bootstrap_scores Example.cycling_choice Example.three_subjects
            [2%nat; 3%nat] (Example.RandomState 0) [])
    with (Ok ([Some (Np.mean (repeat (1 / 10) 6)); Some (Np.mean (repeat (4 / 10) 2))],
              2%nat)).
  cbn [bind fst snd]. unfold fit at 1.
  rewrite Hlow by (rewrite mean_repeat_6; lra).
  change (bootstrap_scores Example.cycling_choice Example.three_subjects
            [2%nat; 3%nat] 2%nat [])
    with (Ok ([Some (Np.mean (repeat (2 / 10) 6)); Some (Np.mean (repeat (4 / 10) 2))],
              4%nat)).
  cbn [bind fst snd]. unfold fit at 1.
  rewrite Hhigh by (rewrite mean_repeat_6; lra).
  change (bootstrap_scores Example.cycling_choice Example.three_subjects
            [2%nat; 3%nat] 4%nat [])
    with (Ok ([Some (Np.mean (repeat (1 / 10) 6)); Some (Np.mean (repeat (4 / 10) 2))],
              6%nat)).
  cbn [bind fst snd]. unfold fit.
  rewrite Hlow by (rewrite mean_repeat_6; lra).
  reflexivity.
Qed.

Lemma median_low_high_low (a b : R) : a <= b -> Np.median [a; b; a] = a.
Proof.
  intros Hab. unfold Np.median. cbn [Np.sort Np.insert].
  destruct (Rleb_cases b a) as [[-> Hba] | [-> Hba]].
  - assert (b = a) by lra. subst b. cbn [Np.insert].
    rewrite (@Rleb_true a a) by lra. reflexivity.
  - cbn [Np.insert]. rewrite (@Rleb_true a a) by lra. reflexivity.
Qed.

Lemma exp_minus_10000 : 0 < exp (- 10000) <= 1 / 10001.
Proof.
  pose proof (exp_pos (- 10000)) as Hp.
  pose proof (exp_ineq1_le 10000) as Hbig.
  assert (H : exp (- 10000) * exp 10000 = 1).
  { rewrite <- exp_plus. replace (- 10000 + 10000) with 0 by lra. apply exp_0. }
  split; [exact Hp |].
  assert (exp (- 10000) * (exp 10000 - 10001) >= 0) by nra.
  nra.
Qed.

Lemma two_levels_difference_0 :
  stated_difference
    [(0%nat, (1 / 10, 1 / 10000)); (1%nat, (2 / 10, 1 / 10000));
     (2%nat, (1 / 10, 1 / 10000))] 0
  = 1 / 10 * (1 - exp (- 10000)).
Proof.
  unfold stated_difference, stated_curve. cbn [map fst snd].
  replace (- INR 1 / (1 / 10000)) with (- 10000) by (simpl; lra).
  replace (- INR 0 / (1 / 10000)) with 0 by (simpl; lra).
  rewrite exp_0.
  pose proof exp_minus_10000 as [Hp Hle].
  rewrite !median_low_high_low by nra. lra.
Qed.

Lemma two_levels_difference_1 :
  stated_difference
    [(0%nat, (1 / 10, 1 / 10000)); (1%nat, (2 / 10, 1 / 10000));
     (2%nat, (1 / 10, 1 / 10000))] 1
  = 1 / 10 * (exp (- 10000) - exp (- 20000)).
Proof.
  unfold stated_difference, stated_curve. cbn [map fst snd].
  replace (- INR 2 / (1 / 10000)) with (- 20000) by (simpl; lra).
  replace (- INR 1 / (1 / 10000)) with (- 10000) by (simpl; lra).
  pose proof exp_minus_10000 as [Hp Hle].
  pose proof (exp_pos (- 20000)) as Hp2.
  assert (Hlt : exp (- 20000) < exp (- 10000)) by (apply exp_increasing; lra).
  rewrite !median_low_high_low by nra. lra.
Qed.

Lemma two_levels_first_step_steep :
  ~ stated_difference
      [(0%nat, (1 / 10, 1 / 10000)); (1%nat, (2 / 10, 1 / 10000));
       (2%nat, (1 / 10, 1 / 10000))] 0 < 5 / 10000.
Proof.
  rewrite two_levels_difference_0. pose proof exp_minus_10000 as [Hp Hle]. lra.
Qed.

Lemma two_levels_second_step_flat :
  stated_difference
    [(0%nat, (1 / 10, 1 / 10000)); (1%nat, (2 / 10, 1 / 10000));
     (2%nat, (1 / 10, 1 / 10000))] 1 < 5 / 10000.
Proof.
  rewrite two_levels_difference_1. pose proof exp_minus_10000 as [Hp Hle].
  pose proof (exp_pos (- 20000)). lra.
Qed.

Lemma two_levels_tau0 (p : nat * (R * R)) :
  In p [(0%nat, (1 / 10, 1 / 10000)); (1%nat, (2 / 10, 1 / 10000));
        (2%nat, (1 / 10, 1 / 10000))] ->
  snd (snd p) <> 0.
Proof. intros [<- | [<- | [<- | []]]]; cbn [snd]; lra. Qed.

(** C7, an instance with three fitted rounds: the median curve gains about
    [0.1] on the first grid step and next to nothing on the second, so the
    endpoint is [x = 1]. *)
Lemma endpoint_is_first_flat_x_witness :
  exists r end_x,
    (extrapolate_neuroid Example.RandomState Example.cycling_choice
       Example.fit_two_levels Example.self3 Example.three_subjects = Ok r
     /\ endpoint_x r = scalar_assembly (INR end_x)
     /\ (end_x <= 1)%nat
     /\ stated_difference
          [(0%nat, (1 / 10, 1 / 10000)); (1%nat, (2 / 10, 1 / 10000));
           (2%nat, (1 / 10, 1 / 10000))] end_x < 5 / 10000
     /\ forall y, (y < end_x)%nat ->
          ~ stated_difference
              [(0%nat, (1 / 10, 1 / 10000)); (1%nat, (2 / 10, 1 / 10000));
               (2%nat, (1 / 10, 1 / 10000))] y < 5 / 10000)
    /\ end_x = 1%nat.
Proof.
  destruct (endpoint_is_first_flat_x nat Example.RandomState Example.cycling_choice
              Example.fit_two_levels Example.self3 Example.three_subjects
              [(0%nat, (1 / 10, 1 / 10000)); (1%nat, (2 / 10, 1 / 10000));
               (2%nat, (1 / 10, 1 / 10000))] 6%nat 1%nat
              two_levels_bootstrap ltac:(discriminate) two_levels_tau0 ltac:(lia)
              two_levels_second_step_flat) as [r [end_x H]].
  exists r, end_x. split; [exact H |].
  destruct H as [_ [_ [Hle [Hflat _]]]].
  destruct end_x as [| [| n]]; [| reflexivity | lia].
  exfalso. exact (two_levels_first_step_steep Hflat).
Defined.

(* ------------------------------------------------------------------ *)
(** ** The sign of the error bars *)

Lemma floor_unique (m : nat) (x : R) :
  INR m <= x < INR m + 1 -> Np.floor x = m.
Proof.
  intros [H1 H2]. pose proof (pos_INR m) as Hm.
  destruct (floor_spec x ltac:(lra)) as [Ha Hb].
  assert (Hlt1 : INR (Np.floor x) < INR (m + 1)) by (rewrite plus_INR; simpl INR; lra).
  assert (Hlt2 : INR m < INR (Np.floor x + 1)) by (rewrite plus_INR; simpl INR; lra).
  apply INR_lt in Hlt1. apply INR_lt in Hlt2. lia.
Qed.

(** [np.median] is the 50th percentile. *)
Lemma median_is_percentile_50 (l : list R) :
  l <> [] -> Np.median l = Np.percentile l 50.
Proof.
  intros Hne. unfold Np.median, Np.percentile.
  set (a := Np.sort l). set (n := length a).
  assert (Hn : (0 < n)%nat).
  { unfold n, a. rewrite sort_length. destruct l; [congruence | cbn; lia]. }
  destruct (Nat.Even_or_Odd n) as [[k Hk] | [k Hk]].
  - assert (Heven : Nat.even n = true) by (apply Nat.even_spec; exists k; exact Hk).
    assert (Hhalf : (n / 2 = k)%nat).
    { rewrite Hk, Nat.mul_comm. apply Nat.div_mul. lia. }
    assert (HnR : INR n = 2 * INR k) by (rewrite Hk, mult_INR; simpl INR; lra).
    assert (Hk1 : INR (k - 1) = INR k - 1) by (rewrite minus_INR by lia; simpl INR; lra).
    assert (Hfloor : Np.floor (50 / 100 * (INR n - 1)) = (k - 1)%nat).
    { apply floor_unique. rewrite Hk1, HnR. lra. }
    rewrite Heven, Hhalf, Hfloor.
    replace (Nat.min (k - 1 + 1) (n - 1)) with k by lia.
    rewrite Hk1, HnR. lra.
  - assert (Hodd : Nat.even n = false).
    { rewrite <- Nat.negb_odd.
      replace (Nat.odd n) with true; [reflexivity |].
      symmetry. apply Nat.odd_spec. exists k. exact Hk. }
    assert (Hhalf : (n / 2 = k)%nat).
    { rewrite Hk. replace (2 * k + 1)%nat with (1 + k * 2)%nat by lia.
      rewrite Nat.div_add by lia. reflexivity. }
    assert (HnR : INR n = 2 * INR k + 1).
    { rewrite Hk, plus_INR, mult_INR. simpl INR. lra. }
    assert (Hfloor : Np.floor (50 / 100 * (INR n - 1)) = k).
    { apply floor_unique. rewrite HnR. lra. }
    rewrite Hodd, Hhalf, Hfloor, HnR. lra.
Qed.

(** [np.percentile] is monotone in the array: entry by entry smaller arrays
    have smaller percentiles. *)
Lemma percentile_dominated (a b : list R) (q : R) :
  Forall2 Rle a b -> a <> [] -> 0 <= q <= 100 ->
  Np.percentile a q <= Np.percentile b q.
Proof.
  intros Hab Hne Hq. pose proof (Forall2_length Hab) as Hlen.
  assert (Hn : (0 < length a)%nat) by (destruct a; [congruence | cbn; lia]).
  unfold Np.percentile. rewrite !sort_length, <- Hlen.
  set (n := length a) in *.
  assert (HnR : INR n - 1 = INR (n - 1)).
  { rewrite minus_INR by lia. simpl INR. lra. }
  assert (Hpos : 0 <= INR (n - 1)) by apply pos_INR.
  set (h := q / 100 * (INR n - 1)).
  assert (Hh : 0 <= h <= INR (n - 1)) by (unfold h; rewrite HnR; split; nra).
  pose proof (floor_below h (n - 1) Hh) as Hprev.
  pose proof (floor_spec h (proj1 Hh)) as [Hlo Hhi].
  pose proof (sort_nth_dominated a b (Np.floor h) Hab ltac:(fold n; lia)) as H1.
  pose proof (sort_nth_dominated a b (Nat.min (Np.floor h + 1) (n - 1)) Hab
                ltac:(fold n; lia)) as H2.
  set (gamma := h - INR (Np.floor h)).
  assert (Hg : 0 <= gamma < 1) by (unfold gamma; lra).
  nra.
Qed.

Lemma dropnan_map_Some (l : list R) : Np.dropnan (map Some l) = l.
Proof. induction l as [| x l IH]; cbn [map Np.dropnan]; [reflexivity | now rewrite IH]. Qed.

(** With a ceiling [v0] that is not negative, a curve never exceeds it. *)
Lemma curve_at_below_ceiling (x : nat) (p : nat * (R * R)) :
  0 <= fst (snd p) -> curve_at x p <= fst (snd p).
Proof.
  intros Hv. unfold curve_at, v.
  pose proof (exp_pos (- INR x / snd (snd p))). nra.
Qed.

(** The lower percentile of the curve values never exceeds the median of
    the fitted ceilings. *)
Lemma lower_percentile_below_center (params : list (nat * (R * R))) (x : nat) :
  params <> [] ->
  (forall p, In p params -> 0 <= fst (snd p)) ->
  Np.nanpercentile (map Some (map (curve_at x) params))
    (fst (ci_ranks default_confidence))
  <= Np.median (map (fun p => fst (snd p)) params).
Proof.
  intros Hne Hall. unfold Np.nanpercentile. rewrite dropnan_map_Some.
  assert (Hq : fst (ci_ranks default_confidence) = 5 / 2).
  { unfold ci_ranks, default_confidence. cbn [fst]. lra. }
  rewrite Hq.
  assert (Hdom : Forall2 Rle (map (curve_at x) params)
                   (map (fun p => fst (snd p)) params)).
  { clear Hne. induction params as [| p l IH]; cbn [map]; constructor.
    - apply curve_at_below_ceiling. apply Hall. left. reflexivity.
    - apply IH. intros q Hq'. apply Hall. right. exact Hq'. }
  assert (Hne1 : map (curve_at x) params <> [])
    by (destruct params; [congruence | discriminate]).
  assert (Hne2 : map (fun p : nat * (R * R) => fst (snd p)) params <> [])
    by (destruct params; [congruence | discriminate]).
  pose proof (percentile_dominated _ _ (5 / 2) Hdom Hne1 ltac:(lra)) as H1.
  pose proof (percentile_monotone _ (5 / 2) 50 Hne2 ltac:(lra) ltac:(lra) ltac:(lra))
    as H2.
  rewrite (median_is_percentile_50 _ Hne2). lra.
Qed.

(** C2 (amended): for every score [extrapolate_neuroid] returns,
    [error_low] is [center - p_low] and [error_high] is [p_high - center],
    where [center] is the median of the fitted [v0] and [p_low], [p_high]
    are the lower and upper percentiles [ci_error] takes of the per-round
    curve values at the endpoint.  When the fit keeps [v0] at or above 0,
    its lower bound, [p_low <= center]: [error_low] is the absolute distance
    from [center] to [p_low] and is not negative.  [error_high] stays the
    signed difference: no absolute value is taken of it. *)
Theorem error_low_is_distance_error_high_is_signed (rng_state : Type)
  (RandomState : nat -> rng_state)
  (choice : rng_state -> list R -> nat -> list R * rng_state)
  (curve_fit : list R -> list (option R) -> result (R * R))
  (self : ExtrapolationCeiling) (ceilings : NeuroidCeilings)
  (r : Ceiling NeuroidCeilings) :
  (forall xs ys p, curve_fit xs ys = Ok p -> 0 <= fst p) ->
  extrapolate_neuroid RandomState choice curve_fit self ceilings = Ok r ->
  exists params rng' end_x,
    bootstrap_from choice curve_fit self (RandomState 0%nat) ceilings = Ok (params, rng')
    /\ first_flat params end_x
    /\ let samples := map Some (map (curve_at end_x) params) in
       let p_low := Np.nanpercentile samples (fst (ci_ranks default_confidence)) in
       let p_high := Np.nanpercentile samples (snd (ci_ranks default_confidence)) in
       let center_ := sel_aggregation (ceiling_score r) "center" in
       let error_low := sel_aggregation (ceiling_score r) "error_low" in
       let error_high := sel_aggregation (ceiling_score r) "error_high" in
       center_ = Np.median (map (fun p => fst (snd p)) params)
       /\ error_low = Rabs (center_ - p_low)
       /\ 0 <= error_low
       /\ error_high = p_high - center_.
Proof.
  intros Hfit H. apply extrapolate_neuroid_inv in H.
  destruct H as [params [rng' [end_x [Hfrom [Hne [Hfirst ->]]]]]].
  exists params, rng', end_x. split; [exact Hfrom |]. split; [exact Hfirst |].
  assert (Hall : forall p, In p params -> 0 <= fst (snd p)).
  { intros p Hp.
    destruct (bootstrap_from_fitted _ _ _ _ _ _ _ _ Hfrom p Hp) as [_ [xs [ys Hp']]].
    exact (Hfit _ _ _ Hp'). }
  pose proof (lower_percentile_below_center params end_x Hne Hall) as Hlow.
  unfold packaged. cbn [ceiling_score].
  rewrite sel_center, sel_error_low, sel_error_high.
  unfold ci_error. cbn [fst snd].
  split; [reflexivity |]. split.
  - rewrite Rabs_pos_eq; [reflexivity | lra].
  - split; [lra | reflexivity].
Qed.

Lemma two_levels_first_flat :
  first_flat
    [(0%nat, (1 / 10, 1 / 10000)); (1%nat, (2 / 10, 1 / 10000));
     (2%nat, (1 / 10, 1 / 10000))] 1.
Proof.
  unfold first_flat. split; [lia |]. split.
  - rewrite forward_difference_stated, asymptote_threshold_value.
    exact two_levels_second_step_flat.
  - intros y Hy. replace y with 0%nat by lia.
    rewrite forward_difference_stated, asymptote_threshold_value.
    exact two_levels_first_step_steep.
Qed.

Lemma two_levels_extrapolate_neuroid :
  extrapolate_neuroid Example.RandomState Example.cycling_choice
    Example.fit_two_levels Example.self3 Example.three_subjects
  = Ok (packaged Example.three_subjects
          [(0%nat, (1 / 10, 1 / 10000)); (1%nat, (2 / 10, 1 / 10000));
           (2%nat, (1 / 10, 1 / 10000))] 1).
Proof.
  unfold extrapolate_neuroid. rewrite two_levels_bootstrap. cbn [bind fst].
  apply endpoint_and_error_Ok; [discriminate | exact two_levels_first_flat].
Qed.

Lemma fit_two_levels_not_negative (xs : list R) (ys : list (option R)) (p : R * R) :
  Example.fit_two_levels xs ys = Ok p -> 0 <= fst p.
Proof.
  unfold Example.fit_two_levels. destruct ys as [| [y |] ys]; try discriminate.
  destruct (Rlt_dec y (15 / 100)); intros H; injection H as <-; cbn [fst]; lra.
Qed.

(** C2, an instance with three fitted rounds and the endpoint [x = 1]. *)
Lemma error_low_is_distance_error_high_is_signed_witness :
  exists params rng' end_x,
    bootstrap_from Example.cycling_choice Example.fit_two_levels Example.self3
      (Example.RandomState 0%nat) Example.three_subjects = Ok (params, rng')
    /\ first_flat params end_x
    /\ let samples := map Some (map (curve_at end_x) params) in
       let p_low := Np.nanpercentile samples (fst (ci_ranks default_confidence)) in
       let p_high := Np.nanpercentile samples (snd (ci_ranks default_confidence)) in
       let center_ :=
         sel_aggregation
           (ceiling_score
              (packaged Example.three_subjects
                 [(0%nat, (1 / 10, 1 / 10000)); (1%nat, (2 / 10, 1 / 10000));
                  (2%nat, (1 / 10, 1 / 10000))] 1)) "center" in
       let error_low :=
         sel_aggregation
           (ceiling_score
              (packaged Example.three_subjects
                 [(0%nat, (1 / 10, 1 / 10000)); (1%nat, (2 / 10, 1 / 10000));
                  (2%nat, (1 / 10, 1 / 10000))] 1)) "error_low" in
       let error_high :=
         sel_aggregation
           (ceiling_score
              (packaged Example.three_subjects
                 [(0%nat, (1 / 10, 1 / 10000)); (1%nat, (2 / 10, 1 / 10000));
                  (2%nat, (1 / 10, 1 / 10000))] 1)) "error_high" in
       center_ = Np.median (map (fun p => fst (snd p)) params)
       /\ error_low = Rabs (center_ - p_low)
       /\ 0 <= error_low
       /\ error_high = p_high - center_.
Proof.
  exact (error_low_is_distance_error_high_is_signed nat Example.RandomState
           Example.cycling_choice Example.fit_two_levels Example.self3
           Example.three_subjects _ fit_two_levels_not_negative
           two_levels_extrapolate_neuroid).
Defined.

(* ------------------------------------------------------------------ *)
(** ** A unit none of whose rounds is fitted *)

(** When the fit of every round raises [RuntimeError] on the scores the
    round hands to it, the loop over rounds adds nothing. *)
Lemma bootstrap_rounds_unfitted (rng_state : Type)
  (choice : rng_state -> list R -> nat -> list R * rng_state)
  (curve_fit : list R -> list (option R) -> result (R * R))
  (u : NeuroidCeilings) (levels : list nat) (rounds : list nat) :
  forall rng inputs,
    round_scores choice u levels rounds rng = Ok inputs ->
    (forall ys, In ys inputs -> exists m, fit curve_fit levels ys = Raise (RuntimeError m)) ->
    forall acc, exists rng',
      bootstrap_rounds choice curve_fit u levels rounds rng acc = Ok (acc, rng').
Proof.
  induction rounds as [| b rounds IH]; intros rng inputs Hin Hfit acc.
  - cbn [bootstrap_rounds]. eauto.
  - cbn [round_scores] in Hin. cbn [bootstrap_rounds].
    destruct (bootstrap_scores choice u levels rng []) as [st | e];
      cbn [bind] in Hin |- *; [| discriminate].
    destruct (round_scores choice u levels rounds (snd st)) as [later | e] eqn:Hlater;
      cbn [bind] in Hin; [| discriminate].
    injection Hin as <-.
    destruct (Hfit (fst st) (or_introl eq_refl)) as [m ->].
    apply (IH (snd st) later Hlater).
    intros ys Hys. apply Hfit. right. exact Hys.
Qed.

(** C3 (amended): when the curve fit of every bootstrap round of a unit
    raises [RuntimeError] on the resampled scores of that round, the unit's
    squeezed table keeping its [num_subjects], subset and split axes (at
    least two subsample sizes), [extrapolate_neuroid] raises the [KeyError]
    of an empty merge and [extrapolate] skips the unit: its outcome (the
    aggregate and the merged per-unit arrays, or the exception) is its
    outcome on the table without that unit.  When the unit is the only one,
    that outcome is the [IndexError] of [merge]. *)
Theorem unfitted_unit_is_skipped (rng_state : Type)
  (RandomState : nat -> rng_state)
  (choice : rng_state -> list R -> nat -> list R * rng_state)
  (curve_fit : list R -> list (option R) -> result (R * R))
  (self : ExtrapolationCeiling) (u : NeuroidCeilings) (levels : list nat)
  (inputs : list (list (option R))) :
  subject_subsamples_of u = Ok levels ->
  round_scores choice u levels (seq 0 (num_bootstraps self)) (RandomState 0%nat)
  = Ok inputs ->
  (forall ys, In ys inputs -> exists m, fit curve_fit levels ys = Raise (RuntimeError m)) ->
  extrapolate_neuroid RandomState choice curve_fit self u = Raise (KeyError "z")
  /\ (forall before after,
        same_outcome
          (extrapolate RandomState choice curve_fit self (before ++ u :: after))
          (extrapolate RandomState choice curve_fit self (before ++ after)))
  /\ extrapolate RandomState choice curve_fit self [u]
     = Raise (IndexError "tuple index out of range").
Proof.
  intros Hlevels Hinputs Hfit.
  assert (Hu : extrapolate_neuroid RandomState choice curve_fit self u
               = Raise (KeyError "z")).
  { unfold extrapolate_neuroid, bootstrap_from. rewrite Hlevels. cbn [bind].
    destruct (bootstrap_rounds_unfitted rng_state choice curve_fit u levels
                (seq 0 (num_bootstraps self)) (RandomState 0%nat) inputs Hinputs Hfit [])
      as [rng' ->].
    reflexivity. }
  split; [exact Hu |]. split.
  - intros before after.
    exact (@extrapolate_skip _ RandomState choice curve_fit self u _ before after Hu).
  - pose proof (@extrapolate_skip _ RandomState choice curve_fit self u _ [] [] Hu)
      as H. cbn [app] in H.
    destruct (extrapolate RandomState choice curve_fit self [u]) as [c | e].
    + contradiction.
    + cbn in H. rewrite H. reflexivity.
Qed.

(** C3, an instance with a fit that depends on the resampled scores: both
    rounds of the plateau table resample a first mean of [0.2], on which the
    fit does not converge, while it does converge on other scores. *)
Lemma unfitted_unit_is_skipped_witness :
  extrapolate_neuroid Example.RandomState Example.cycling_choice Example.fit_picky
    Example.self2 Example.plateau_subjects = Raise (KeyError "z")
  /\ (forall before after,
        same_outcome
          (extrapolate Example.RandomState Example.cycling_choice Example.fit_picky
             Example.self2 (before ++ Example.plateau_subjects :: after))
          (extrapolate Example.RandomState Example.cycling_choice Example.fit_picky
             Example.self2 (before ++ after)))
  /\ extrapolate Example.RandomState Example.cycling_choice Example.fit_picky
       Example.self2 [Example.plateau_subjects]
     = Raise (IndexError "tuple index out of range").
Proof.
  refine (unfitted_unit_is_skipped nat Example.RandomState Example.cycling_choice
            Example.fit_picky Example.self2 Example.plateau_subjects
            [2%nat; 3%nat]
            [ [Some (Np.mean (repeat (2 / 10) 6)); Some (Np.mean (repeat (4 / 10) 2))];
              [Some (Np.mean (repeat (2 / 10) 6)); Some (Np.mean (repeat (4 / 10) 2))] ]
            eq_refl eq_refl _).
  intros ys [<- | [<- | []]]; eexists; unfold fit;
    apply fit_picky_above; rewrite mean_repeat_6; lra.
Defined.

(** The skipped unit next to a unit of the same table whose two rounds are
    fitted: the extrapolation completes on the fitted unit alone. *)
Lemma unfitted_unit_beside_fitted_unit :
  exists c,
    extrapolate Example.RandomState Example.cycling_choice Example.fit_picky
      Example.self2 [Example.plateau_subjects; Example.steady_subjects] = Ok c
    /\ sel_aggregation (ceiling_score c) "center" = 1 / 10000.
Proof.
  assert (Hp : extrapolate_neuroid Example.RandomState Example.cycling_choice
                 Example.fit_picky Example.self2 Example.plateau_subjects
               = Raise (KeyError "z")).
  { unfold extrapolate_neuroid, bootstrap_from.
    change (subject_subsamples_of Example.plateau_subjects) with (Ok [2%nat; 3%nat]).
    cbn [bind].
    destruct (bootstrap_rounds_unfitted nat Example.cycling_choice Example.fit_picky
                Example.plateau_subjects [2%nat; 3%nat]
                (seq 0 (num_bootstraps Example.self2)) (Example.RandomState 0%nat)
                [ [Some (Np.mean (repeat (2 / 10) 6)); Some (Np.mean (repeat (4 / 10) 2))];
                  [Some (Np.mean (repeat (2 / 10) 6)); Some (Np.mean (repeat (4 / 10) 2))] ]
                eq_refl) with (acc := @nil (nat * (R * R))) as [rng' ->];
      [| reflexivity].
    intros ys [<- | [<- | []]]; eexists; unfold fit;
      apply fit_picky_above; rewrite mean_repeat_6; lra. }
  assert (Hs : extrapolate_neuroid Example.RandomState Example.cycling_choice
                 Example.fit_picky Example.self2 Example.steady_subjects
               = Ok (packaged Example.steady_subjects
                       [(0%nat, (1 / 10000, 1)); (1%nat, (1 / 10000, 1))] 0)).
  { unfold extrapolate_neuroid. rewrite picky_steady_bootstrap. cbn [bind fst].
    apply endpoint_and_error_Ok; [discriminate | exact flat_pair_first_flat]. }
  unfold extrapolate. cbn [extrapolate_loop]. rewrite Hp, Hs.
  eexists. split; [reflexivity |].
  cbn. rewrite median_pair_same. apply median_singleton.
Qed.

(* ------------------------------------------------------------------ *)
(** ** The generator of [extrapolate_neuroid] *)

Lemma nth_error_app_last {A : Type} (l : list A) (y : A) :
  nth_error (l ++ [y]) (length l) = Some y.
Proof. induction l as [| x l IH]; [reflexivity | exact IH]. Qed.

Lemma set_nth_app_last {A : Type} (l : list A) (x y : A) :
  set_nth (length l) x (l ++ [y]) = l ++ [x].
Proof.
  induction l as [| z l IH]; [reflexivity |].
  cbn [length app set_nth]. now rewrite IH.
Qed.

Lemma nth_error_set_nth {A : Type} (l : list A) (i : nat) (x y : A) :
  nth_error l i = Some y -> nth_error (set_nth i x l) i = Some x.
Proof.
  revert i. induction l as [| z l IH]; intros [| i] H; try discriminate.
  - reflexivity.
  - cbn [set_nth nth_error] in *. apply IH. exact H.
Qed.

Lemma set_nth_set_nth {A : Type} (l : list A) (i : nat) (x y : A) :
  set_nth i x (set_nth i y l) = set_nth i x l.
Proof.
  revert i. induction l as [| z l IH]; intros [| i]; try reflexivity.
  cbn [set_nth]. now rewrite IH.
Qed.

Lemma set_nth_same {A : Type} (l : list A) (i : nat) (x : A) :
  nth_error l i = Some x -> set_nth i x l = l.
Proof.
  revert i. induction l as [| z l IH]; intros [| i] H; try discriminate.
  - cbn in H. injection H as ->. reflexivity.
  - cbn [set_nth nth_error] in *. now rewrite IH.
Qed.

Lemma advanced_nothing (rng_state : Type) (p : Process rng_state) (rng : nat)
  (state : rng_state) :
  nth_error (generators p) rng = Some state -> advanced p rng state [] = p.
Proof.
  intros H. unfold advanced. rewrite (set_nth_same _ _ _ H), app_nil_r.
  destruct p. reflexivity.
Qed.

Lemma advanced_twice (rng_state : Type) (p : Process rng_state) (rng : nat)
  (s1 s2 : rng_state) (d1 d2 : list (list R)) :
  advanced (advanced p rng s1 d1) rng s2 d2 = advanced p rng s2 (d1 ++ d2).
Proof.
  unfold advanced. cbn [ambient generators drawn].
  rewrite set_nth_set_nth, app_assoc. reflexivity.
Qed.

Lemma advanced_generator (rng_state : Type) (p : Process rng_state) (rng : nat)
  (s s' : rng_state) (d : list (list R)) :
  nth_error (generators p) rng = Some s ->
  nth_error (generators (advanced p rng s' d)) rng = Some s'.
Proof. intros H. exact (nth_error_set_nth _ _ s' s H). Qed.

Lemma rng_choice_advances (rng_state : Type)
  (choice : rng_state -> list R -> nat -> list R * rng_state)
  (p : Process rng_state) (rng : nat) (s : rng_state) (a : list R) (size : nat) :
  nth_error (generators p) rng = Some s ->
  rng_choice choice rng a size p
  = (fst (choice s a size), advanced p rng (snd (choice s a size)) [fst (choice s a size)]).
Proof. intros H. unfold rng_choice. rewrite H. reflexivity. Qed.

Lemma seeded_draws_app (rng_state : Type)
  (choice : rng_state -> list R -> nat -> list R * rng_state)
  (requests later : list (list R)) :
  forall rng,
    seeded_draws choice rng (requests ++ later)
    = (fst (seeded_draws choice rng requests)
       ++ fst (seeded_draws choice (snd (seeded_draws choice rng requests)) later),
       snd (seeded_draws choice (snd (seeded_draws choice rng requests)) later)).
Proof.
  induction requests as [| a requests IH]; intros rng.
  - cbn [app seeded_draws fst snd]. destruct (seeded_draws choice rng later). reflexivity.
  - cbn [app seeded_draws fst snd]. rewrite IH. reflexivity.
Qed.

(** One bootstrap round in two processes whose generator objects are in the
    same state: the same scores, the same samples, the same new state, and
    nothing else of either process is touched. *)
Lemma bootstrap_scores_in_agree (rng_state : Type)
  (choice : rng_state -> list R -> nat -> list R * rng_state)
  (u : NeuroidCeilings) (levels : list nat) :
  forall acc s (p1 p2 : Process rng_state) rng1 rng2,
    nth_error (generators p1) rng1 = Some s ->
    nth_error (generators p2) rng2 = Some s ->
    exists s' ds,
      bootstrap_scores_in choice u levels rng1 acc p1
      = (outcome (bootstrap_scores choice u levels s acc), advanced p1 rng1 s' ds)
      /\ bootstrap_scores_in choice u levels rng2 acc p2
         = (outcome (bootstrap_scores choice u levels s acc), advanced p2 rng2 s' ds)
      /\ forall ys s'',
           bootstrap_scores choice u levels s acc = Ok (ys, s'') ->
           seeded_draws choice s (round_requests u levels) = (ds, s') /\ s'' = s'.
Proof.
  induction levels as [| k levels IH]; intros acc s p1 p2 rng1 rng2 H1 H2.
  - exists s, []. cbn [bootstrap_scores_in bootstrap_scores outcome].
    rewrite !advanced_nothing by assumption.
    split; [reflexivity |]. split; [reflexivity |].
    intros ys s'' H. injection H as _ <-. split; reflexivity.
  - cbn [bootstrap_scores_in bootstrap_scores]. unfold round_requests. cbn [flat_map].
    destruct (level_choices u k) as [cs | e].
    + cbn [bind].
      rewrite (rng_choice_advances rng_state choice p1 rng1 s cs (length cs) H1).
      rewrite (rng_choice_advances rng_state choice p2 rng2 s cs (length cs) H2).
      cbn [fst snd].
      destruct (IH (acc ++ [mean_or_nan (fst (choice s cs (length cs)))])
                  (snd (choice s cs (length cs)))
                  (advanced p1 rng1 (snd (choice s cs (length cs)))
                     [fst (choice s cs (length cs))])
                  (advanced p2 rng2 (snd (choice s cs (length cs)))
                     [fst (choice s cs (length cs))])
                  rng1 rng2
                  (advanced_generator rng_state p1 rng1 s _ _ H1)
                  (advanced_generator rng_state p2 rng2 s _ _ H2))
        as [s' [ds [E1 [E2 E3]]]].
      exists s', (fst (choice s cs (length cs)) :: ds).
      rewrite E1, E2, !advanced_twice. cbn [app].
      split; [reflexivity |]. split; [reflexivity |].
      intros ys s'' H. destruct (E3 ys s'' H) as [Hd Hs].
      fold (round_requests u levels). cbn [app seeded_draws].
      rewrite Hd. cbn [fst snd]. split; [reflexivity | exact Hs].
    + exists s, []. cbn [bind outcome].
      rewrite !advanced_nothing by assumption.
      split; [reflexivity |]. split; [reflexivity |].
      intros ys s'' H. discriminate.
Qed.

(** The loop over rounds in two such processes. *)
Lemma bootstrap_rounds_in_agree (rng_state : Type)
  (choice : rng_state -> list R -> nat -> list R * rng_state)
  (curve_fit : list R -> list (option R) -> result (R * R))
  (u : NeuroidCeilings) (levels : list nat) (rounds : list nat) :
  forall acc s (p1 p2 : Process rng_state) rng1 rng2,
    nth_error (generators p1) rng1 = Some s ->
    nth_error (generators p2) rng2 = Some s ->
    exists s' ds,
      bootstrap_rounds_in choice curve_fit u levels rounds rng1 acc p1
      = (outcome (bootstrap_rounds choice curve_fit u levels rounds s acc),
         advanced p1 rng1 s' ds)
      /\ bootstrap_rounds_in choice curve_fit u levels rounds rng2 acc p2
         = (outcome (bootstrap_rounds choice curve_fit u levels rounds s acc),
            advanced p2 rng2 s' ds)
      /\ forall params s'',
           bootstrap_rounds choice curve_fit u levels rounds s acc = Ok (params, s'') ->
           seeded_draws choice s
             (concat (repeat (round_requests u levels) (length rounds)))
           = (ds, s').
Proof.
  induction rounds as [| b rounds IH]; intros acc s p1 p2 rng1 rng2 H1 H2.
  - exists s, []. cbn [bootstrap_rounds_in bootstrap_rounds outcome].
    rewrite !advanced_nothing by assumption.
    split; [reflexivity |]. split; [reflexivity |].
    intros params s'' H. reflexivity.
  - cbn [bootstrap_rounds_in bootstrap_rounds].
    destruct (bootstrap_scores_in_agree rng_state choice u levels [] s p1 p2 rng1 rng2
                H1 H2) as [s1 [d1 [E1 [E2 E3]]]].
    rewrite E1, E2. cbn [fst snd].
    destruct (bootstrap_scores choice u levels s []) as [[ys sy] | e] eqn:Hscores;
      cbn [outcome bind fst snd].
    + destruct (E3 ys sy eq_refl) as [Hd1 ->].
      assert (Hnext : forall acc',
                exists s' ds,
                  bootstrap_rounds_in choice curve_fit u levels rounds rng1 acc'
                    (advanced p1 rng1 s1 d1)
                  = (outcome (bootstrap_rounds choice curve_fit u levels rounds s1 acc'),
                     advanced p1 rng1 s' (d1 ++ ds))
                  /\ bootstrap_rounds_in choice curve_fit u levels rounds rng2 acc'
                       (advanced p2 rng2 s1 d1)
                     = (outcome (bootstrap_rounds choice curve_fit u levels rounds s1 acc'),
                        advanced p2 rng2 s' (d1 ++ ds))
                  /\ forall params s'',
                       bootstrap_rounds choice curve_fit u levels rounds s1 acc'
                       = Ok (params, s'') ->
                       seeded_draws choice s
                         (concat (repeat (round_requests u levels)
                                    (length (b :: rounds))))
                       = (d1 ++ ds, s')).
      { intros acc'.
        destruct (IH acc' s1 (advanced p1 rng1 s1 d1) (advanced p2 rng2 s1 d1) rng1 rng2
                    (advanced_generator rng_state p1 rng1 s _ _ H1)
                    (advanced_generator rng_state p2 rng2 s _ _ H2))
          as [s' [ds [F1 [F2 F3]]]].
        exists s', ds. rewrite F1, F2, !advanced_twice.
        split; [reflexivity |]. split; [reflexivity |].
        intros params s'' H. cbn [length repeat concat].
        rewrite seeded_draws_app, Hd1. cbn [fst snd].
        rewrite (F3 params s'' H). reflexivity. }
      destruct (fit curve_fit levels ys) as [fitted | e].
      * destruct (Hnext (acc ++ [(b, fitted)])) as [s' [ds H]].
        exists s', (d1 ++ ds). exact H.
      * destruct e;
          try (exists s1, d1; cbn [outcome];
               split; [reflexivity |]; split; [reflexivity |];
               intros params s'' H; discriminate).
        destruct (Hnext acc) as [s' [ds H]].
        exists s', (d1 ++ ds). exact H.
    + exists s1, d1. split; [reflexivity |]. split; [reflexivity |].
      intros params s'' H. discriminate.
Qed.

(** C8: [extrapolate_neuroid] run in any two processes, whatever the state
    of numpy's module-level generator, whatever generator objects exist and
    whatever has been drawn before: both runs have the same outcome (the
    same score or the same exception) and draw the same samples; neither
    touches the module-level generator or an existing generator object, the
    only object drawn from being the one the run constructs; and the outcome
    is that of the function with the generator state threaded from
    [RandomState(0)].  When the run returns a score, the samples are those a
    generator seeded with 0 yields for the choices of every subsample size,
    round after round. *)
Theorem extrapolate_neuroid_deterministic (rng_state : Type)
  (RandomState : nat -> rng_state)
  (choice : rng_state -> list R -> nat -> list R * rng_state)
  (curve_fit : list R -> list (option R) -> result (R * R))
  (self : ExtrapolationCeiling) (ceilings : NeuroidCeilings)
  (p1 p2 : Process rng_state) :
  exists (fresh : list rng_state) (samples : list (list R)),
    fst (extrapolate_neuroid_in RandomState choice curve_fit self ceilings p1)
    = fst (extrapolate_neuroid_in RandomState choice curve_fit self ceilings p2)
    /\ snd (extrapolate_neuroid_in RandomState choice curve_fit self ceilings p1)
       = {| ambient := ambient p1;
            generators := generators p1 ++ fresh;
            drawn := drawn p1 ++ samples |}
    /\ snd (extrapolate_neuroid_in RandomState choice curve_fit self ceilings p2)
       = {| ambient := ambient p2;
            generators := generators p2 ++ fresh;
            drawn := drawn p2 ++ samples |}
    /\ fst (extrapolate_neuroid_in RandomState choice curve_fit self ceilings p1)
       = extrapolate_neuroid RandomState choice curve_fit self ceilings
    /\ forall levels r,
         subject_subsamples_of ceilings = Ok levels ->
         fst (extrapolate_neuroid_in RandomState choice curve_fit self ceilings p1)
         = Ok r ->
         seeded_draws choice (RandomState 0%nat)
           (concat (repeat (round_requests ceilings levels) (num_bootstraps self)))
         = (samples, last fresh (RandomState 0%nat))
         /\ length fresh = 1%nat.
Proof.
  unfold extrapolate_neuroid_in, extrapolate_neuroid, bootstrap_from.
  destruct (subject_subsamples_of ceilings) as [levels | e].
  - cbn [bind new_RandomState fst snd].
    destruct (bootstrap_rounds_in_agree rng_state choice curve_fit ceilings levels
                (seq 0 (num_bootstraps self)) [] (RandomState 0%nat)
                {| ambient := ambient p1;
                   generators := generators p1 ++ [RandomState 0%nat];
                   drawn := drawn p1 |}
                {| ambient := ambient p2;
                   generators := generators p2 ++ [RandomState 0%nat];
                   drawn := drawn p2 |}
                (length (generators p1)) (length (generators p2))
                (nth_error_app_last _ _) (nth_error_app_last _ _))
      as [s' [ds [E1 [E2 E3]]]].
    rewrite E1, E2. cbn [fst snd].
    exists [s'], ds.
    assert (Hadv : forall p : Process rng_state,
              snd (match outcome (bootstrap_rounds choice curve_fit ceilings levels
                                    (seq 0 (num_bootstraps self)) (RandomState 0%nat) [])
                   with
                   | Ok bootstrap_params =>
                       (endpoint_and_error ceilings bootstrap_params,
                        advanced {| ambient := ambient p;
                                    generators := generators p ++ [RandomState 0%nat];
                                    drawn := drawn p |} (length (generators p)) s' ds)
                   | Raise e =>
                       (Raise e,
                        advanced {| ambient := ambient p;
                                    generators := generators p ++ [RandomState 0%nat];
                                    drawn := drawn p |} (length (generators p)) s' ds)
                   end)
              = {| ambient := ambient p;
                   generators := generators p ++ [s'];
                   drawn := drawn p ++ ds |}).
    { intros p.
      destruct (outcome _); cbn [snd]; unfold advanced; cbn [ambient generators drawn];
        rewrite set_nth_app_last; reflexivity. }
    split.
    { destruct (outcome _); reflexivity. }
    split; [apply Hadv |]. split; [apply Hadv |].
    split.
    { destruct (bootstrap_rounds choice curve_fit ceilings levels
                  (seq 0 (num_bootstraps self)) (RandomState 0%nat) [])
        as [[params s''] | e]; reflexivity. }
    intros levels' r Hlevels Hr. injection Hlevels as <-.
    destruct (bootstrap_rounds choice curve_fit ceilings levels
                (seq 0 (num_bootstraps self)) (RandomState 0%nat) [])
      as [[params s''] | e] eqn:Hpure; cbn [outcome fst] in Hr; [| discriminate].
    pose proof (E3 params s'' eq_refl) as Hd. rewrite length_seq in Hd.
    split; [exact Hd | reflexivity].
  - exists [], []. cbn [fst snd bind]. rewrite !app_nil_r.
    split; [reflexivity |].
    split; [destruct p1; reflexivity |]. split; [destruct p2; reflexivity |].
    split; [reflexivity |].
    intros levels r H. discriminate.
Qed.

(** C8, an instance: a process with a used module-level generator, two
    generator objects and an earlier draw, and a fresh process.  The runs
    agree, and the six samples are those of the generator seeded with 0. *)
Lemma extrapolate_neuroid_deterministic_witness :
  exists (fresh : list nat) (samples : list (list R)),
    (fst (extrapolate_neuroid_in Example.RandomState Example.cycling_choice
            Example.fit_two_levels Example.self3 Example.three_subjects
            {| ambient := 7%nat; generators := [3%nat; 5%nat]; drawn := [[1]] |})
     = fst (extrapolate_neuroid_in Example.RandomState Example.cycling_choice
              Example.fit_two_levels Example.self3 Example.three_subjects
              {| ambient := 0%nat; generators := []; drawn := [] |})
     /\ snd (extrapolate_neuroid_in Example.RandomState Example.cycling_choice
               Example.fit_two_levels Example.self3 Example.three_subjects
               {| ambient := 7%nat; generators := [3%nat; 5%nat]; drawn := [[1]] |})
        = {| ambient := 7%nat;
             generators := [3%nat; 5%nat] ++ fresh;
             drawn := [[1]] ++ samples |}
     /\ snd (extrapolate_neuroid_in Example.RandomState Example.cycling_choice
               Example.fit_two_levels Example.self3 Example.three_subjects
               {| ambient := 0%nat; generators := []; drawn := [] |})
        = {| ambient := 0%nat; generators := [] ++ fresh; drawn := [] ++ samples |}
     /\ fst (extrapolate_neuroid_in Example.RandomState Example.cycling_choice
               Example.fit_two_levels Example.self3 Example.three_subjects
               {| ambient := 7%nat; generators := [3%nat; 5%nat]; drawn := [[1]] |})
        = extrapolate_neuroid Example.RandomState Example.cycling_choice
            Example.fit_two_levels Example.self3 Example.three_subjects)
    /\ samples = [ repeat (1 / 10) 6; repeat (4 / 10) 2; repeat (2 / 10) 6;
                   repeat (4 / 10) 2; repeat (1 / 10) 6; repeat (4 / 10) 2 ]
    /\ fresh = [6%nat].
Proof.
  destruct (extrapolate_neuroid_deterministic nat Example.RandomState
              Example.cycling_choice Example.fit_two_levels Example.self3
              Example.three_subjects
              {| ambient := 7%nat; generators := [3%nat; 5%nat]; drawn := [[1]] |}
              {| ambient := 0%nat; generators := []; drawn := [] |})
    as [fresh [samples [H1 [H2 [H3 [H4 H5]]]]]].
  exists fresh, samples.
  split; [exact (conj H1 (conj H2 (conj H3 H4))) |].
  destruct (H5 [2%nat; 3%nat] _ eq_refl (eq_trans H4 two_levels_extrapolate_neuroid))
    as [Hd Hlen].
  assert (Hc : seeded_draws Example.cycling_choice (Example.RandomState 0)
                 (concat (repeat (round_requests Example.three_subjects [2%nat; 3%nat])
                            (num_bootstraps Example.self3)))
               = ([ repeat (1 / 10) 6; repeat (4 / 10) 2; repeat (2 / 10) 6;
                    repeat (4 / 10) 2; repeat (1 / 10) 6; repeat (4 / 10) 2 ], 6%nat))
    by reflexivity.
  rewrite Hc in Hd. injection Hd as Hs Hf.
  split; [symmetry; exact Hs |].
  destruct fresh as [| x [| y l]]; cbn [length] in Hlen; try discriminate.
  cbn [last] in Hf. rewrite <- Hf. reflexivity.
Defined.
